(** * go-pet-project: the outbox engine, the inbox, and the order saga

    A shallow embedding of the Go services of the repository.  Every
    PostgreSQL table is a finite structure (a [gmap] keyed by the primary
    key, or a list of rows where order and duplicates matter), a pgx
    transaction is a working copy of the committed tables that [Commit]
    installs and [Rollback] drops, and every driver call that may fail takes
    its outcome from an explicit record of injected faults.  Clock readings
    and random draws ([uuid.New()]) are arguments; one reading per call
    stands for [time.Now()] and for the database's [NOW()].  A BIGSERIAL
    sequence is kept with its table, so the ids a rolled-back transaction
    drew are handed out again.  The injected faults are independent of each
    other; PostgreSQL, which fails every statement that follows a failed one
    in the same transaction, produces some of these runs only. *)

From stdpp Require Import gmap strings list fin_maps pretty sorting.
From Stdlib Require Import ZArith Lia.

Local Open Scope string_scope.
Local Open Scope list_scope.
Local Open Scope Z_scope.

(** ** Go values shared by all packages *)

(** [error] values.  [ErrNew] is a package-level sentinel made by
    [errors.New]; [PgError] is a [*pgconn.PgError] with its SQLSTATE;
    [ErrIO] is any other driver or network failure; [Errorf] is
    [fmt.Errorf] without [%w]; [Wrap] is [fmt.Errorf("msg: %w", inner)]. *)
Inductive error : Type :=
| ErrNew (msg : string)
| PgError (code : string)
| ErrIO (msg : string)
| Errorf (msg : string)
| Wrap (msg : string) (inner : error).

#[global] Instance error_eq_dec : EqDecision error.
Proof. solve_decision. Defined.

(** [errors.Is]: walks the [%w] chain. *)
Fixpoint errors_Is (e target : error) : bool :=
  if decide (e = target) then true
  else match e with
       | Wrap _ inner => errors_Is inner target
       | _ => false
       end.

(** [err.Error()]. *)
Fixpoint Error (e : error) : string :=
  match e with
  | ErrNew msg => msg
  | PgError code => "ERROR: SQLSTATE " +:+ code
  | ErrIO msg => msg
  | Errorf msg => msg
  | Wrap msg inner => msg +:+ ": " +:+ Error inner
  end.

(** [pgx.ErrNoRows]. *)
Definition ErrNoRows : error := ErrNew "no rows in result set".

(** [int64] arithmetic wraps around. *)
Definition wrap64 (z : Z) : Z := (z + 2 ^ 63) mod 2 ^ 64 - 2 ^ 63.

(** [time.Duration] counts nanoseconds. *)
Definition Millisecond : Z := 1000000.
Definition Second : Z := 1000 * Millisecond.
Definition Minute : Z := 60 * Second.

(** JSON documents.  Numbers are the integers the services write; [JTime t]
    stands for the JSON string holding the RFC 3339 rendering of the instant
    [t] (what [time.Time] marshals to).  A Go [map[string]any] is the field
    list of a [JObj]; the order of the fields of a map carries no meaning. *)
#[local] Unset Elimination Schemes.
Inductive json : Type :=
| JNull
| JBool (b : bool)
| JNum (n : Z)
| JStr (s : string)
| JTime (t : Z)
| JArr (xs : list json)
| JObj (fields : list (string * json)).
#[local] Set Elimination Schemes.

(** [m[k]] on a decoded object. *)
Fixpoint obj_get (k : string) (fields : list (string * json)) : option json :=
  match fields with
  | [] => None
  | (k', v) :: rest => if decide (k' = k) then Some v else obj_get k rest
  end.

(** [m[k] = v]: overwrites the binding of [k] or adds one. *)
Fixpoint obj_set (k : string) (v : json) (fields : list (string * json))
  : list (string * json) :=
  match fields with
  | [] => [(k, v)]
  | (k', v') :: rest =>
      if decide (k' = k) then (k, v) :: rest else (k', v') :: obj_set k v rest
  end.

(** Field access on any JSON value: only objects have fields. *)
Definition json_field (k : string) (j : json) : option json :=
  match j with
  | JObj fields => obj_get k fields
  | _ => None
  end.

(** [encoding/json] decodes a number into an [any] as a [float64]: the
    integer is rounded to 53 significant bits, ties to even, and written
    back as an integer.  Integers below 2^53 in magnitude are exact. *)
Definition float64_of_int (n : Z) : Z :=
  let a := Z.abs n in
  if a <? 2 ^ 53 then n
  else
    let shift := Z.log2 a - 52 in
    let q := Z.shiftr a shift in
    let r := Z.land a (Z.ones shift) in
    let half := Z.shiftl 1 (shift - 1) in
    let q' := if (half <? r) || ((r =? half) && Z.odd q) then q + 1 else q in
    Z.sgn n * Z.shiftl q' shift.

(** A document decoded into [any] and encoded again. *)
Fixpoint decode_any (j : json) : json :=
  match j with
  | JNum n => JNum (float64_of_int n)
  | JArr xs => JArr (map decode_any xs)
  | JObj fields => JObj (map (fun '(k, v) => (k, decode_any v)) fields)
  | _ => j
  end.

(** Every number of the document is below 2^53 in magnitude. *)
Fixpoint safe_numbers (j : json) : bool :=
  match j with
  | JNum n => Z.abs n <? 2 ^ 53
  | JArr xs => forallb safe_numbers xs
  | JObj fields => forallb (fun '(k, v) => safe_numbers v) fields
  | _ => true
  end.

(** ** pkg/outbox: the outbox table and its repository *)

Module Outbox.

(** [domain.OutboxEvent], one row of the [outbox] table.  The payload column
    is JSONB, so a stored payload is always a JSON document. *)
Record OutboxEvent : Type := mkOutboxEvent {
  Id : Z;
  AggregateType : string;
  AggregateID : string;
  EventType : string;
  Payload : json;
  Headers : json;
  CreatedAt : Z;
  PublishedAt : option Z;
  Attempts : Z;
  LastError : option string;
  Topic : string
}.

(** The table with its BIGSERIAL sequence. *)
Record table : Type := mkTable {
  rows : list OutboxEvent;
  next_id : Z
}.

(** What a producer fills in before [SaveOutboxEvent]. *)
Record NewEvent : Type := mkNewEvent {
  nAggregateType : string;
  nAggregateID : string;
  nEventType : string;
  nPayload : json;
  nTopic : string
}.

(** [outboxRepo.SaveOutboxEvent]: INSERT of the five columns; the others take
    their defaults (headers [{}], created_at NOW(), published_at NULL,
    attempts 0, last_error NULL). *)
Definition SaveOutboxEvent (fault : option error) (now : Z) (ev : NewEvent)
    (t : table) : table * option error :=
  match fault with
  | Some e => (t, Some e)
  | None =>
      (mkTable
         (rows t ++
          [mkOutboxEvent (next_id t) (nAggregateType ev) (nAggregateID ev)
             (nEventType ev) (nPayload ev) (JObj []) now None 0 None
             (nTopic ev)])
         (next_id t + 1),
       None)
  end.

Definition max_int4 : Z := 2147483647.

(** An UPDATE of the rows with the given id. *)
Definition update_row (id : Z) (f : OutboxEvent -> OutboxEvent) (t : table) : table :=
  mkTable (map (fun e => if decide (Id e = id) then f e else e) (rows t))
          (next_id t).

(** [outboxRepo.MarkEventFailed]: published_at NULL, last_error set,
    attempts + 1 (an INT column: the statement fails past [max_int4]). *)
Definition MarkEventFailed (fault : option error) (tx : table) (eventID : Z)
    (errMsg : string) : table * option error :=
  match fault with
  | Some e => (tx, Some e)
  | None =>
      if existsb (fun e => bool_decide (Id e = eventID) && (max_int4 <? Attempts e + 1))
           (rows tx)
      then (tx, Some (PgError "22003"))
      else (update_row eventID
              (fun e => mkOutboxEvent (Id e) (AggregateType e) (AggregateID e)
                          (EventType e) (Payload e) (Headers e) (CreatedAt e)
                          None (Attempts e + 1) (Some errMsg) (Topic e)) tx,
            None)
  end.

(** [outboxRepo.MarkEventPublished]: published_at NOW(), last_error NULL. *)
Definition MarkEventPublished (fault : option error) (now : Z) (tx : table)
    (eventID : Z) : table * option error :=
  match fault with
  | Some e => (tx, Some e)
  | None =>
      (update_row eventID
         (fun e => mkOutboxEvent (Id e) (AggregateType e) (AggregateID e)
                     (EventType e) (Payload e) (Headers e) (CreatedAt e)
                     (Some now) (Attempts e) None (Topic e)) tx,
       None)
  end.

(** [outboxRepo.MarkEventUnpublished]: published_at NULL, last_error NULL. *)
Definition MarkEventUnpublished (fault : option error) (tx : table)
    (eventID : Z) : table * option error :=
  match fault with
  | Some e => (tx, Some e)
  | None =>
      (update_row eventID
         (fun e => mkOutboxEvent (Id e) (AggregateType e) (AggregateID e)
                     (EventType e) (Payload e) (Headers e) (CreatedAt e)
                     None (Attempts e) None (Topic e)) tx,
       None)
  end.

(** The WHERE clause of [GetUnpublishedEvents],
    [published_at IS NULL AND attempts < 10], together with SKIP LOCKED:
    [locked] tells which rows another transaction holds a row lock on. *)
Definition candidate (locked : Z -> bool) (e : OutboxEvent) : bool :=
  bool_decide (PublishedAt e = None) && (Attempts e <? 10) && negb (locked (Id e)).

(** [ORDER BY created_at ASC]. *)
Definition created_le (a b : OutboxEvent) : Prop := CreatedAt a <= CreatedAt b.

#[global] Instance created_le_dec : RelDecision created_le.
Proof. intros a b. unfold created_le. apply _. Defined.

(** The rows the SELECT picks, as they stand in the table.  PostgreSQL
    leaves the order of rows with equal [created_at] open; [merge_sort] is
    one such order. *)
Definition select_unpublished (locked : Z -> bool) (t : table) (batchSize : Z)
  : list OutboxEvent :=
  take (Z.to_nat batchSize)
       (merge_sort created_le (filter (fun e => candidate locked e = true) (rows t))).

(** [rows.Scan]: eight columns are read; [PublishedAt], [Attempts] and
    [LastError] of the returned struct keep their zero values. *)
Definition scan_event (e : OutboxEvent) : OutboxEvent :=
  mkOutboxEvent (Id e) (AggregateType e) (AggregateID e) (EventType e)
    (Payload e) (Headers e) (CreatedAt e) None 0 None (Topic e).

(** [outboxRepo.GetUnpublishedEvents].  A negative LIMIT is rejected by
    PostgreSQL (SQLSTATE 2201W). *)
Definition GetUnpublishedEvents (fault : option error) (locked : Z -> bool)
    (tx : table) (batchSize : Z) : list OutboxEvent + error :=
  match fault with
  | Some e => inr (Wrap "failed to query unpublished events" e)
  | None =>
      if batchSize <? 0
      then inr (Wrap "failed to query unpublished events" (PgError "2201W"))
      else inl (map scan_event (select_unpublished locked tx batchSize))
  end.

(** *** pkg/outbox/worker *)

Record OutboxProcessor : Type := mkOutboxProcessor {
  batchSize : Z;
  interval : Z
}.

Definition NewOutboxProcessor : OutboxProcessor :=
  mkOutboxProcessor 50 (500 * Millisecond).

(** [json.Unmarshal(event.Payload, &payloadMap)] with
    [payloadMap : map[string]any]: an object decodes to its fields, each
    value an [any]; [null] leaves the map nil without error; anything else
    is an error. *)
Inductive unmarshal_map : Type :=
| UnmarshalOk (payloadMap : list (string * json))
| UnmarshalNil
| UnmarshalErr (msg : string).

Definition Unmarshal_map (payload : json) : unmarshal_map :=
  match payload with
  | JObj fields => UnmarshalOk (map (fun '(k, v) => (k, decode_any v)) fields)
  | JNull => UnmarshalNil
  | _ => UnmarshalErr "json: cannot unmarshal into Go value of type map[string]interface {}"
  end.

(** How a call ends: it returns an [error] (or nil), or it panics. *)
Inductive outcome : Type :=
| Returned (err : option error)
| Panicked (msg : string).

(** Failures injected into one run of [processBatch]. *)
Record worker_faults : Type := mkWorkerFaults {
  w_begin : option error;
  w_query : option error;
  w_mark_failed : Z -> option error;
  w_mark_published : Z -> option error;
  w_commit : option error
}.

Definition no_worker_faults : worker_faults :=
  mkWorkerFaults None None (fun _ => None) (fun _ => None) None.

(** A message handed to the broker and acknowledged: outbox row id, topic,
    and the value passed to [ProduceMessage]. *)
Record sent_message : Type := mkSent {
  sent_row : Z;
  sent_topic : string;
  sent_value : json
}.

Section Worker.

(** [KafkaProducer.ProduceMessage] over the broker's state [B]. *)
Context {B : Type}.
Variable ProduceMessage : B -> string -> json -> B * option error.

(** The [for _, event := range events] loop of [processBatch].  The last
    component is [Some] when the loop leaves the function early. *)
Fixpoint process_events (wf : worker_faults) (now : Z)
    (events : list OutboxEvent) (tx : table) (b : B) (sent : list sent_message)
  : table * B * list sent_message * option outcome :=
  match events with
  | [] => (tx, b, sent, None)
  | event :: rest =>
      match Unmarshal_map (Payload event) with
      | UnmarshalErr msg =>
          let tx' := fst (MarkEventFailed (w_mark_failed wf (Id event)) tx (Id event) msg) in
          process_events wf now rest tx' b sent
      | UnmarshalNil =>
          (tx, b, sent, Some (Panicked "assignment to entry in nil map"))
      | UnmarshalOk payloadMap =>
          let message := JObj (obj_set "event_id" (JNum (Id event)) payloadMap) in
          match ProduceMessage b (Topic event) message with
          | (b', Some err) =>
              let tx' := fst (MarkEventFailed (w_mark_failed wf (Id event)) tx
                                (Id event) (Error err)) in
              process_events wf now rest tx' b' sent
          | (b', None) =>
              let sent' := sent ++ [mkSent (Id event) (Topic event) message] in
              match MarkEventPublished (w_mark_published wf (Id event)) now tx (Id event) with
              | (_, Some dbErr) => (tx, b', sent', Some (Returned None))
              | (tx', None) => process_events wf now rest tx' b' sent'
              end
          end
      end
  end.

(** What one tick leaves behind. *)
Record batch_result : Type := mkBatchResult {
  br_table : table;
  br_broker : B;
  br_sent : list sent_message;
  br_outcome : outcome
}.

(** [OutboxProcessor.processBatch].  Every path but the commit hands back
    the table it started from (deferred rollback); messages already handed
    to the broker stay there. *)
Definition processBatch (p : OutboxProcessor) (wf : worker_faults) (now : Z)
    (locked : Z -> bool) (t : table) (b : B) : batch_result :=
  match w_begin wf with
  | Some e => mkBatchResult t b [] (Returned (Some (Wrap "error beginning transaction" e)))
  | None =>
      match GetUnpublishedEvents (w_query wf) locked t (batchSize p) with
      | inr err => mkBatchResult t b [] (Returned (Some err))
      | inl [] => mkBatchResult t b [] (Returned None)
      | inl events =>
          match process_events wf now events t b [] with
          | (_, b', sent, Some out) => mkBatchResult t b' sent out
          | (tx, b', sent, None) =>
              match w_commit wf with
              | Some e => mkBatchResult t b' sent (Returned (Some e))
              | None => mkBatchResult tx b' sent (Returned None)
              end
          end
      end
  end.

End Worker.

(** *** The life of an outbox table *)

(** The statements that touch the table: a relay tick (with any producer,
    faults, clock and foreign locks), a producer's [SaveOutboxEvent], and a
    re-queue by [MarkEventUnpublished]. *)
Inductive step : table -> table -> Prop :=
| step_tick {B : Type} (ProduceMessage : B -> string -> json -> B * option error)
    (p : OutboxProcessor) (wf : worker_faults) (now : Z) (locked : Z -> bool)
    (t : table) (b : B) :
    step t (br_table (processBatch ProduceMessage p wf now locked t b))
| step_save (fault : option error) (now : Z) (ev : NewEvent) (t : table) :
    step t (fst (SaveOutboxEvent fault now ev t))
| step_unpublish (fault : option error) (t : table) (eventID : Z) :
    step t (fst (MarkEventUnpublished fault t eventID)).

(** The primary key: ids are unique and below the sequence. *)
Definition wf_table (t : table) : Prop :=
  NoDup (map Id (rows t)) /\ Forall (fun e => Id e < next_id t) (rows t).

(** Every row with id [i] has used up its attempts, and [i] will not be
    handed out again. *)
Definition dead_lettered (i : Z) (t : table) : Prop :=
  i < next_id t /\ Forall (fun e => Id e = i -> 10 <= Attempts e) (rows t).

(** An outbox with a published row, a row that used up its ten attempts,
    and two unpublished rows stored in the reverse of their creation
    order. *)
Definition example_table : table :=
  mkTable
    [mkOutboxEvent 1 "Order" "1" "OrderCreated" (JObj []) (JObj []) 10 (Some 11) 0 None "order_events";
     mkOutboxEvent 2 "Order" "2" "OrderCreated" (JObj []) (JObj []) 20 None 10 (Some "down") "order_events";
     mkOutboxEvent 3 "Order" "3" "OrderCreated" (JObj []) (JObj []) 40 None 0 None "order_events";
     mkOutboxEvent 4 "Order" "4" "OrderCreated" (JObj []) (JObj []) 30 None 3 (Some "down") "order_events"]
    5.

(** A broker that acknowledges every message. *)
Definition always_ack (b : unit) (topic : string) (message : json)
  : unit * option error := (b, None).

(** The [event_id] a consumer finds when it decodes the envelope's
    [payload]. *)
Definition payload_event_id (message : json) : option json :=
  match json_field "payload" message with
  | Some payload => json_field "event_id" payload
  | None => None
  end.

(** *** What a tick does to a row *)

(** The row [MarkEventPublished] leaves, and the row [MarkEventFailed]
    leaves. *)
Definition published_row (now : Z) (e : OutboxEvent) : OutboxEvent :=
  mkOutboxEvent (Id e) (AggregateType e) (AggregateID e) (EventType e)
    (Payload e) (Headers e) (CreatedAt e) (Some now) (Attempts e) None (Topic e).

Definition failed_row (errMsg : string) (e : OutboxEvent) : OutboxEvent :=
  mkOutboxEvent (Id e) (AggregateType e) (AggregateID e) (EventType e)
    (Payload e) (Headers e) (CreatedAt e) None (Attempts e + 1) (Some errMsg)
    (Topic e).

(** How a row [e] of the table stands after a tick that got the rows
    [acked] acknowledged by the broker: untouched; or it was unpublished
    with attempts left, was acknowledged, and is now published; or it was
    unpublished with attempts left and has one more failed attempt. *)
Inductive row_after (now : Z) (acked : list Z) (e : OutboxEvent)
  : OutboxEvent -> Prop :=
| row_untouched : row_after now acked e e
| row_published :
    PublishedAt e = None -> Attempts e < 10 -> In (Id e) acked ->
    row_after now acked e (published_row now e)
| row_failed (errMsg : string) :
    PublishedAt e = None -> Attempts e < 10 ->
    row_after now acked e (failed_row errMsg e).

(** The message [processBatch] hands to the broker for a row. *)
Definition message_of (e : OutboxEvent) : sent_message :=
  mkSent (Id e) (Topic e)
    (match Unmarshal_map (Payload e) with
     | UnmarshalOk payloadMap => JObj (obj_set "event_id" (JNum (Id e)) payloadMap)
     | _ => JNull
     end).

(** A broker that refuses every message. *)
Definition never_ack (b : unit) (topic : string) (message : json)
  : unit * option error := (b, Some (ErrIO "kafka: broker not available")).

End Outbox.

(** ** services/order: repository and service *)

Module Order.

(** [pkg/domain.PaymentFailedEvent] and [PaymentSucceededEvent]. *)
Record PaymentFailedEvent : Type := mkPaymentFailedEvent {
  pfOrderID : Z;
  pfPaymentID : Z;
  pfAmount : Z;
  pfFailedAt : Z
}.

Record PaymentSucceededEvent : Type := mkPaymentSucceededEvent {
  psOrderID : Z;
  psPaymentID : Z;
  psAmount : Z;
  psPaidAt : Z
}.

(** [pkg/domain.OrderItem], as [GetAllItemsOfOrder] scans it. *)
Record OrderItem : Type := mkOrderItem {
  ID : Z;
  OrderID : Z;
  ProductID : Z;
  Name : string;
  Price : Z;
  Quantity : Z
}.

(** Rows of [orders] and [order_items]. *)
Record OrderRow : Type := mkOrderRow {
  user_id : Z;
  status : string;
  total_sum : Z;
  created_at : Z;
  updated_at : Z
}.

Record ItemRow : Type := mkItemRow {
  item_id : Z;
  item_order_id : Z;
  item_product_id : Z;
  item_name : string;
  item_price : Z;
  item_quantity : Z
}.

(** The order service's database. *)
Record db : Type := mkDb {
  users : gmap Z string;
  orders : gmap Z OrderRow;
  orders_seq : Z;
  order_items : list ItemRow;
  items_seq : Z;
  outbox : Outbox.table
}.

(** Driver failures the caller may inject, one per call site. *)
Record faults : Type := mkFaults {
  f_begin : option error;
  f_update : option error;
  f_items : option error;
  f_insert_order : option error;
  f_insert_item : option error;
  f_outbox : option error;
  f_commit : option error
}.

Definition no_faults : faults := mkFaults None None None None None None None.

Definition ErrOrderNotFound : error := ErrNew "order not found".
Definition ErrOrderAlreadyPaid : error := ErrNew "order already paid".

Definition OrderStatusNew : string := "new".
Definition OrderStatusPaid : string := "paid".
Definition OrderStatusCancelled : string := "cancelled".
Definition OrderStatusShipped : string := "shipped".

Definition set_status (st : string) (r : OrderRow) : OrderRow :=
  mkOrderRow (user_id r) st (total_sum r) (created_at r) (updated_at r).

Definition with_orders (d : db) (o : gmap Z OrderRow) : db :=
  mkDb (users d) o (orders_seq d) (order_items d) (items_seq d) (outbox d).

Definition with_outbox (d : db) (t : Outbox.table) : db :=
  mkDb (users d) (orders d) (orders_seq d) (order_items d) (items_seq d) t.

(** [orderRepo.ChangeOrderStatus]:
    [UPDATE orders SET status = $1 WHERE id = $2]; zero rows affected is
    [ErrOrderNotFound].  The WHERE clause names the id only. *)
Definition orderRepo_ChangeOrderStatus (fault : option error) (tx : db)
    (orderID : Z) (st : string) : db * option error :=
  match fault with
  | Some e => (tx, Some (Wrap "failed to update order" e))
  | None =>
      match orders tx !! orderID with
      | None => (tx, Some ErrOrderNotFound)
      | Some r => (with_orders tx (<[orderID := set_status st r]> (orders tx)), None)
      end
  end.

(** [orderRepo.GetAllItemsOfOrder]: the scan fills id, product_id, name,
    price and quantity; [OrderID] keeps its zero value. *)
Definition orderRepo_GetAllItemsOfOrder (fault : option error) (tx : db)
    (orderID : Z) : list OrderItem + error :=
  match fault with
  | Some e => inr e
  | None =>
      inl (map (fun r => mkOrderItem (item_id r) 0 (item_product_id r)
                           (item_name r) (item_price r) (item_quantity r))
             (filter (fun r => item_order_id r = orderID) (order_items tx)))
  end.

(** [json.Marshal] of an [OrderItem] (no json tags: Go field names) and of
    an [OrderCancelledEvent] (a nil slice marshals to [null]). *)
Definition OrderItem_json (it : OrderItem) : json :=
  JObj [("ID", JNum (ID it)); ("OrderID", JNum (OrderID it));
        ("ProductID", JNum (ProductID it)); ("Name", JStr (Name it));
        ("Price", JNum (Price it)); ("Quantity", JNum (Quantity it))].

Definition OrderCancelledEvent_json (orderID : Z) (items : list OrderItem) : json :=
  JObj [("order_id", JNum orderID);
        ("items", match items with
                  | [] => JNull
                  | _ => JArr (map OrderItem_json items)
                  end)].

(** [orderService.emitEvent]: only [Topic] and [Payload] are set. *)
Definition emitEvent (fault : option error) (now : Z) (tx : db)
    (eventType : string) (payload : json) : db * option error :=
  let wrapper := JObj [("event", JStr eventType); ("payload", payload)] in
  let '(t, err) :=
    Outbox.SaveOutboxEvent fault now
      (Outbox.mkNewEvent "" "" "" wrapper "payment_events") (outbox tx) in
  (with_outbox tx t, err).

(** [orderService.CancelOrder], the handler of [PaymentFailed].  The
    deferred [tx.Rollback] drops the working copy on every path that does
    not commit, so those paths return the database they were given. *)
Definition orderService_CancelOrder (f : faults) (now : Z) (d : db)
    (event : PaymentFailedEvent) : db * option error :=
  match f_begin f with
  | Some e => (d, Some e)
  | None =>
      match orderRepo_ChangeOrderStatus (f_update f) d (pfOrderID event) "cancelled" with
      | (_, Some err) =>
          if errors_Is err ErrOrderNotFound
          then (d, Some (Errorf ("order " +:+ pretty (pfOrderID event) +:+ " not found")))
          else (d, Some (Wrap "failed to cancel order" err))
      | (tx1, None) =>
          match orderRepo_GetAllItemsOfOrder (f_items f) tx1 (pfOrderID event) with
          | inr err => (d, Some (Wrap "failed to query items of order" err))
          | inl orderItems =>
              match emitEvent (f_outbox f) now tx1 "OrderCancelled"
                      (OrderCancelledEvent_json (pfOrderID event) orderItems) with
              | (_, Some err) => (d, Some (Wrap "failed to emit event" err))
              | (tx2, None) =>
                  match f_commit f with
                  | Some e => (d, Some e)
                  | None => (tx2, None)
                  end
              end
          end
      end
  end.

(** [orderService.ChangeOrderStatus], the handler of [PaymentSucceeded]. *)
Definition orderService_ChangeOrderStatus (f : faults) (d : db)
    (event : PaymentSucceededEvent) : db * option error :=
  match f_begin f with
  | Some e => (d, Some (Errorf "failed to begin transaction"))
  | None =>
      match orderRepo_ChangeOrderStatus (f_update f) d (psOrderID event) "paid" with
      | (_, Some err) =>
          if errors_Is err ErrOrderNotFound
          then (d, Some (Errorf ("order " +:+ pretty (psOrderID event) +:+ " not found")))
          else (d, Some (Wrap "failed to update order status" err))
      | (tx1, None) =>
          match f_commit f with
          | Some e => (d, Some (Wrap "failed to commit transaction" e))
          | None => (tx1, None)
          end
      end
  end.

(** [pb.OrderItem] and [pb.CreateOrderRequest]. *)
Record PbOrderItem : Type := mkPbOrderItem {
  pbProductId : Z;
  pbName : string;
  pbPrice : Z;
  pbQuantity : Z
}.

Record CreateOrderRequest : Type := mkCreateOrderRequest {
  UserId : Z;
  Items : list PbOrderItem
}.

(** [Order.CalculateTotal]: an [int64] accumulator. *)
Definition CalculateTotal (items : list PbOrderItem) : Z :=
  fold_left (fun total item => wrap64 (total + wrap64 (pbPrice item * pbQuantity item)))
            items 0.

(** The item INSERTs of [orderRepo.CreateOrder], one id per row. *)
Fixpoint insert_items (orderID : Z) (items : list PbOrderItem) (seq : Z)
  : list ItemRow * Z :=
  match items with
  | [] => ([], seq)
  | it :: rest =>
      let '(rs, seq') := insert_items orderID rest (seq + 1) in
      (mkItemRow seq orderID (pbProductId it) (pbName it) (pbPrice it) (pbQuantity it) :: rs,
       seq')
  end.

(** [orderRepo.CreateOrder]: the order row (its [user_id] must reference a
    row of [users], SQLSTATE 23503 otherwise), then the item rows. *)
Definition orderRepo_CreateOrder (f : faults) (now : Z) (tx : db) (userID : Z)
    (st : string) (total : Z) (items : list PbOrderItem) : db * (Z + error) :=
  match f_insert_order f with
  | Some e => (tx, inr e)
  | None =>
      match users tx !! userID with
      | None => (tx, inr (PgError "23503"))
      | Some _ =>
          let id := orders_seq tx in
          match f_insert_item f, items with
          | Some e, _ :: _ =>
              (tx, inr (Errorf ("failed to insert order item: " +:+ Error e)))
          | _, _ =>
              let '(rs, seq') := insert_items id items (items_seq tx) in
              (mkDb (users tx)
                    (<[id := mkOrderRow userID st total now now]> (orders tx))
                    (id + 1) (order_items tx ++ rs) seq' (outbox tx),
               inl id)
          end
      end
  end.

(** The envelope [orderService.CreateOrder] stores as the outbox payload.
    [json.Marshal] writes the keys of a map in sorted order. *)
Definition OrderCreated_envelope (orderID userID : Z) (items : list PbOrderItem) : json :=
  JObj [("event", JStr "OrderCreated");
        ("payload",
         JObj [("event_id", JNum orderID);
               ("items",
                JArr (map (fun it => JObj [("product_id", JNum (pbProductId it));
                                           ("quantity", JNum (pbQuantity it))])
                          items));
               ("order_id", JNum orderID);
               ("user_id", JNum userID)])].

(** [orderService.CreateOrder]. *)
Definition orderService_CreateOrder (f : faults) (now : Z) (d : db)
    (req : CreateOrderRequest) : db * (Z + error) :=
  match f_begin f with
  | Some e => (d, inr (Errorf ("failed to start transaction: " +:+ Error e)))
  | None =>
      match orderRepo_CreateOrder f now d (UserId req) OrderStatusNew
              (CalculateTotal (Items req)) (Items req) with
      | (_, inr err) => (d, inr (Errorf ("failed to create order: " +:+ Error err)))
      | (tx1, inl orderID) =>
          match Outbox.SaveOutboxEvent (f_outbox f) now
                  (Outbox.mkNewEvent "Order" (pretty orderID) "OrderCreated"
                     (OrderCreated_envelope orderID (UserId req) (Items req))
                     "order_events")
                  (outbox tx1) with
          | (_, Some err) =>
              (d, inr (Errorf ("failed to save outbox event: " +:+ Error err)))
          | (t, None) =>
              match f_commit f with
              | Some e => (d, inr (Errorf ("failed to commit transaction: " +:+ Error e)))
              | None => (with_outbox tx1 t, inl orderID)
              end
          end
      end
  end.

(** *** Sample data

    An order in status [paid] and one in status [new], each with one item,
    and the [PaymentFailed] event naming an order. *)
Definition paid_db : db :=
  mkDb {[ 999 := "test@example.com" ]}
       {[ 1 := mkOrderRow 999 "paid" 5350 100 100 ]}
       2
       [mkItemRow 1 1 1 "Kuronami No Yaiba" 5350 1]
       2
       (Outbox.mkTable [] 1).

Definition new_db : db :=
  mkDb {[ 999 := "test@example.com" ]}
       {[ 2 := mkOrderRow 999 "new" 5350 100 100 ]}
       3
       [mkItemRow 1 2 1 "Kuronami No Yaiba" 5350 1]
       2
       (Outbox.mkTable [] 1).

Definition payment_failed (orderID : Z) : PaymentFailedEvent :=
  mkPaymentFailedEvent orderID 999 999 150.

(** A database whose sequences have moved on: the next order is 5, the next
    outbox row is 7. *)
Definition seeded_db : db :=
  mkDb {[ 999 := "test@example.com" ]} ∅ 5 [] 1 (Outbox.mkTable [] 7).

Definition create_request : CreateOrderRequest :=
  mkCreateOrderRequest 999 [mkPbOrderItem 1 "Kuronami No Yaiba" 5350 1].

End Order.

(** ** pkg/outbox/utils: inbox deduplication *)

Module Dedup.

Record faults : Type := mkFaults {
  d_begin : option error;
  d_insert : option error;
  d_commit : option error
}.

Definition no_faults : faults := mkFaults None None None.

(** [errors.As(err, &pgError) && pgError.Code == "23505"]. *)
Fixpoint is_unique_violation (e : error) : bool :=
  match e with
  | PgError code => bool_decide (code = "23505")
  | Wrap _ inner => is_unique_violation inner
  | _ => false
  end.

(** What the caller can observe of the retry loop: each call of the action
    with its result, and each [time.Sleep]. *)
Inductive trace_event : Type :=
| Invoke (err : option error)
| Sleep (d : Z).

Section ProcessWithDeduplication.

(** The side effect, over the state [W] of the world it acts on. *)
Context {W : Type}.
Variable action : W -> W * option error.

(** [for i := 0; i < 3; i++ { ... }], over the values [i] takes.  Returns
    the world, the trace, the last value of [err] and [sent]. *)
Fixpoint retry (indices : list Z) (w : W) (tr : list trace_event)
    (err : option error) : W * list trace_event * option error * bool :=
  match indices with
  | [] => (w, tr, err, false)
  | i :: rest =>
      match action w with
      | (w', None) => (w', tr ++ [Invoke None], None, true)
      | (w', Some e) =>
          retry rest w'
            (tr ++ [Invoke (Some e)] ++
             (if i <? 2 then [Sleep (500 * Millisecond)] else []))
            (Some e)
      end
  end.

Record result : Type := mkResult {
  r_processed : gmap Z Z;
  r_world : W;
  r_trace : list trace_event;
  r_err : option error
}.

(** [fmt.Errorf("failed to sent: %w", err)]. *)
Definition failed_to_sent (err : option error) : error :=
  match err with
  | Some e => Wrap "failed to sent" e
  | None => Errorf "failed to sent: %!w(<nil>)"
  end.

(** [ProcessWithDeduplication].  [processed] is the committed
    [processed_events] table (event id to processed_at); the INSERT meets a
    unique violation exactly when the id is already there, or when the
    injected fault says so. *)
Definition ProcessWithDeduplication (f : faults) (now : Z)
    (processed : gmap Z Z) (w : W) (eventID : Z) : result :=
  match d_begin f with
  | Some e => mkResult processed w [] (Some e)
  | None =>
      let insert_err :=
        match processed !! eventID with
        | Some _ => Some (PgError "23505")
        | None => d_insert f
        end in
      match insert_err with
      | Some err =>
          if is_unique_violation err
          then mkResult processed w [] None
          else mkResult processed w [] (Some err)
      | None =>
          let tx := <[eventID := now]> processed in
          let '(w', tr, err, sent) := retry [0; 1; 2] w [] None in
          if negb sent
          then mkResult processed w' tr (Some (failed_to_sent err))
          else
            match d_commit f with
            | Some e => mkResult processed w' tr (Some (Wrap "failed to sent" e))
            | None => mkResult tx w' tr None
            end
      end
  end.

End ProcessWithDeduplication.

(** How a run that got its side effect through ends: [Commit] either
    makes the dedup row permanent, or fails and the row is dropped. *)
Definition commit_outcome {W : Type} (f : faults) (now : Z)
    (processed : gmap Z Z) (eventID : Z) (r : @result W) : Prop :=
  match d_commit f with
  | None => r_err r = None /\ r_processed r = <[eventID := now]> processed
  | Some e => r_err r = Some (Wrap "failed to sent" e) /\ r_processed r = processed
  end.

(** *** Sample data: a mail server that refuses the first two attempts. *)
Definition flaky_action (attempts : nat) : nat * option error :=
  (S attempts, if (attempts <? 2)%nat then Some (ErrIO "smtp: connection refused") else None).

End Dedup.

(** ** services/payment: repository and service *)

Module Payment.

(** [domain.InventoryReservedEvent]. *)
Record InventoryReservedEvent : Type := mkInventoryReservedEvent {
  evOrderID : Z;
  evUserID : Z;
  evAmount : Z;
  evReservedAt : Z
}.

(** [domain.Payment], one row of [payments]. *)
Record PaymentRow : Type := mkPaymentRow {
  ID : Z;
  OrderID : Z;
  UserID : Z;
  Status : string;
  Amount : Z;
  TransactionID : string;
  CreatedAt : Z;
  UpdatedAt : Z
}.

Record db : Type := mkDb {
  payments : list PaymentRow;
  payments_seq : Z;
  outbox : Outbox.table
}.

Record faults : Type := mkFaults {
  p_get : option error;
  p_begin : option error;
  p_create : option error;
  p_outbox : option error;
  p_commit : option error
}.

Definition no_faults : faults := mkFaults None None None None None.

(** The migration's
    [CREATE UNIQUE INDEX idx_payments_order_id_unique ON payments(order_id)
     WHERE status = 'SUCCEEDED']:
    does the index reject the new row? *)
Definition idx_payments_order_id_unique_rejects (rows : list PaymentRow)
    (p : PaymentRow) : bool :=
  bool_decide (Status p = "SUCCEEDED") &&
  existsb (fun q => bool_decide (OrderID q = OrderID p) &&
                    bool_decide (Status q = "SUCCEEDED")) rows.

(** [paymentRepo.Create]: the INSERT, returning the new id.  The statement
    names the column [user_id]; the table is taken with the columns the
    statement names. *)
Definition paymentRepo_Create (fault : option error) (now : Z) (tx : db)
    (orderID userID amount : Z) (st transactionID : string) : db * (Z + error) :=
  match fault with
  | Some e => (tx, inr e)
  | None =>
      let p := mkPaymentRow (payments_seq tx) orderID userID st amount
                 transactionID now now in
      if idx_payments_order_id_unique_rejects (payments tx) p
      then (tx, inr (PgError "23505"))
      else (mkDb (payments tx ++ [p]) (payments_seq tx + 1) (outbox tx), inl (ID p))
  end.

(** [paymentRepo.GetOrderByID]: reads the pool, not a transaction; the scan
    fills [ID], [OrderID] and [Status]; no row is [nil, nil]. *)
Definition paymentRepo_GetOrderByID (fault : option error) (d : db)
    (orderID : Z) : option PaymentRow + error :=
  match fault with
  | Some e => inr (Wrap "error getting order by id" e)
  | None =>
      inl (option_map (fun p => mkPaymentRow (ID p) (OrderID p) 0 (Status p) 0 "" 0 0)
             (find (fun p => bool_decide (OrderID p = orderID)) (payments d)))
  end.

(** [json.Marshal] of [PaymentFailedEvent] / [PaymentSucceededEvent]; the
    service leaves [PaymentID] at zero. *)
Definition PaymentFailedEvent_json (orderID amount failedAt : Z) : json :=
  JObj [("order_id", JNum orderID); ("payment_id", JNum 0);
        ("amount", JNum amount); ("failed_at", JTime failedAt)].

Definition PaymentSucceededEvent_json (orderID amount paidAt : Z) : json :=
  JObj [("order_id", JNum orderID); ("payment_id", JNum 0);
        ("amount", JNum amount); ("paid_at", JTime paidAt)].

(** [paymentService.emitEvent]. *)
Definition emitEvent (fault : option error) (now : Z) (tx : db)
    (eventType : string) (payload : json) : db * option error :=
  let wrapper := JObj [("event", JStr eventType); ("payload", payload)] in
  let '(t, err) :=
    Outbox.SaveOutboxEvent fault now
      (Outbox.mkNewEvent "" "" "" wrapper "payment_events") (outbox tx) in
  (mkDb (payments tx) (payments_seq tx) t, err).

(** The mock decision: [event.OrderID%2 == 0].  Go's [%] truncates. *)
Definition decide_payment (orderID : Z) : string * string :=
  if Z.rem orderID 2 =? 0 then ("FAIL", "PaymentFailed") else ("PAID", "PaymentSucceeded").

(** The transaction of [paymentService.ProcessPayment], from [Begin] to
    [Commit]: what runs once the lookup has found no payment.  [uuid] is
    the value [uuid.New()] draws in this call. *)
Definition ProcessPayment_tx (f : faults) (now : Z) (uuid : string) (d : db)
    (event : InventoryReservedEvent) : db * option error :=
  match p_begin f with
  | Some e => (d, Some (Wrap "error beginning transaction" e))
  | None =>
      let '(st, eventType) := decide_payment (evOrderID event) in
      let eventPayload :=
        if Z.rem (evOrderID event) 2 =? 0
        then PaymentFailedEvent_json (evOrderID event) (evAmount event) now
        else PaymentSucceededEvent_json (evOrderID event) (evAmount event) now in
      match paymentRepo_Create (p_create f) now d (evOrderID event)
              (evUserID event) (evAmount event) st uuid with
      | (_, inr err) => (d, Some err)
      | (tx1, inl _) =>
          match emitEvent (p_outbox f) now tx1 eventType eventPayload with
          | (_, Some err) => (d, Some err)
          | (tx2, None) =>
              match p_commit f with
              | Some e => (d, Some (Wrap "failed to commit transaction" e))
              | None => (tx2, None)
              end
          end
      end
  end.

(** [paymentService.ProcessPayment]: the lookup on the pool, then the
    transaction. *)
Definition ProcessPayment (f : faults) (now : Z) (uuid : string) (d : db)
    (event : InventoryReservedEvent) : db * option error :=
  match paymentRepo_GetOrderByID (p_get f) d (evOrderID event) with
  | inr err => (d, Some err)
  | inl (Some existingPayment) => (d, None)
  | inl None => ProcessPayment_tx f now uuid d event
  end.

(** What a fault-free run writes: the payment row and the outbox row. *)
Definition payment_written (now : Z) (uuid : string) (d : db)
    (event : InventoryReservedEvent) (st eventType : string) (payload : json) : db :=
  mkDb (payments d ++
        [mkPaymentRow (payments_seq d) (evOrderID event) (evUserID event) st
           (evAmount event) uuid now now])
       (payments_seq d + 1)
       (Outbox.mkTable
          (Outbox.rows (outbox d) ++
           [Outbox.mkOutboxEvent (Outbox.next_id (outbox d)) "" "" ""
              (JObj [("event", JStr eventType); ("payload", payload)])
              (JObj []) now None 0 None "payment_events"])
          (Outbox.next_id (outbox d) + 1)).

(** *** Sample data *)
Definition empty_db : db := mkDb [] 1 (Outbox.mkTable [] 1).

Definition reserved (orderID : Z) : InventoryReservedEvent :=
  mkInventoryReservedEvent orderID 999 5350 50.

End Payment.

(** ** services/product: repository, service and cache decorator *)

Module Product.

(** One row of [products]; [deleted_at] is NULL for a live product. *)
Record ProductRow : Type := mkProductRow {
  name : string;
  description : string;
  price : Z;
  stock_quantity : Z;
  image_url : string;
  category : string;
  created_at : Z;
  updated_at : Z;
  deleted_at : option Z
}.

(** [domain.Product], as [GetByID] scans it ([DeletedAt] is not read). *)
Record Product : Type := mkProduct {
  ID : Z;
  Name : string;
  Description : string;
  Price : Z;
  StockQuantity : Z;
  ImageUrl : string;
  Category : string;
  CreatedAt : Z;
  UpdatedAt : Z
}.

Definition ErrProductNotFound : error := ErrNew "product not found".
Definition ErrInsufficientStock : error := ErrNew "insufficient stock".

Definition max_int4 : Z := 2147483647.

Definition set_stock (now : Z) (stock : Z) (r : ProductRow) : ProductRow :=
  mkProductRow (name r) (description r) (price r) stock (image_url r)
    (category r) (created_at r) now (deleted_at r).

Definition set_deleted (now : Z) (r : ProductRow) : ProductRow :=
  mkProductRow (name r) (description r) (price r) (stock_quantity r)
    (image_url r) (category r) (created_at r) (updated_at r) (Some now).

(** Failures injected into the two statements of [DecreaseStock]. *)
Record repo_faults : Type := mkRepoFaults {
  r_select : option error;
  r_update : option error
}.

Definition no_repo_faults : repo_faults := mkRepoFaults None None.

(** [productRepo.DecreaseStock].  First [SELECT price ... WHERE id = $1]
    ([pgx.ErrNoRows] when the id is unknown), then
    [UPDATE products SET stock_quantity = stock_quantity - $2
     WHERE id = $1 AND stock_quantity >= $2 AND deleted_at IS NULL];
    zero rows affected is [ErrInsufficientStock].  The column is an INT with
    [CHECK (stock_quantity >= 0)], so a new value outside [0, max_int4]
    fails the statement. *)
Definition productRepo_DecreaseStock (f : repo_faults) (now : Z)
    (tx : gmap Z ProductRow) (id quantity : Z)
  : gmap Z ProductRow * (Z + error) :=
  match r_select f with
  | Some e => (tx, inr e)
  | None =>
      match tx !! id with
      | None => (tx, inr ErrNoRows)
      | Some r =>
          match r_update f with
          | Some e =>
              (tx, inr (Wrap ("error decreasing stock for product " +:+ pretty id) e))
          | None =>
              if (quantity <=? stock_quantity r) && bool_decide (deleted_at r = None)
              then
                let stock := stock_quantity r - quantity in
                if (0 <=? stock) && (stock <=? max_int4)
                then (<[id := set_stock now stock r]> tx, inl (price r))
                else (tx, inr (Wrap ("error decreasing stock for product " +:+ pretty id)
                                 (PgError "22003")))
              else (tx, inr ErrInsufficientStock)
          end
      end
  end.

(** [productRepo.GetByID]: live products only. *)
Definition productRepo_GetByID (fault : option error)
    (products : gmap Z ProductRow) (id : Z) : Product + error :=
  match fault with
  | Some e => inr (Wrap "error getting product" e)
  | None =>
      match products !! id with
      | Some r =>
          match deleted_at r with
          | None =>
              inl (mkProduct id (name r) (description r) (price r)
                     (stock_quantity r) (image_url r) (category r)
                     (created_at r) (updated_at r))
          | Some _ => inr ErrProductNotFound
          end
      | None => inr ErrProductNotFound
      end
  end.

(** [productRepo.DeleteByID]: the soft delete, on the pool. *)
Definition productRepo_DeleteByID (fault : option error) (now : Z)
    (products : gmap Z ProductRow) (id : Z) : gmap Z ProductRow * option error :=
  match fault with
  | Some e => (products, Some (Errorf ("error deleting product by id: " +:+ Error e)))
  | None =>
      match products !! id with
      | Some r =>
          match deleted_at r with
          | None => (<[id := set_deleted now r]> products, None)
          | Some _ => (products, Some ErrProductNotFound)
          end
      | None => (products, Some ErrProductNotFound)
      end
  end.

(** The connection pool as the service sees it: the committed table, and the
    working copies of the transactions that were begun and neither
    committed nor rolled back. *)
Record pool : Type := mkPool {
  committed : gmap Z ProductRow;
  in_flight : list (gmap Z ProductRow)
}.

Record faults : Type := mkFaults {
  s_begin : option error;
  s_repo : repo_faults;
  s_read : option error;
  s_delete : option error
}.

Definition no_faults : faults := mkFaults None no_repo_faults None None.

(** [productService.DecreaseStock]: [Begin], the repository call, and the
    two returns.  No [Commit], no [Rollback], no deferred cleanup: the
    transaction stays open on every path after [Begin]. *)
Definition productService_DecreaseStock (f : faults) (now : Z) (p : pool)
    (id quantity : Z) : pool * (string * option error) :=
  match s_begin f with
  | Some e => (p, ("", Some e))
  | None =>
      match productRepo_DecreaseStock (s_repo f) now (committed p) id quantity with
      | (tx, inr err) => (mkPool (committed p) (in_flight p ++ [tx]), ("", Some err))
      | (tx, inl _) => (mkPool (committed p) (in_flight p ++ [tx]), ("success", None))
      end
  end.

(** Closing the connection of an abandoned transaction rolls it back. *)
Definition discard_in_flight (p : pool) : pool := mkPool (committed p) [].

(** [productService.FindByID]. *)
Definition productService_FindByID (f : faults) (p : pool) (id : Z) : Product + error :=
  match productRepo_GetByID (s_read f) (committed p) id with
  | inr err =>
      if errors_Is err ErrProductNotFound then inr err
      else inr (Wrap "error getting product by id" err)
  | inl res => inl res
  end.

(** [productService.Delete]. *)
Definition productService_Delete (f : faults) (now : Z) (p : pool) (id : Z)
  : pool * option error :=
  let '(t, err) := productRepo_DeleteByID (s_delete f) now (committed p) id in
  (mkPool t (in_flight p), err).

(** *** The Redis client *)

(** Keys to a value and the instant it expires. *)
Definition redis_Get (now : Z) (up : bool) (r : gmap string (string * Z))
    (key : string) : option string :=
  if up then
    match r !! key with
    | Some (val, expires) => if now <? expires then Some val else None
    | None => None
    end
  else None.

Definition redis_Set (now : Z) (up : bool) (r : gmap string (string * Z))
    (key val : string) (ttl : Z) : gmap string (string * Z) :=
  if up then <[key := (val, now + ttl)]> r else r.

Definition redis_Del (up : bool) (r : gmap string (string * Z)) (key : string)
  : gmap string (string * Z) :=
  if up then delete key r else r.

(** *** [cachedProductService] *)

Record cachedProductService : Type := mkCached {
  cacheTTL : Z
}.

Definition NewCachedProductService : cachedProductService := mkCached (Minute * 10).

(** [fmt.Sprintf("product:%d", id)]. *)
Definition cache_key (id : Z) : string := "product:" +:+ pretty id.

Record find_result : Type := mkFindResult {
  fr_cache : gmap string (string * Z);
  fr_product : option Product;
  fr_err : option error;
  fr_repo_reads : nat
}.

Section Cache.

(** [encoding/json] on [domain.Product].  [Unmarshal] hands back the struct
    it filled together with its error. *)
Variable Marshal : Product -> string + error.
Variable Unmarshal : string -> Product * option error.

(** [cachedProductService.FindByID].  The cached value is returned inside
    [if err := json.Unmarshal(...); err != nil], and the cache is written
    inside [if data, err := json.Marshal(product); err != nil], where
    [data] is empty. *)
Definition cached_FindByID (s : cachedProductService) (f : faults) (now : Z)
    (up : bool) (cache : gmap string (string * Z)) (p : pool) (id : Z)
  : find_result :=
  let key := cache_key id in
  let from_next :=
    match productService_FindByID f p id with
    | inr err => mkFindResult cache None (Some err) 1
    | inl product =>
        match Marshal product with
        | inr _ => mkFindResult (redis_Set now up cache key "" (cacheTTL s))
                     (Some product) None 1
        | inl data => mkFindResult cache (Some product) None 1
        end
    end in
  match redis_Get now up cache key with
  | Some val =>
      match Unmarshal val with
      | (product, Some _) => mkFindResult cache (Some product) None 0
      | (_, None) => from_next
      end
  | None => from_next
  end.

End Cache.

(** [cachedProductService.Delete]. *)
Definition cached_Delete (f : faults) (now : Z) (up : bool)
    (cache : gmap string (string * Z)) (p : pool) (id : Z)
  : gmap string (string * Z) * pool * option error :=
  let key := cache_key id in
  match productService_Delete f now p id with
  | (p', Some err) => (cache, p', Some err)
  | (p', None) => (redis_Del up cache key, p', None)
  end.

(** [cachedProductService.DecreaseStock]. *)
Definition cached_DecreaseStock (f : faults) (now : Z) (up : bool)
    (cache : gmap string (string * Z)) (p : pool) (id quantity : Z)
  : gmap string (string * Z) * pool * (string * option error) :=
  match productService_DecreaseStock f now p id quantity with
  | (p', (_, Some err)) => (cache, p', ("", Some err))
  | (p', (res, None)) => (redis_Del up cache (cache_key id), p', (res, None))
  end.

(** *** Sample data *)

(** Product 1 with price 5350 and stock 3. *)
Definition one_product : gmap Z ProductRow :=
  {[ 1 := mkProductRow "Kuronami No Yaiba" "Blade" 5350 3 "" "Skins" 10 10 None ]}.

(** A codec that keeps the name only; enough to run the decorator. *)
Definition name_Marshal (p : Product) : string + error := inl (Name p).

Definition name_Unmarshal (s : string) : Product * option error :=
  (mkProduct 0 s "" 0 0 "" "" 0 0, None).

End Product.

(** ** services/order: the replica of the users table *)

Module OrderUsers.
Import Order.

(** [domain.UserRegisteredEvent] of the order service. *)
Record UserRegisteredEvent : Type := mkUserRegisteredEvent {
  UserID : Z;
  Email : string
}.

Definition with_users (d : db) (u : gmap Z string) : db :=
  mkDb u (orders d) (orders_seq d) (order_items d) (items_seq d) (outbox d).

(** [orderRepo.SaveUserDuplication]: [INSERT INTO users (id, email)] on the
    pool, outside any transaction.  [id] is the primary key and [email] is
    UNIQUE; either conflict is SQLSTATE 23505, which the function logs and
    turns into nil.  [fault] is any other failure of the statement. *)
Definition orderRepo_SaveUserDuplication (fault : option error) (d : db)
    (event : UserRegisteredEvent) : db * option error :=
  let '(d', err) :=
    match fault with
    | Some e => (d, Some e)
    | None =>
        if bool_decide (is_Some (users d !! UserID event))
           || bool_decide (map_Exists (fun _ email => email = Email event) (users d))
        then (d, Some (PgError "23505"))
        else (with_users d (<[UserID event := Email event]> (users d)), None)
    end in
  match err with
  | Some e => if Dedup.is_unique_violation e then (d', None) else (d', Some e)
  | None => (d', None)
  end.

(** [orderService.HandleUserRegistered]. *)
Definition orderService_HandleUserRegistered (fault : option error) (d : db)
    (event : UserRegisteredEvent) : db * option error :=
  orderRepo_SaveUserDuplication fault d event.

(** A second account that arrives with the e-mail of user 999. *)
Definition clashing_user : UserRegisteredEvent :=
  mkUserRegisteredEvent 1000 "test@example.com".

(** An order whose payment failed and was cancelled. *)
Definition cancelled_db : db :=
  mkDb {[ 999 := "test@example.com" ]}
       {[ 2 := mkOrderRow 999 "cancelled" 5350 100 100 ]}
       3
       [mkItemRow 1 2 1 "Kuronami No Yaiba" 5350 1]
       2
       (Outbox.mkTable [] 1).

End OrderUsers.


(** ** services/notification: the handlers behind the inbox *)

Module Notification.
Import Dedup.

(** The events of [notification/internal/domain]. *)
Record UserRegisteredEvent : Type := mkUserRegisteredEvent {
  urUserID : Z;
  urEmail : string;
  urActivationToken : string;
  urEvent : string;
  urEventID : Z
}.

Record UserForgotPasswordEvent : Type := mkUserForgotPasswordEvent {
  ufEmail : string;
  ufForgotPasswordToken : string;
  ufEvent : string;
  ufEventID : Z
}.

Record UserResetPasswordEvent : Type := mkUserResetPasswordEvent {
  upEmail : string;
  upEvent : string;
  upEventID : Z
}.

(** The interface [email.Sender], over the state [W] of the mail system. *)
Class Sender (W : Type) : Type := {
  SendActivationEmail : W -> string -> string -> W * option error;
  SendForgotPasswordEmail : W -> string -> string -> W * option error;
  SendResetPasswordEmail : W -> string -> W * option error
}.

Section Handlers.
Context {W : Type} `{Sender W}.

(** [NotificationService.HandleUserRegistered] and
    [HandleUserForgotPassword]: both go through the one
    [processed_events] table of the service's pool, keyed by
    [event.EventID]. *)
Definition HandleUserRegistered (f : faults) (now : Z) (processed : gmap Z Z)
    (w : W) (event : UserRegisteredEvent) : result :=
  ProcessWithDeduplication
    (fun w => SendActivationEmail w (urEmail event) (urActivationToken event))
    f now processed w (urEventID event).

Definition HandleUserForgotPassword (f : faults) (now : Z) (processed : gmap Z Z)
    (w : W) (event : UserForgotPasswordEvent) : result :=
  ProcessWithDeduplication
    (fun w => SendForgotPasswordEmail w (ufEmail event) (ufForgotPasswordToken event))
    f now processed w (ufEventID event).

(** [NotificationService.HandleUserResetPassword]: one call of the sender,
    no transaction. *)
Definition HandleUserResetPassword (w : W) (event : UserResetPasswordEvent)
  : W * option error :=
  SendResetPasswordEmail w (upEmail event).

End Handlers.

(** *** Sample data: a mail server that accepts everything and keeps the
    recipients. *)
#[global] Instance outbox_tray : Sender (list string) := {
  SendActivationEmail w to token := (w ++ [to], None);
  SendForgotPasswordEmail w to token := (w ++ [to], None);
  SendResetPasswordEmail w to := (w ++ [to], None)
}.

End Notification.


(** ** services/payment: deliveries handled one after another *)

Module PaymentRuns.
Import Payment.

#[global] Instance PaymentRow_eq_dec : EqDecision PaymentRow.
Proof. solve_decision. Defined.

(** One delivery of [InventoryReserved]: the event, the clock and UUID of
    the call, and the failures it meets. *)
Record delivery : Type := mkDelivery {
  dl_faults : faults;
  dl_now : Z;
  dl_uuid : string;
  dl_event : InventoryReservedEvent
}.

(** The consumer calls [ProcessPayment] for each message in turn, whatever
    the previous call returned. *)
Definition handle_all (deliveries : list delivery) (d : db) : db :=
  foldl (fun d c => (ProcessPayment (dl_faults c) (dl_now c) (dl_uuid c) d (dl_event c)).1)
        d deliveries.

End PaymentRuns.


(** ** services/product: reserving and returning stock *)

Module Inventory.
Import Product.

(** [domain.OrderItemEvent] and [domain.OrderCreatedEvent] of the product
    service; [pkg/domain.OrderCancelledEvent], whose items are
    [pkg/domain.OrderItem] (the quantity is an [int32] there). *)
Record OrderItemEvent : Type := mkOrderItemEvent {
  ieProductID : Z;
  ieQuantity : Z
}.

Record OrderCreatedEvent : Type := mkOrderCreatedEvent {
  ocOrderID : Z;
  ocUserID : Z;
  ocItems : list OrderItemEvent
}.

Record OrderCancelledEvent : Type := mkOrderCancelledEvent {
  cnOrderID : Z;
  cnItems : list Order.OrderItem
}.

(** The product service's database. *)
Record db : Type := mkDb {
  products : gmap Z ProductRow;
  outbox : Outbox.table
}.

(** Injected failures; the calls inside a loop are told apart by the
    position of the item. *)
Record faults : Type := mkFaults {
  i_begin : option error;
  i_decrease : nat -> repo_faults;
  i_increase : nat -> option error;
  i_outbox : option error;
  i_commit : option error
}.

Definition no_faults : faults :=
  mkFaults None (fun _ => no_repo_faults) (fun _ => None) None None.

(** [productRepo.IncreaseStock]:
    [UPDATE products SET stock_quantity = stock_quantity + $1,
     updated_at = NOW() WHERE id = $2]; zero rows affected is
    [ErrProductNotFound].  The WHERE clause does not look at [deleted_at].
    The column is an INT with [CHECK (stock_quantity >= 0)]. *)
Definition productRepo_IncreaseStock (fault : option error) (now : Z)
    (tx : gmap Z ProductRow) (id quantity : Z) : gmap Z ProductRow * option error :=
  match fault with
  | Some e => (tx, Some e)
  | None =>
      match tx !! id with
      | None => (tx, Some ErrProductNotFound)
      | Some r =>
          let stock := stock_quantity r + quantity in
          if max_int4 <? stock then (tx, Some (PgError "22003"))
          else if stock <? 0 then (tx, Some (PgError "23514"))
          else (<[id := set_stock now stock r]> tx, None)
      end
  end.

(** The loop of [ReturnStock]. *)
Fixpoint increase_all (fi : nat -> option error) (now : Z) (i : nat)
    (items : list Order.OrderItem) (tx : gmap Z ProductRow)
  : gmap Z ProductRow * option error :=
  match items with
  | [] => (tx, None)
  | item :: rest =>
      match productRepo_IncreaseStock (fi i) now tx
              (Order.ProductID item) (Order.Quantity item) with
      | (_, Some err) => (tx, Some err)
      | (tx', None) => increase_all fi now (S i) rest tx'
      end
  end.

(** [productService.ReturnStock], the handler of [OrderCancelled]. *)
Definition productService_ReturnStock (f : faults) (now : Z) (d : db)
    (event : OrderCancelledEvent) : db * option error :=
  match i_begin f with
  | Some e => (d, Some (Wrap "failed to begin transaction" e))
  | None =>
      match increase_all (i_increase f) now 0 (cnItems event) (products d) with
      | (_, Some err) => (d, Some err)
      | (tx, None) =>
          match i_commit f with
          | Some e => (d, Some e)
          | None => (mkDb tx (outbox d), None)
          end
      end
  end.

(** The loop of [ReserveProduct], with its [int64] total. *)
Fixpoint decrease_all (fd : nat -> repo_faults) (now : Z) (i : nat)
    (items : list OrderItemEvent) (tx : gmap Z ProductRow) (total : Z)
  : gmap Z ProductRow * (Z + error) :=
  match items with
  | [] => (tx, inl total)
  | item :: rest =>
      match productRepo_DecreaseStock (fd i) now tx (ieProductID item) (ieQuantity item) with
      | (_, inr err) => (tx, inr err)
      | (tx', inl price) =>
          decrease_all fd now (S i) rest tx'
            (wrap64 (total + wrap64 (price * ieQuantity item)))
      end
  end.

(** [json.Marshal] of the envelope around [InventoryReservedEvent]. *)
Definition InventoryReserved_envelope (orderID userID amount reservedAt : Z) : json :=
  JObj [("event", JStr "InventoryReserved");
        ("payload",
         JObj [("order_id", JNum orderID); ("user_id", JNum userID);
               ("amount", JNum amount); ("reserved_at", JTime reservedAt)])].

(** [productService.ReserveProduct], the handler of [OrderCreated]. *)
Definition productService_ReserveProduct (f : faults) (now : Z) (d : db)
    (event : OrderCreatedEvent) : db * option error :=
  match i_begin f with
  | Some e => (d, Some e)
  | None =>
      match decrease_all (i_decrease f) now 0 (ocItems event) (products d) 0 with
      | (_, inr err) => (d, Some err)
      | (tx, inl total) =>
          match Outbox.SaveOutboxEvent (i_outbox f) now
                  (Outbox.mkNewEvent "Inventory" (pretty (ocOrderID event))
                     "InventoryReserved"
                     (InventoryReserved_envelope (ocOrderID event) (ocUserID event)
                        total now)
                     "payment_events")
                  (outbox d) with
          | (_, Some err) => (d, Some (Wrap "failed to save outbox event" err))
          | (t, None) =>
              match i_commit f with
              | Some e => (d, Some (Wrap "failed to commit" e))
              | None => (mkDb tx t, None)
              end
          end
      end
  end.

(** *** Reading the tables *)

(** The units of product [id] in a list of (product, quantity) pairs, and
    the price list of a table. *)
Definition quantity_of (pairs : list (Z * Z)) (id : Z) : Z :=
  foldr (fun p s => if decide (p.1 = id) then p.2 + s else s) 0 pairs.

Definition price_of (tx : gmap Z ProductRow) (id : Z) : Z :=
  from_option price 0 (tx !! id).

Definition created_pairs (items : list OrderItemEvent) : list (Z * Z) :=
  map (fun it => (ieProductID it, ieQuantity it)) items.

Definition cancelled_pairs (items : list Order.OrderItem) : list (Z * Z) :=
  map (fun it => (Order.ProductID it, Order.Quantity it)) items.

(** [r'] is [r] with the given stock and some [updated_at]. *)
Definition restocked (stock : Z) (r r' : ProductRow) : Prop :=
  exists u, r' = mkProductRow (name r) (description r) (price r) stock
                   (image_url r) (category r) (created_at r) u (deleted_at r).

(** The items of a cancelled order, as the order service reads them back
    from the items it stored. *)
Definition cancelled_items (items : list OrderItemEvent) : list Order.OrderItem :=
  map (fun it => Order.mkOrderItem 0 0 (ieProductID it) "" 0 (ieQuantity it)) items.

(** *** Sample data *)
Definition shop : db := mkDb one_product (Outbox.mkTable [] 1).

Definition order_of_two : OrderCreatedEvent :=
  mkOrderCreatedEvent 7 999 [mkOrderItemEvent 1 1; mkOrderItemEvent 1 1].

(** A shop whose only product was deleted, and a cancelled order of two
    units of it. *)
Definition closed_shop : db :=
  mkDb {[ 1 := mkProductRow "Kuronami No Yaiba" "Blade" 5350 3 "" "Skins" 10 10 (Some 15) ]}
       (Outbox.mkTable [] 1).

Definition cancelled_two : OrderCancelledEvent :=
  mkOrderCancelledEvent 7 [Order.mkOrderItem 1 0 1 "Kuronami No Yaiba" 5350 2].

End Inventory.


(** ** From a service error to the gateway's HTTP status *)

Module Transport.










End Transport.


(** ** services/product: creating a product *)

Module Catalog.
Import Product.

(** The product service's database with the sequence of [products.id]. *)
Record db : Type := mkDb {
  products : gmap Z ProductRow;
  products_seq : Z;
  outbox : Outbox.table
}.

Record faults : Type := mkFaults {
  c_begin : option error;
  c_insert : option error;
  c_outbox : option error;
  c_commit : option error
}.

Definition no_faults : faults := mkFaults None None None None.

(** [productRepo.Create]: the INSERT of the six columns, [RETURNING id].
    [stock_quantity] is an INT (SQLSTATE 22003 outside its range), [price]
    and [stock_quantity] carry [CHECK (... >= 0)] (23514), and
    [products_name_key] makes [name] unique over all rows, deleted ones
    included (23505). *)
Definition productRepo_Create (fault : option error) (now : Z) (tx : db)
    (product : Product) : db * (Z + error) :=
  match fault with
  | Some e => (tx, inr (Wrap "error creating product" e))
  | None =>
      if (StockQuantity product <? - max_int4 - 1) || (max_int4 <? StockQuantity product)
      then (tx, inr (Wrap "error creating product" (PgError "22003")))
      else if (Price product <? 0) || (StockQuantity product <? 0)
      then (tx, inr (Wrap "error creating product" (PgError "23514")))
      else if bool_decide (map_Exists (fun _ r => name r = Name product) (products tx))
      then (tx, inr (Wrap "error creating product" (PgError "23505")))
      else
        (mkDb (<[products_seq tx :=
                   mkProductRow (Name product) (Description product) (Price product)
                     (StockQuantity product) (ImageUrl product) (Category product)
                     now now None]> (products tx))
              (products_seq tx + 1) (outbox tx),
         inl (products_seq tx))
  end.

(** [json.Marshal] of the [ProductCreated] payload (map keys in sorted
    order). *)
Definition ProductCreated_json (id : Z) : json :=
  JObj [("event", JStr "ProductCreated"); ("product_id", JNum id)].

(** [productService.Create]. *)
Definition productService_Create (f : faults) (now : Z) (d : db) (product : Product)
  : db * (Z + error) :=
  match c_begin f with
  | Some e => (d, inr e)
  | None =>
      match productRepo_Create (c_insert f) now d product with
      | (_, inr err) => (d, inr (Wrap "error creating product" err))
      | (tx1, inl id) =>
          match Outbox.SaveOutboxEvent (c_outbox f) now
                  (Outbox.mkNewEvent "Product" (pretty id) "ProductCreated"
                     (ProductCreated_json id) "product_events")
                  (outbox tx1) with
          | (_, Some err) => (d, inr (Wrap "failed to save outbox event" err))
          | (t, None) =>
              match c_commit f with
              | Some e => (d, inr (Wrap "failed to commit transaction" e))
              | None => (mkDb (products tx1) (products_seq tx1) t, inl id)
              end
          end
      end
  end.

(** *** Sample data *)
Definition catalog : db := mkDb one_product 2 (Outbox.mkTable [] 1).

Definition new_blade : Product :=
  mkProduct 0 "Reaver" "Blade" 4350 10 "" "Skins" 0 0.

End Catalog.


(** * Properties *)

(** ** The order service: cancellation *)

Module OrderFacts.
Import Order.

Lemma ChangeOrderStatus_found (tx : db) (orderID : Z) (st : string) (r : OrderRow) :
  orders tx !! orderID = Some r ->
  orderRepo_ChangeOrderStatus None tx orderID st =
    (with_orders tx (<[orderID := set_status st r]> (orders tx)), None).
Proof. intros H. unfold orderRepo_ChangeOrderStatus. by rewrite H. Qed.

(** Without faults, [CancelOrder] on a known order commits the status and
    one more outbox row, whatever the status was. *)
Lemma CancelOrder_found (now : Z) (d : db) (event : PaymentFailedEvent) (r : OrderRow) :
  orders d !! pfOrderID event = Some r ->
  orderService_CancelOrder no_faults now d event =
    (mkDb (users d)
          (<[pfOrderID event := set_status "cancelled" r]> (orders d))
          (orders_seq d) (order_items d) (items_seq d)
          (Outbox.mkTable
             (Outbox.rows (outbox d) ++
              [Outbox.mkOutboxEvent (Outbox.next_id (outbox d)) "" "" ""
                 (JObj [("event", JStr "OrderCancelled");
                        ("payload",
                         OrderCancelledEvent_json (pfOrderID event)
                           (map (fun r => mkOrderItem (item_id r) 0 (item_product_id r)
                                           (item_name r) (item_price r) (item_quantity r))
                              (filter (fun r => item_order_id r = pfOrderID event)
                                 (order_items d))))])
                 (JObj []) now None 0 None "payment_events"])
             (Outbox.next_id (outbox d) + 1)),
     None).
Proof.
  intros H. unfold orderService_CancelOrder, orderRepo_ChangeOrderStatus. simpl.
  rewrite H. reflexivity.
Qed.

(** C1, as the code has it: [orderRepo.ChangeOrderStatus] updates by id
    alone, so a [PaymentFailed] event for an order in status [paid] is
    accepted: [CancelOrder] returns nil and commits the transition from
    [paid] to [cancelled]. *)
Theorem CancelOrder_paid_order_is_cancelled (now : Z) (d : db)
    (event : PaymentFailedEvent) (r : OrderRow) :
  orders d !! pfOrderID event = Some r ->
  status r = OrderStatusPaid ->
  exists d',
    orderService_CancelOrder no_faults now d event = (d', None) /\
    orders d' !! pfOrderID event = Some (set_status OrderStatusCancelled r) /\
    status (set_status OrderStatusCancelled r) = "cancelled".
Proof.
  intros Hr _. eexists. split; [by apply CancelOrder_found|].
  split; [|reflexivity]. simpl. by rewrite lookup_insert_eq.
Qed.

Lemma CancelOrder_paid_order_is_cancelled_witness :
  exists d',
    orderService_CancelOrder no_faults 200 paid_db (payment_failed 1) = (d', None) /\
    orders d' !! 1 = Some (set_status OrderStatusCancelled (mkOrderRow 999 "paid" 5350 100 100)) /\
    status (set_status OrderStatusCancelled (mkOrderRow 999 "paid" 5350 100 100)) = "cancelled".
Proof.
  apply (CancelOrder_paid_order_is_cancelled 200 paid_db (payment_failed 1)
           (mkOrderRow 999 "paid" 5350 100 100)); reflexivity.
Defined.

Lemma set_status_same (r : OrderRow) : set_status (status r) r = r.
Proof. by destruct r. Qed.

(** C2, what fails: at a concrete order in status [new], the first
    [PaymentFailed] delivery cancels it and writes one outbox row; the
    second delivery of the same payload returns nil as well, and the outbox
    then holds two rows: the redelivery changed the state. *)
Lemma CancelOrder_redelivery_adds_outbox_row :
  snd (orderService_CancelOrder no_faults 200 new_db (payment_failed 2)) = None /\
  length (Outbox.rows (outbox
    (fst (orderService_CancelOrder no_faults 200 new_db (payment_failed 2))))) = 1%nat /\
  snd (orderService_CancelOrder no_faults 300
         (fst (orderService_CancelOrder no_faults 200 new_db (payment_failed 2)))
         (payment_failed 2)) = None /\
  length (Outbox.rows (outbox
    (fst (orderService_CancelOrder no_faults 300
            (fst (orderService_CancelOrder no_faults 200 new_db (payment_failed 2)))
            (payment_failed 2))))) = 2%nat /\
  fst (orderService_CancelOrder no_faults 300
         (fst (orderService_CancelOrder no_faults 200 new_db (payment_failed 2)))
         (payment_failed 2))
  <> fst (orderService_CancelOrder no_faults 200 new_db (payment_failed 2)).
Proof.
  rewrite (CancelOrder_found 200 new_db (payment_failed 2)
             (mkOrderRow 999 "new" 5350 100 100)) by reflexivity.
  cbn [fst snd].
  erewrite (CancelOrder_found 300 _ (payment_failed 2)) by (simpl; apply lookup_insert_eq).
  cbn [fst snd outbox Outbox.rows].
  repeat split; try reflexivity.
  intros Heq. apply (f_equal (fun d => length (Outbox.rows (outbox d)))) in Heq.
  simpl in Heq. discriminate.
Qed.

(** C2, amended: once a [PaymentFailed] delivery has cancelled the order,
    a second delivery of the same payload returns nil and leaves the orders
    (the status stays [cancelled]) and the order items as they were, and it
    appends one more outbox row whose payload is the same [OrderCancelled]
    envelope as the row the first delivery wrote. *)
Theorem CancelOrder_redelivery (now1 now2 : Z) (d d1 : db)
    (event : PaymentFailedEvent) :
  orderService_CancelOrder no_faults now1 d event = (d1, None) ->
  exists d2 row1 row2 r,
    orderService_CancelOrder no_faults now2 d1 event = (d2, None) /\
    orders d2 = orders d1 /\
    orders d2 !! pfOrderID event = Some r /\ status r = OrderStatusCancelled /\
    order_items d2 = order_items d1 /\
    users d2 = users d1 /\
    Outbox.rows (outbox d1) = Outbox.rows (outbox d) ++ [row1] /\
    Outbox.rows (outbox d2) = Outbox.rows (outbox d1) ++ [row2] /\
    Outbox.Payload row2 = Outbox.Payload row1 /\
    json_field "event" (Outbox.Payload row2) = Some (JStr "OrderCancelled") /\
    json_field "payload" (Outbox.Payload row2) =
      Some (OrderCancelledEvent_json (pfOrderID event)
              (map (fun r => mkOrderItem (item_id r) 0 (item_product_id r)
                              (item_name r) (item_price r) (item_quantity r))
                 (filter (fun r => item_order_id r = pfOrderID event)
                    (order_items d1)))).
Proof.
  intros H1.
  destruct (orders d !! pfOrderID event) as [r0|] eqn:Hr0.
  - rewrite (CancelOrder_found now1 d event r0 Hr0) in H1.
    injection H1 as <-.
    set (r := set_status "cancelled" r0).
    assert (Hr : <[pfOrderID event := r]> (orders d) !! pfOrderID event = Some r)
      by apply lookup_insert_eq.
    eexists _, _, _, r.
    split; [apply CancelOrder_found; exact Hr|].
    cbn [orders order_items users outbox Outbox.rows Outbox.Payload].
    repeat split; try reflexivity.
    + rewrite insert_insert_eq. f_equal.
    + rewrite insert_insert_eq. apply lookup_insert_eq.
  - exfalso. revert H1.
    unfold orderService_CancelOrder, orderRepo_ChangeOrderStatus. simpl.
    rewrite Hr0. simpl. discriminate.
Qed.

Lemma CancelOrder_redelivery_witness :
  exists d2 row1 row2 r,
    orderService_CancelOrder no_faults 300
      (fst (orderService_CancelOrder no_faults 200 new_db (payment_failed 2)))
      (payment_failed 2) = (d2, None) /\
    orders d2 = orders (fst (orderService_CancelOrder no_faults 200 new_db (payment_failed 2))) /\
    orders d2 !! 2 = Some r /\ status r = OrderStatusCancelled /\
    order_items d2 = order_items (fst (orderService_CancelOrder no_faults 200 new_db (payment_failed 2))) /\
    users d2 = users (fst (orderService_CancelOrder no_faults 200 new_db (payment_failed 2))) /\
    Outbox.rows (outbox (fst (orderService_CancelOrder no_faults 200 new_db (payment_failed 2))))
      = Outbox.rows (outbox new_db) ++ [row1] /\
    Outbox.rows (outbox d2) =
      Outbox.rows (outbox (fst (orderService_CancelOrder no_faults 200 new_db (payment_failed 2))))
      ++ [row2] /\
    Outbox.Payload row2 = Outbox.Payload row1 /\
    json_field "event" (Outbox.Payload row2) = Some (JStr "OrderCancelled") /\
    json_field "payload" (Outbox.Payload row2) =
      Some (OrderCancelledEvent_json 2
              (map (fun r => mkOrderItem (item_id r) 0 (item_product_id r)
                              (item_name r) (item_price r) (item_quantity r))
                 (filter (fun r => item_order_id r = 2)
                    (order_items (fst (orderService_CancelOrder no_faults 200 new_db (payment_failed 2))))))).
Proof.
  apply (CancelOrder_redelivery 200 300 new_db
           (fst (orderService_CancelOrder no_faults 200 new_db (payment_failed 2)))
           (payment_failed 2)).
  vm_compute. reflexivity.
Defined.

End OrderFacts.

(** ** The outbox: selection of unpublished events *)

Module OutboxFacts.
Import Outbox.

#[local] Instance created_le_total : Total created_le.
Proof. intros a b. unfold created_le. lia. Qed.

#[local] Instance created_le_trans : Transitive created_le.
Proof. intros a b c. unfold created_le. lia. Qed.

Lemma candidate_spec (locked : Z -> bool) (e : OutboxEvent) :
  candidate locked e = true <->
  PublishedAt e = None /\ Attempts e < 10 /\ locked (Id e) = false.
Proof.
  unfold candidate.
  rewrite !andb_true_iff, bool_decide_eq_true, Z.ltb_lt, negb_true_iff. tauto.
Qed.

(** [ORDER BY ... LIMIT]: a sorted prefix of the candidates. *)
Lemma select_unpublished_sorted (locked : Z -> bool) (t : table) (batch : Z) :
  StronglySorted created_le (select_unpublished locked t batch).
Proof.
  unfold select_unpublished.
  set (l := merge_sort _ _).
  assert (Hs : StronglySorted created_le l) by (apply StronglySorted_merge_sort; apply _).
  rewrite <- (take_drop (Z.to_nat batch) l) in Hs.
  by apply StronglySorted_app_1_l in Hs.
Qed.

Lemma select_unpublished_elem (locked : Z -> bool) (t : table) (batch : Z) (e : OutboxEvent) :
  e ∈ select_unpublished locked t batch ->
  e ∈ rows t /\ candidate locked e = true.
Proof.
  unfold select_unpublished. intros He.
  apply (fun H => elem_of_sublist _ _ _ H (sublist_take _ _)) in He.
  rewrite merge_sort_Permutation in He.
  apply list_elem_of_filter in He. tauto.
Qed.

Lemma select_unpublished_length (locked : Z -> bool) (t : table) (batch : Z) :
  length (select_unpublished locked t batch) =
  Nat.min (Z.to_nat batch)
          (length (filter (fun e => candidate locked e = true) (rows t))).
Proof.
  unfold select_unpublished. rewrite length_take.
  by rewrite (Permutation_length (merge_sort_Permutation _ _)).
Qed.

Lemma select_unpublished_submseteq (locked : Z -> bool) (t : table) (batch : Z) :
  select_unpublished locked t batch ⊆+ rows t.
Proof.
  unfold select_unpublished.
  etrans; [apply sublist_submseteq, sublist_take|].
  etrans; [apply Permutation_submseteq, merge_sort_Permutation|].
  apply sublist_submseteq, sublist_filter.
Qed.

(** A candidate that is left out was created no earlier than every row
    that was taken. *)
Lemma select_unpublished_earliest (locked : Z -> bool) (t : table) (batch : Z)
    (e e' : OutboxEvent) :
  e ∈ select_unpublished locked t batch ->
  e' ∈ rows t -> candidate locked e' = true ->
  e' ∉ select_unpublished locked t batch ->
  CreatedAt e <= CreatedAt e'.
Proof.
  unfold select_unpublished.
  set (l := merge_sort _ _). intros He He' Hc Hn.
  assert (Hs : StronglySorted created_le l) by (apply StronglySorted_merge_sort; apply _).
  assert (Hl : e' ∈ l).
  { unfold l. rewrite merge_sort_Permutation. by apply list_elem_of_filter. }
  rewrite <- (take_drop (Z.to_nat batch) l) in Hs, Hl.
  apply elem_of_app in Hl as [Hl|Hl]; [done|].
  exact (StronglySorted_app_1_elem_of _ _ _ _ _ Hs He Hl).
Qed.

(** When the batch is large enough, every candidate is selected. *)
Lemma select_unpublished_all (locked : Z -> bool) (t : table) (batch : Z) (e : OutboxEvent) :
  Z.of_nat (length (filter (fun e => candidate locked e = true) (rows t))) <= batch ->
  e ∈ rows t -> candidate locked e = true ->
  e ∈ select_unpublished locked t batch.
Proof.
  intros Hb He Hc. unfold select_unpublished.
  rewrite take_ge.
  - rewrite merge_sort_Permutation. by apply list_elem_of_filter.
  - rewrite (Permutation_length (merge_sort_Permutation _ _)). lia.
Qed.

(** *** Rows that ran out of attempts *)

Lemma dead_lettered_intro (t : table) (e : OutboxEvent) :
  wf_table t -> e ∈ rows t -> 10 <= Attempts e -> dead_lettered (Id e) t.
Proof.
  intros [Hnd Hlt] He Ha. split.
  - rewrite Forall_forall in Hlt. by apply Hlt.
  - apply Forall_forall. intros e' He' Hid.
    assert (e' = e) as ->; [|done].
    clear Hlt Ha. induction (rows t) as [|x l IH]; [by apply elem_of_nil in He|].
    simpl in Hnd. apply NoDup_cons in Hnd as [Hx Hnd].
    apply elem_of_cons in He as [->|He]; apply elem_of_cons in He' as [->|He']; auto.
    + exfalso. apply Hx. rewrite <- Hid. by apply list_elem_of_In, in_map, list_elem_of_In.
    + exfalso. apply Hx. rewrite Hid. by apply list_elem_of_In, in_map, list_elem_of_In.
Qed.

Lemma update_row_dead_lettered (i id : Z) (f : OutboxEvent -> OutboxEvent) (t : table) :
  (forall e, Id (f e) = Id e /\ Attempts e <= Attempts (f e)) ->
  dead_lettered i t -> dead_lettered i (update_row id f t).
Proof.
  intros Hf [Hlt Hall]. split; [done|]. simpl.
  apply Forall_forall. intros e' He'.
  apply list_elem_of_In, in_map_iff in He' as (e & <- & He).
  rewrite Forall_forall in Hall. specialize (Hall e (proj2 (list_elem_of_In _ _) He)).
  destruct (decide (Id e = id)); [|done].
  destruct (Hf e) as [-> ?]. intros Hi. specialize (Hall Hi). lia.
Qed.

Lemma MarkEventFailed_dead_lettered (i : Z) fault (tx : table) (id : Z) (msg : string) :
  dead_lettered i tx -> dead_lettered i (fst (MarkEventFailed fault tx id msg)).
Proof.
  intros H. unfold MarkEventFailed. destruct fault; [done|].
  destruct (existsb _ _); [done|]. simpl.
  apply update_row_dead_lettered; [|done]. intros e. simpl. lia.
Qed.

Lemma MarkEventPublished_dead_lettered (i : Z) fault (now : Z) (tx : table) (id : Z) :
  dead_lettered i tx -> dead_lettered i (fst (MarkEventPublished fault now tx id)).
Proof.
  intros H. unfold MarkEventPublished. destruct fault; [done|]. simpl.
  apply update_row_dead_lettered; [|done]. intros e. simpl. lia.
Qed.

Lemma MarkEventUnpublished_dead_lettered (i : Z) fault (tx : table) (id : Z) :
  dead_lettered i tx -> dead_lettered i (fst (MarkEventUnpublished fault tx id)).
Proof.
  intros H. unfold MarkEventUnpublished. destruct fault; [done|]. simpl.
  apply update_row_dead_lettered; [|done]. intros e. simpl. lia.
Qed.

Lemma SaveOutboxEvent_dead_lettered (i : Z) fault (now : Z) (ev : NewEvent) (t : table) :
  dead_lettered i t -> dead_lettered i (fst (SaveOutboxEvent fault now ev t)).
Proof.
  intros [Hlt Hall]. unfold SaveOutboxEvent. destruct fault; [done|]. simpl.
  split; simpl; [lia|].
  apply Forall_app. split; [done|].
  apply Forall_singleton. simpl. lia.
Qed.

Lemma process_events_dead_lettered {B : Type}
    (ProduceMessage : B -> string -> json -> B * option error)
    (i : Z) (wf : worker_faults) (now : Z) (events : list OutboxEvent) :
  forall (tx : table) (b : B) (sent : list sent_message),
    dead_lettered i tx ->
    dead_lettered i (fst (fst (fst (process_events ProduceMessage wf now events tx b sent)))).
Proof.
  induction events as [|event rest IH]; intros tx b sent H; [done|].
  simpl. destruct (Unmarshal_map (Payload event)) as [payloadMap| |msg].
  - destruct (ProduceMessage b (Topic event) _) as [b' [err|]].
    + by apply IH, MarkEventFailed_dead_lettered.
    + pose proof (MarkEventPublished_dead_lettered i
                    (w_mark_published wf (Id event)) now tx (Id event) H) as Hp.
      destruct (MarkEventPublished _ now tx (Id event)) as [tx' [dbErr|]]; [done|].
      by apply IH.
  - done.
  - by apply IH, MarkEventFailed_dead_lettered.
Qed.

Lemma processBatch_dead_lettered {B : Type}
    (ProduceMessage : B -> string -> json -> B * option error)
    (i : Z) (p : OutboxProcessor) (wf : worker_faults) (now : Z)
    (locked : Z -> bool) (t : table) (b : B) :
  dead_lettered i t ->
  dead_lettered i (br_table (processBatch ProduceMessage p wf now locked t b)).
Proof.
  intros H. unfold processBatch.
  destruct (w_begin wf); [done|].
  destruct (GetUnpublishedEvents _ _ _ _) as [[|ev evs]|err]; [done| |done].
  pose proof (process_events_dead_lettered ProduceMessage i wf now (ev :: evs) t b [] H) as Hp.
  destruct (process_events _ _ _ _ _ _ _) as [[[tx b'] sent] [out|]]; [done|].
  by destruct (w_commit wf).
Qed.

Lemma step_dead_lettered (i : Z) (t t' : table) :
  step t t' -> dead_lettered i t -> dead_lettered i t'.
Proof.
  destruct 1; eauto using processBatch_dead_lettered,
    SaveOutboxEvent_dead_lettered, MarkEventUnpublished_dead_lettered.
Qed.

Lemma rtc_step_dead_lettered (i : Z) (t t' : table) :
  rtc step t t' -> dead_lettered i t -> dead_lettered i t'.
Proof. induction 1; eauto using step_dead_lettered. Qed.

Lemma dead_lettered_not_selected (i : Z) (locked : Z -> bool) (t : table)
    (batch : Z) (e : OutboxEvent) :
  dead_lettered i t -> e ∈ select_unpublished locked t batch -> Id e <> i.
Proof.
  intros [_ Hall] He Hid.
  apply select_unpublished_elem in He as [He Hc].
  apply candidate_spec in Hc as (_ & Hlt & _).
  rewrite Forall_forall in Hall. specialize (Hall e He Hid). lia.
Qed.

(** C3: without a query failure and for a batch size that is not negative,
    [GetUnpublishedEvents] returns the scan of rows [sel] of the table such
    that: every selected row has a null published timestamp, fewer than 10
    attempts and no row lock of another transaction on it (SKIP LOCKED);
    [sel] takes each row of the table at most as often as the table has it;
    it is ordered by created timestamp ascending; it has the batch size or,
    if fewer rows qualify, all of them; a qualifying row that is left out
    was created no earlier than any selected row.  The relay is built with
    batch 50 and interval 500 ms.  A row of a well-formed table whose
    attempts have reached 10 is in no later selection, whatever relay
    ticks, saves and re-queues happen in between. *)
Theorem GetUnpublishedEvents_selects_unpublished
    (locked : Z -> bool) (t : table) (batch : Z) :
  0 <= batch ->
  exists sel : list OutboxEvent,
    GetUnpublishedEvents None locked t batch = inl (map scan_event sel) /\
    (forall e, e ∈ sel ->
       e ∈ rows t /\ PublishedAt e = None /\ Attempts e < 10 /\ locked (Id e) = false) /\
    sel ⊆+ rows t /\
    StronglySorted created_le sel /\
    length sel =
      Nat.min (Z.to_nat batch)
              (length (filter (fun e => candidate locked e = true) (rows t))) /\
    (forall e e', e ∈ sel -> e' ∈ rows t ->
       PublishedAt e' = None -> Attempts e' < 10 -> locked (Id e') = false ->
       e' ∉ sel -> CreatedAt e <= CreatedAt e') /\
    (Z.of_nat (length (filter (fun e => candidate locked e = true) (rows t))) <= batch ->
     forall e, e ∈ rows t ->
       PublishedAt e = None -> Attempts e < 10 -> locked (Id e) = false -> e ∈ sel) /\
    batchSize NewOutboxProcessor = 50 /\
    interval NewOutboxProcessor = 500 * Millisecond /\
    (forall (e0 : OutboxEvent) (t' : table),
       wf_table t -> e0 ∈ rows t -> 10 <= Attempts e0 -> rtc step t t' ->
       forall fault locked' batch' evs,
         GetUnpublishedEvents fault locked' t' batch' = inl evs ->
         forall e, e ∈ evs -> Id e <> Id e0).
Proof.
  intros Hb. exists (select_unpublished locked t batch).
  split; [|split; [|split; [|split; [|split; [|split; [|split; [|split; [|split]]]]]]]].
  - unfold GetUnpublishedEvents.
    destruct (batch <? 0) eqn:E; [apply Z.ltb_lt in E; lia|done].
  - intros e He. apply select_unpublished_elem in He as [He Hc].
    apply candidate_spec in Hc. tauto.
  - apply select_unpublished_submseteq.
  - apply select_unpublished_sorted.
  - apply select_unpublished_length.
  - intros e e' He He' H1 H2 H3 Hn.
    eapply select_unpublished_earliest; eauto. apply candidate_spec; tauto.
  - intros Hle e He H1 H2 H3.
    apply select_unpublished_all; auto. apply candidate_spec; tauto.
  - reflexivity.
  - reflexivity.
  - intros e0 t' Hwf He0 Ha Hrtc fault locked' batch' evs Hget e He.
    pose proof (rtc_step_dead_lettered _ _ _ Hrtc
                  (dead_lettered_intro _ _ Hwf He0 Ha)) as Hdead.
    unfold GetUnpublishedEvents in Hget.
    destruct fault; [done|]. destruct (batch' <? 0); [done|].
    injection Hget as <-.
    apply list_elem_of_In, in_map_iff in He as (e1 & <- & He1).
    apply list_elem_of_In in He1. simpl.
    eapply dead_lettered_not_selected; eauto.
Qed.

Lemma GetUnpublishedEvents_selects_unpublished_witness :
  0 <= 50 /\
  exists sel : list OutboxEvent,
    GetUnpublishedEvents None (fun _ => false) example_table 50 = inl (map scan_event sel) /\
    length sel = 2%nat /\
    StronglySorted created_le sel.
Proof.
  split; [lia|].
  destruct (GetUnpublishedEvents_selects_unpublished (fun _ => false) example_table 50
              ltac:(lia)) as (sel & Hget & _ & _ & Hsorted & Hlen & _).
  exists sel. split; [exact Hget|]. split; [|exact Hsorted].
  rewrite Hlen. reflexivity.
Defined.

(** The selection on [example_table]: rows 4 and 3, in that order. *)
Example GetUnpublishedEvents_example :
  GetUnpublishedEvents None (fun _ => false) example_table 50 =
  inl [mkOutboxEvent 4 "Order" "4" "OrderCreated" (JObj []) (JObj []) 30 None 0 None "order_events";
       mkOutboxEvent 3 "Order" "3" "OrderCreated" (JObj []) (JObj []) 40 None 0 None "order_events"].
Proof. reflexivity. Qed.

(** *** What the relay publishes *)

Lemma obj_get_set_eq (k : string) (v : json) (fields : list (string * json)) :
  obj_get k (obj_set k v fields) = Some v.
Proof.
  induction fields as [|[k' v'] rest IH]; simpl.
  - by rewrite decide_True.
  - destruct (decide (k' = k)); simpl.
    + by rewrite decide_True.
    + by rewrite decide_False.
Qed.

Lemma obj_get_set_ne (k k0 : string) (v : json) (fields : list (string * json)) :
  k0 <> k -> obj_get k0 (obj_set k v fields) = obj_get k0 fields.
Proof.
  intros Hne. induction fields as [|[k' v'] rest IH]; simpl.
  - by rewrite decide_False.
  - destruct (decide (k' = k)) as [->|]; simpl.
    + by rewrite !decide_False by done.
    + destruct (decide (k' = k0)); done.
Qed.

Lemma obj_get_decoded (k : string) (fields : list (string * json)) :
  obj_get k (map (fun '(k, v) => (k, decode_any v)) fields) =
  option_map decode_any (obj_get k fields).
Proof.
  induction fields as [|[k' v'] rest IH]; simpl; [done|].
  by destruct (decide (k' = k)).
Qed.

(** The round trip through [any] leaves a document with safe numbers as it
    is. *)
Lemma decode_any_safe : forall j : json, safe_numbers j = true -> decode_any j = j.
Proof.
  fix IH 1. intros [ |b|n|s|t|xs|fields]; simpl; try done.
  - intros H. unfold float64_of_int. by rewrite H.
  - intros H. f_equal. induction xs as [|x xs IHxs]; simpl in *; [done|].
    apply andb_true_iff in H as [H1 H2]. f_equal; [by apply IH|by apply IHxs].
  - intros H. f_equal. induction fields as [|[k v] fields IHf]; simpl in *; [done|].
    apply andb_true_iff in H as [H1 H2]. f_equal; [f_equal; by apply IH|by apply IHf].
Qed.

Lemma obj_get_safe (k : string) (fields : list (string * json)) (v : json) :
  safe_numbers (JObj fields) = true -> obj_get k fields = Some v ->
  safe_numbers v = true.
Proof.
  induction fields as [|[k' v'] rest IH]; simpl; [done|].
  intros [H1 H2]%andb_true_iff. destruct (decide (k' = k)); [by intros [= <-]|by apply IH].
Qed.

(** Every message the loop adds comes from one of its events. *)
Lemma process_events_sent {B : Type}
    (ProduceMessage : B -> string -> json -> B * option error)
    (wf : worker_faults) (now : Z) (events : list OutboxEvent) :
  forall (tx : table) (b : B) (sent : list sent_message) (m : sent_message),
    m ∈ snd (fst (process_events ProduceMessage wf now events tx b sent)) ->
    m ∈ sent \/
    exists event fields,
      event ∈ events /\ Payload event = JObj fields /\
      m = mkSent (Id event) (Topic event)
            (JObj (obj_set "event_id" (JNum (Id event))
                     (map (fun '(k, v) => (k, decode_any v)) fields))).
Proof.
  induction events as [|event rest IH]; intros tx b sent m Hm; [by left|].
  simpl in Hm.
  destruct (Payload event) as [| | | | | |fields] eqn:Hp; simpl in Hm;
    try (apply IH in Hm as [Hm|(ev & fs & Hev & Hfs & ->)];
         [by left|right; exists ev, fs; split; [by right|done]]);
    try (by left).
  destruct (ProduceMessage b (Topic event) _) as [b' [err|]].
  - apply IH in Hm as [Hm|(ev & fs & Hev & Hfs & ->)];
      [by left|right; exists ev, fs; split; [by right|done]].
  - set (new := mkSent (Id event) (Topic event)
                  (JObj (obj_set "event_id" (JNum (Id event))
                           (map (fun '(k, v) => (k, decode_any v)) fields)))) in *.
    assert (m ∈ sent ++ [new] ->
            m ∈ sent \/
            exists event0 fields0,
              event0 ∈ event :: rest /\ Payload event0 = JObj fields0 /\
              m = mkSent (Id event0) (Topic event0)
                    (JObj (obj_set "event_id" (JNum (Id event0))
                             (map (fun '(k, v) => (k, decode_any v)) fields0)))) as Hnew.
    { intros [H|H]%elem_of_app; [by left|].
      apply list_elem_of_singleton in H as ->.
      right. exists event, fields. split; [by left|done]. }
    destruct (MarkEventPublished _ now tx (Id event)) as [tx' [dbErr|]].
    + by apply Hnew.
    + apply IH in Hm as [Hm|(ev & fs & Hev & Hfs & ->)].
      * by apply Hnew.
      * right. exists ev, fs. split; [by right|done].
Qed.

(** C8, what fails: an order created when the order sequence stands at 5
    and the outbox sequence at 7 is published as one message; its envelope
    carries [event_id] 7 at the top level, and the [payload] object carries
    [event_id] 5, the order id the producer wrote, not the outbox row id. *)
Lemma relay_leaves_payload_event_id :
  br_sent (processBatch always_ack NewOutboxProcessor no_worker_faults 200
             (fun _ => false)
             (Order.outbox (fst (Order.orderService_CreateOrder Order.no_faults 100
                                   Order.seeded_db Order.create_request)))
             tt)
  = [mkSent 7 "order_events"
       (JObj [("event", JStr "OrderCreated");
              ("payload",
               JObj [("event_id", JNum 5);
                     ("items", JArr [JObj [("product_id", JNum 1); ("quantity", JNum 1)]]);
                     ("order_id", JNum 5);
                     ("user_id", JNum 999)]);
              ("event_id", JNum 7)])] /\
  payload_event_id
    (JObj [("event", JStr "OrderCreated");
           ("payload",
            JObj [("event_id", JNum 5);
                  ("items", JArr [JObj [("product_id", JNum 1); ("quantity", JNum 1)]]);
                  ("order_id", JNum 5);
                  ("user_id", JNum 999)]);
           ("event_id", JNum 7)])
  = Some (JNum 5) /\
  Some (JNum 5) <> Some (JNum 7).
Proof. split; [reflexivity|]. split; [reflexivity|discriminate]. Qed.

(** C8, amended: every message a relay tick gets acknowledged comes from a
    selected row of the outbox whose stored payload is a JSON object; the
    message is that object, decoded, with [event_id] set at its top level
    to the row id.  Every other top-level key, [payload] among them,
    carries the producer's value after the decoding (numbers pass through
    [float64]); when the stored document has no number of magnitude 2^53
    or more, that value is the stored one. *)
Theorem processBatch_injects_event_id {B : Type}
    (ProduceMessage : B -> string -> json -> B * option error)
    (p : OutboxProcessor) (wf : worker_faults) (now : Z) (locked : Z -> bool)
    (t : table) (b : B) (m : sent_message) :
  m ∈ br_sent (processBatch ProduceMessage p wf now locked t b) ->
  exists (e : OutboxEvent) (fields : list (string * json)),
    e ∈ rows t /\ PublishedAt e = None /\ Attempts e < 10 /\
    sent_row m = Id e /\ sent_topic m = Topic e /\
    Payload e = JObj fields /\
    sent_value m =
      JObj (obj_set "event_id" (JNum (Id e))
              (map (fun '(k, v) => (k, decode_any v)) fields)) /\
    json_field "event_id" (sent_value m) = Some (JNum (sent_row m)) /\
    (forall k, k <> "event_id" ->
       json_field k (sent_value m) = option_map decode_any (json_field k (Payload e))) /\
    (safe_numbers (Payload e) = true ->
     forall k, k <> "event_id" ->
       json_field k (sent_value m) = json_field k (Payload e)).
Proof.
  unfold processBatch. intros Hm.
  destruct (w_begin wf); [by apply elem_of_nil in Hm|].
  unfold GetUnpublishedEvents in Hm.
  destruct (w_query wf); [by apply elem_of_nil in Hm|].
  destruct (batchSize p <? 0); [by apply elem_of_nil in Hm|].
  set (sel := select_unpublished locked t (batchSize p)) in *.
  assert (Hsent : m ∈ snd (fst (process_events ProduceMessage wf now
                                  (map scan_event sel) t b []))).
  { destruct (map scan_event sel) as [|ev evs] eqn:Hevs;
      [by apply elem_of_nil in Hm|].
    destruct (process_events _ _ _ _ _ _ _) as [[[tx b'] sent] [out|]];
      [done|]. by destruct (w_commit wf). }
  apply process_events_sent in Hsent as [Hnil|(ev & fields & Hev & Hfs & ->)];
    [by apply elem_of_nil in Hnil|].
  apply list_elem_of_In, in_map_iff in Hev as (e & <- & He).
  apply list_elem_of_In, select_unpublished_elem in He as [He Hc].
  apply candidate_spec in Hc as (Hpub & Hatt & _).
  simpl in Hfs. exists e, fields. simpl.
  assert (forall k, k <> "event_id" ->
            obj_get k (obj_set "event_id" (JNum (Id e))
                         (map (fun '(k, v) => (k, decode_any v)) fields)) =
            option_map decode_any (json_field k (Payload e))) as Hother.
  { intros k Hk. rewrite Hfs. simpl.
    rewrite obj_get_set_ne by done. apply obj_get_decoded. }
  repeat split; auto.
  - by rewrite obj_get_set_eq.
  - intros Hsafe k Hk. rewrite (Hother k Hk). rewrite Hfs in *. simpl.
    destruct (obj_get k fields) as [v|] eqn:Hv; [|done]. simpl. f_equal.
    apply decode_any_safe. by eapply obj_get_safe.
Qed.

Lemma processBatch_injects_event_id_witness :
  exists (e : OutboxEvent) (fields : list (string * json)),
    e ∈ rows example_table /\ PublishedAt e = None /\ Attempts e < 10 /\
    4 = Id e /\ "order_events" = Topic e /\
    Payload e = JObj fields /\
    JObj [("event_id", JNum 4)] =
      JObj (obj_set "event_id" (JNum (Id e))
              (map (fun '(k, v) => (k, decode_any v)) fields)) /\
    json_field "event_id" (JObj [("event_id", JNum 4)]) = Some (JNum 4) /\
    (forall k, k <> "event_id" ->
       json_field k (JObj [("event_id", JNum 4)]) =
       option_map decode_any (json_field k (Payload e))) /\
    (safe_numbers (Payload e) = true ->
     forall k, k <> "event_id" ->
       json_field k (JObj [("event_id", JNum 4)]) = json_field k (Payload e)).
Proof.
  apply (processBatch_injects_event_id always_ack NewOutboxProcessor
           no_worker_faults 200 (fun _ => false) example_table tt
           (mkSent 4 "order_events" (JObj [("event_id", JNum 4)]))).
  vm_compute. left.
Defined.

(** The decoding at work: 2^53 + 1 comes back as 2^53. *)
Example float64_of_int_rounds :
  float64_of_int 9007199254740993 = 9007199254740992 /\
  float64_of_int 9007199254740995 = 9007199254740996 /\
  float64_of_int (-9007199254740993) = -9007199254740992 /\
  float64_of_int 5350 = 5350.
Proof. repeat split; reflexivity. Qed.

End OutboxFacts.

(** ** Inbox deduplication *)

Module DedupFacts.
Import Dedup.

Section Facts.

Context {W : Type}.
Variable action : W -> W * option error.

(** A known event id: nothing runs, nothing changes, nil is returned. *)
Lemma ProcessWithDeduplication_duplicate (f : faults) (now : Z)
    (processed : gmap Z Z) (w : W) (eventID : Z) :
  d_begin f = None -> is_Some (processed !! eventID) ->
  ProcessWithDeduplication action f now processed w eventID =
  mkResult processed w [] None.
Proof.
  intros Hb [v Hv]. unfold ProcessWithDeduplication. by rewrite Hb, Hv.
Qed.

(** C4: once the transaction is open, [ProcessWithDeduplication] behaves as
    follows.  If the event id is already in [processed_events] (unique
    violation), it returns nil without calling the action and changes
    nothing.  Otherwise, if the INSERT goes through, the action is called
    until it first succeeds, at most three times, with a 500 ms sleep after
    the first and after the second failure and none after the third; a
    success is followed by the commit, and three failures end in the error
    wrapping the last failure, with [processed_events] as it was (the
    dedup row is rolled back).  After a run that returned nil, a
    redelivery of the same event id does not call the action again. *)
Theorem ProcessWithDeduplication_runs_action_once (f : faults) (now : Z)
    (processed : gmap Z Z) (w : W) (eventID : Z) :
  d_begin f = None ->
  (is_Some (processed !! eventID) ->
   ProcessWithDeduplication action f now processed w eventID =
   mkResult processed w [] None) /\
  (processed !! eventID = None -> d_insert f = None ->
   let r := ProcessWithDeduplication action f now processed w eventID in
   let a1 := action w in
   let a2 := action (fst a1) in
   let a3 := action (fst a2) in
   (snd a1 = None ->
    r_trace r = [Invoke None] /\ r_world r = fst a1 /\
    commit_outcome f now processed eventID r) /\
   (forall e1, snd a1 = Some e1 -> snd a2 = None ->
    r_trace r = [Invoke (Some e1); Sleep (500 * Millisecond); Invoke None] /\
    r_world r = fst a2 /\
    commit_outcome f now processed eventID r) /\
   (forall e1 e2, snd a1 = Some e1 -> snd a2 = Some e2 -> snd a3 = None ->
    r_trace r = [Invoke (Some e1); Sleep (500 * Millisecond);
                 Invoke (Some e2); Sleep (500 * Millisecond); Invoke None] /\
    r_world r = fst a3 /\
    commit_outcome f now processed eventID r) /\
   (forall e1 e2 e3, snd a1 = Some e1 -> snd a2 = Some e2 -> snd a3 = Some e3 ->
    r_trace r = [Invoke (Some e1); Sleep (500 * Millisecond);
                 Invoke (Some e2); Sleep (500 * Millisecond); Invoke (Some e3)] /\
    r_world r = fst a3 /\
    r_err r = Some (Wrap "failed to sent" e3) /\
    r_processed r = processed /\
    r_processed r !! eventID = None)) /\
  (d_insert f = None ->
   r_err (ProcessWithDeduplication action f now processed w eventID) = None ->
   forall f' now',
     d_begin f' = None ->
     r_trace (ProcessWithDeduplication action f' now'
                (r_processed (ProcessWithDeduplication action f now processed w eventID))
                (r_world (ProcessWithDeduplication action f now processed w eventID))
                eventID) = [] /\
     r_err (ProcessWithDeduplication action f' now'
              (r_processed (ProcessWithDeduplication action f now processed w eventID))
              (r_world (ProcessWithDeduplication action f now processed w eventID))
              eventID) = None).
Proof.
  intros Hb. split; [by apply ProcessWithDeduplication_duplicate|]. split.
  - intros Hnone Hins. unfold ProcessWithDeduplication, commit_outcome.
    rewrite Hb, Hnone, Hins. simpl.
    destruct (action w) as [w1 r1] eqn:E1. simpl.
    destruct (action w1) as [w2 r2] eqn:E2. simpl.
    destruct (action w2) as [w3 r3] eqn:E3. simpl.
    repeat split; intros; simplify_eq/=; try done;
      by destruct (d_commit f).
  - intros Hins Hnil f' now' Hb'.
    assert (is_Some (r_processed (ProcessWithDeduplication action f now processed w eventID)
                       !! eventID)) as Hknown.
    { revert Hnil. unfold ProcessWithDeduplication. rewrite Hb, Hins.
      destruct (processed !! eventID) as [v|] eqn:Hp; simpl; [by rewrite Hp|].
      destruct (action w) as [w1 [e1|]]; simpl;
        [destruct (action w1) as [w2 [e2|]]; simpl;
          [destruct (action w2) as [w3 [e3|]]; simpl|]|];
        try done;
        (destruct (d_commit f); simpl; [done|];
         intros _; rewrite lookup_insert_eq; by eexists). }
    by rewrite (ProcessWithDeduplication_duplicate f' now' _ _ _ Hb' Hknown).
Qed.

End Facts.

Lemma ProcessWithDeduplication_runs_action_once_witness :
  d_begin no_faults = None /\
  (∅ : gmap Z Z) !! 42 = None /\
  d_insert no_faults = None /\
  r_trace (ProcessWithDeduplication flaky_action no_faults 100 ∅ 0%nat 42) =
    [Invoke (Some (ErrIO "smtp: connection refused")); Sleep (500 * Millisecond);
     Invoke (Some (ErrIO "smtp: connection refused")); Sleep (500 * Millisecond);
     Invoke None] /\
  r_world (ProcessWithDeduplication flaky_action no_faults 100 ∅ 0%nat 42) = 3%nat /\
  commit_outcome no_faults 100 ∅ 42
    (ProcessWithDeduplication flaky_action no_faults 100 ∅ 0%nat 42).
Proof.
  split; [reflexivity|]. split; [reflexivity|]. split; [reflexivity|].
  destruct (ProcessWithDeduplication_runs_action_once flaky_action no_faults 100
              ∅ 0%nat 42 eq_refl) as (_ & H & _).
  destruct (H eq_refl eq_refl) as (_ & _ & H3 & _).
  exact (H3 (ErrIO "smtp: connection refused") (ErrIO "smtp: connection refused")
            eq_refl eq_refl eq_refl).
Defined.

End DedupFacts.

(** ** The payment service *)

Module PaymentFacts.
Import Payment.

Lemma rem2_even (z : Z) : (Z.rem z 2 =? 0) = Z.even z.
Proof.
  rewrite Z.rem_eq by lia. destruct (Z.even z) eqn:E.
  - apply Z.even_spec in E as [m ->]. apply Z.eqb_eq.
    rewrite Z.mul_comm, Z.quot_mul by lia. lia.
  - apply Z.eqb_neq. intros H. assert (Z.Even z) as He; [|apply Z.even_spec in He; congruence].
    exists (z ÷ 2). lia.
Qed.

Lemma GetOrderByID_none (d : db) (orderID : Z) :
  (forall p, p ∈ payments d -> OrderID p <> orderID) ->
  paymentRepo_GetOrderByID None d orderID = inl None.
Proof.
  intros H. unfold paymentRepo_GetOrderByID.
  destruct (find _ _) as [p|] eqn:E; [|done].
  apply find_some in E as [Hin Hp]. apply bool_decide_eq_true in Hp.
  exfalso. by apply (H p); [apply list_elem_of_In|].
Qed.

Lemma GetOrderByID_some (d : db) (orderID : Z) (p : PaymentRow) :
  p ∈ payments d -> OrderID p = orderID ->
  exists q, paymentRepo_GetOrderByID None d orderID = inl (Some q).
Proof.
  intros Hin Hp. unfold paymentRepo_GetOrderByID.
  destruct (find _ _) as [q|] eqn:E; [by eexists|].
  apply list_elem_of_In in Hin.
  pose proof (find_none _ _ E p Hin) as Hf. simpl in Hf.
  by rewrite bool_decide_eq_false in Hf.
Qed.

(** The index never rejects the two statuses the service writes. *)
Lemma index_accepts (rows : list PaymentRow) (p : PaymentRow) :
  Status p <> "SUCCEEDED" -> idx_payments_order_id_unique_rejects rows p = false.
Proof.
  intros H. unfold idx_payments_order_id_unique_rejects.
  by rewrite bool_decide_eq_false_2.
Qed.

Lemma ProcessPayment_tx_no_faults (now : Z) (uuid : string) (d : db)
    (event : InventoryReservedEvent) :
  ProcessPayment_tx no_faults now uuid d event =
  (if Z.even (evOrderID event)
   then payment_written now uuid d event "FAIL" "PaymentFailed"
          (PaymentFailedEvent_json (evOrderID event) (evAmount event) now)
   else payment_written now uuid d event "PAID" "PaymentSucceeded"
          (PaymentSucceededEvent_json (evOrderID event) (evAmount event) now),
   None).
Proof.
  unfold ProcessPayment_tx, decide_payment. simpl. rewrite rem2_even.
  destruct (Z.even (evOrderID event)); reflexivity.
Qed.

(** Whatever fails, the transaction writes both rows or none. *)
Lemma ProcessPayment_tx_atomic (f : faults) (now : Z) (uuid : string) (d : db)
    (event : InventoryReservedEvent) :
  (fst (ProcessPayment_tx f now uuid d event) = d /\
   snd (ProcessPayment_tx f now uuid d event) <> None) \/
  ProcessPayment_tx f now uuid d event = ProcessPayment_tx no_faults now uuid d event.
Proof.
  unfold ProcessPayment_tx, decide_payment, paymentRepo_Create, emitEvent,
    Outbox.SaveOutboxEvent. simpl.
  destruct (p_begin f); [by left|].
  destruct (Z.rem (evOrderID event) 2 =? 0);
    (destruct (p_create f); [by left|]); simpl;
    (destruct (p_outbox f); [by left|]); simpl;
    (destruct (p_commit f); [by left|]); by right.
Qed.

(** C5: when a payment row for the order id exists, [ProcessPayment] returns
    nil and leaves the database as it is.  When none exists and nothing
    fails, it commits the payment row (status FAIL for an even order id,
    PAID otherwise, transaction id the UUID drawn in this call) together
    with one outbox row on [payment_events] whose envelope is
    [PaymentFailed], respectively [PaymentSucceeded].  Whatever fails, the
    two rows are written together or not at all. *)
Theorem ProcessPayment_decides_by_parity (f : faults) (now : Z) (uuid : string)
    (d : db) (event : InventoryReservedEvent) :
  (forall p, p ∈ payments d -> OrderID p = evOrderID event -> p_get f = None ->
     ProcessPayment f now uuid d event = (d, None)) /\
  ((forall p, p ∈ payments d -> OrderID p <> evOrderID event) ->
   (Z.even (evOrderID event) = true ->
    ProcessPayment no_faults now uuid d event =
    (payment_written now uuid d event "FAIL" "PaymentFailed"
       (PaymentFailedEvent_json (evOrderID event) (evAmount event) now), None)) /\
   (Z.even (evOrderID event) = false ->
    ProcessPayment no_faults now uuid d event =
    (payment_written now uuid d event "PAID" "PaymentSucceeded"
       (PaymentSucceededEvent_json (evOrderID event) (evAmount event) now), None)) /\
   (p_get f = None ->
    (fst (ProcessPayment f now uuid d event) = d /\
     snd (ProcessPayment f now uuid d event) <> None) \/
    ProcessPayment f now uuid d event = ProcessPayment no_faults now uuid d event)).
Proof.
  split.
  - intros p Hin Hp Hget. unfold ProcessPayment. rewrite Hget.
    by destruct (GetOrderByID_some d _ p Hin Hp) as [q ->].
  - intros Hnone. unfold ProcessPayment.
    change (p_get no_faults) with (@None error).
    rewrite (GetOrderByID_none d _ Hnone), ProcessPayment_tx_no_faults.
    split; [by intros ->|]. split; [by intros ->|].
    intros ->. rewrite (GetOrderByID_none d _ Hnone).
    rewrite <- ProcessPayment_tx_no_faults. apply ProcessPayment_tx_atomic.
Qed.

Lemma ProcessPayment_decides_by_parity_witness :
  ProcessPayment no_faults 60 "8c5b2fd2-53a5-4c0c-9a3b-23f3a6b1b5a1" empty_db (reserved 2) =
    (payment_written 60 "8c5b2fd2-53a5-4c0c-9a3b-23f3a6b1b5a1" empty_db (reserved 2)
       "FAIL" "PaymentFailed" (PaymentFailedEvent_json 2 5350 60), None) /\
  ProcessPayment no_faults 60 "8c5b2fd2-53a5-4c0c-9a3b-23f3a6b1b5a1" empty_db (reserved 3) =
    (payment_written 60 "8c5b2fd2-53a5-4c0c-9a3b-23f3a6b1b5a1" empty_db (reserved 3)
       "PAID" "PaymentSucceeded" (PaymentSucceededEvent_json 3 5350 60), None) /\
  ProcessPayment no_faults 70 "0d0e6a1c-4f4b-4c55-8d0e-6f1c2b3a4d5e"
    (payment_written 60 "8c5b2fd2-53a5-4c0c-9a3b-23f3a6b1b5a1" empty_db (reserved 3)
       "PAID" "PaymentSucceeded" (PaymentSucceededEvent_json 3 5350 60))
    (reserved 3) =
    (payment_written 60 "8c5b2fd2-53a5-4c0c-9a3b-23f3a6b1b5a1" empty_db (reserved 3)
       "PAID" "PaymentSucceeded" (PaymentSucceededEvent_json 3 5350 60), None).
Proof.
  split; [|split].
  - apply (ProcessPayment_decides_by_parity no_faults 60 _ empty_db (reserved 2));
      [intros p Hp; by apply elem_of_nil in Hp|reflexivity].
  - apply (ProcessPayment_decides_by_parity no_faults 60 _ empty_db (reserved 3));
      [intros p Hp; by apply elem_of_nil in Hp|reflexivity].
  - apply (proj1 (ProcessPayment_decides_by_parity no_faults 70 _ _ (reserved 3))
             (mkPaymentRow 1 3 999 "PAID" 5350 "8c5b2fd2-53a5-4c0c-9a3b-23f3a6b1b5a1" 60 60));
      [simpl; left|reflexivity|reflexivity].
Defined.

(** C6, as the code has it: the predicate of
    [idx_payments_order_id_unique] is [status = 'SUCCEEDED'], and the
    service writes PAID for a successful payment, so the index never
    rejects such a row: [paymentRepo.Create] accepts a PAID row for any
    order whatever the table holds, and two runs of the transaction of
    [ProcessPayment] for the same odd order (both lookups made before
    either commit) leave two PAID rows for that order. *)
Theorem idx_payments_order_id_unique_misses_PAID (now1 now2 : Z)
    (uuid1 uuid2 : string) (d : db) (event : InventoryReservedEvent) :
  (forall tx orderID userID amount,
     paymentRepo_Create None now1 tx orderID userID amount "PAID" uuid1 =
     (mkDb (payments tx ++
            [mkPaymentRow (payments_seq tx) orderID userID "PAID" amount uuid1 now1 now1])
           (payments_seq tx + 1) (outbox tx),
      inl (payments_seq tx))) /\
  (Z.even (evOrderID event) = false ->
   exists d1 d2,
     ProcessPayment_tx no_faults now1 uuid1 d event = (d1, None) /\
     ProcessPayment_tx no_faults now2 uuid2 d1 event = (d2, None) /\
     payments d2 =
       payments d ++
       [mkPaymentRow (payments_seq d) (evOrderID event) (evUserID event) "PAID"
          (evAmount event) uuid1 now1 now1;
        mkPaymentRow (payments_seq d + 1) (evOrderID event) (evUserID event) "PAID"
          (evAmount event) uuid2 now2 now2]).
Proof.
  split; [reflexivity|].
  intros Hodd. eexists _, _.
  rewrite !ProcessPayment_tx_no_faults, Hodd.
  split; [reflexivity|]. split; [reflexivity|].
  simpl. by rewrite <- app_assoc.
Qed.

Lemma idx_payments_order_id_unique_misses_PAID_witness :
  exists d1 d2,
    ProcessPayment_tx no_faults 60 "8c5b2fd2-53a5-4c0c-9a3b-23f3a6b1b5a1" empty_db (reserved 3) = (d1, None) /\
    ProcessPayment_tx no_faults 61 "0d0e6a1c-4f4b-4c55-8d0e-6f1c2b3a4d5e" d1 (reserved 3) = (d2, None) /\
    payments d2 =
      payments empty_db ++
      [mkPaymentRow 1 3 999 "PAID" 5350 "8c5b2fd2-53a5-4c0c-9a3b-23f3a6b1b5a1" 60 60;
       mkPaymentRow (1 + 1) 3 999 "PAID" 5350 "0d0e6a1c-4f4b-4c55-8d0e-6f1c2b3a4d5e" 61 61].
Proof.
  apply (proj2 (idx_payments_order_id_unique_misses_PAID 60 61
                  "8c5b2fd2-53a5-4c0c-9a3b-23f3a6b1b5a1"
                  "0d0e6a1c-4f4b-4c55-8d0e-6f1c2b3a4d5e" empty_db (reserved 3))).
  reflexivity.
Defined.

End PaymentFacts.

(** ** The catalog: stock and cache *)

Module ProductFacts.
Import Product.

(** Whatever fails and whatever is asked, a table with no negative stock
    stays one. *)
Lemma DecreaseStock_stock_nonneg (f : repo_faults) (now : Z)
    (tx : gmap Z ProductRow) (id quantity : Z) :
  (forall i p, tx !! i = Some p -> 0 <= stock_quantity p) ->
  forall i p,
    fst (productRepo_DecreaseStock f now tx id quantity) !! i = Some p ->
    0 <= stock_quantity p.
Proof.
  intros Hinv i p. unfold productRepo_DecreaseStock.
  destruct (r_select f); [apply Hinv|].
  destruct (tx !! id) as [r|] eqn:Hr; [|apply Hinv].
  destruct (r_update f); [apply Hinv|].
  destruct (_ && _); [|apply Hinv].
  destruct ((0 <=? _) && _) eqn:Hrange; [|apply Hinv].
  simpl. intros Hi. apply lookup_insert_Some in Hi as [[-> <-]|[_ Hi]]; [|by eapply Hinv].
  simpl. apply andb_true_iff in Hrange as [H0 _]. by apply Z.leb_le in H0.
Qed.

(** The UPDATE goes through when its WHERE clause holds and the new value
    fits the column. *)
Lemma DecreaseStock_updates (now : Z) (tx : gmap Z ProductRow)
    (id quantity : Z) (r : ProductRow) :
  tx !! id = Some r ->
  quantity <= stock_quantity r -> deleted_at r = None ->
  stock_quantity r - quantity <= max_int4 ->
  productRepo_DecreaseStock no_repo_faults now tx id quantity =
  (<[id := set_stock now (stock_quantity r - quantity) r]> tx, inl (price r)).
Proof.
  intros Hr Hq Hd Hmax. unfold productRepo_DecreaseStock. simpl. rewrite Hr.
  rewrite (proj2 (Z.leb_le _ _) Hq), bool_decide_eq_true_2 by done. simpl.
  rewrite (proj2 (Z.leb_le 0 _)) by lia.
  by rewrite (proj2 (Z.leb_le _ max_int4) Hmax).
Qed.

(** C7: for a product that exists, [productRepo.DecreaseStock] updates the
    row exactly when the stock is at least the requested quantity and the
    product is not soft-deleted (and the new value fits the INT column):
    it then returns the price and the stock is lowered by the quantity.
    Whenever it succeeds, under any injected fault, that condition held.
    When the condition fails, no row is changed and the result is
    [ErrInsufficientStock].  In every case a table without negative stock
    is left without negative stock. *)
Theorem DecreaseStock_is_conditional (now : Z) (tx : gmap Z ProductRow)
    (id quantity : Z) (r : ProductRow) :
  tx !! id = Some r ->
  (quantity <= stock_quantity r -> deleted_at r = None ->
   stock_quantity r - quantity <= max_int4 ->
   productRepo_DecreaseStock no_repo_faults now tx id quantity =
   (<[id := set_stock now (stock_quantity r - quantity) r]> tx, inl (price r))) /\
  (forall f tx' p,
     productRepo_DecreaseStock f now tx id quantity = (tx', inl p) ->
     quantity <= stock_quantity r /\ deleted_at r = None /\ p = price r /\
     tx' = <[id := set_stock now (stock_quantity r - quantity) r]> tx /\
     0 <= stock_quantity (set_stock now (stock_quantity r - quantity) r)) /\
  (~ (quantity <= stock_quantity r /\ deleted_at r = None) ->
   productRepo_DecreaseStock no_repo_faults now tx id quantity =
   (tx, inr ErrInsufficientStock)) /\
  (forall f,
     (forall i p, tx !! i = Some p -> 0 <= stock_quantity p) ->
     forall i p,
       fst (productRepo_DecreaseStock f now tx id quantity) !! i = Some p ->
       0 <= stock_quantity p).
Proof.
  intros Hr. split; [|split; [|split]].
  - by apply DecreaseStock_updates.
  - intros f tx' p. unfold productRepo_DecreaseStock.
    destruct (r_select f); [done|]. rewrite Hr.
    destruct (r_update f); [done|].
    destruct (_ && _) eqn:Hc; [|done].
    destruct ((0 <=? _) && _) eqn:Hrange; [|done].
    intros [= <- <-].
    apply andb_true_iff in Hc as [Hq Hd].
    apply Z.leb_le in Hq. apply bool_decide_eq_true in Hd.
    simpl. repeat split; auto. lia.
  - intros Hn. unfold productRepo_DecreaseStock. simpl. rewrite Hr.
    destruct (_ && _) eqn:Hc; [|done].
    apply andb_true_iff in Hc as [Hq Hd].
    apply Z.leb_le in Hq. apply bool_decide_eq_true in Hd. tauto.
  - intros f. apply DecreaseStock_stock_nonneg.
Qed.

Lemma DecreaseStock_is_conditional_witness :
  one_product !! 1 = Some (mkProductRow "Kuronami No Yaiba" "Blade" 5350 3 "" "Skins" 10 10 None) /\
  productRepo_DecreaseStock no_repo_faults 20 one_product 1 1 =
    (<[1 := mkProductRow "Kuronami No Yaiba" "Blade" 5350 2 "" "Skins" 10 20 None]> one_product,
     inl 5350) /\
  productRepo_DecreaseStock no_repo_faults 20 one_product 1 4 =
    (one_product, inr ErrInsufficientStock).
Proof.
  split; [reflexivity|].
  split.
  - apply (DecreaseStock_is_conditional 20 one_product 1 1
             (mkProductRow "Kuronami No Yaiba" "Blade" 5350 3 "" "Skins" 10 10 None));
      [reflexivity|simpl; lia|reflexivity|unfold max_int4; simpl; lia].
  - apply (DecreaseStock_is_conditional 20 one_product 1 4
             (mkProductRow "Kuronami No Yaiba" "Blade" 5350 3 "" "Skins" 10 10 None));
      [reflexivity|simpl; lia].
Defined.

(** C10: [productService.DecreaseStock] leaves the committed table as it
    was on every path; once [Begin] has succeeded the transaction it opened
    is left in flight, neither committed nor rolled back.  When the
    repository call succeeds it returns ["success"], the lowered stock
    lives in the abandoned transaction only, and after that transaction is
    discarded the product still has its old row. *)
Theorem productService_DecreaseStock_never_commits (f : faults) (now : Z)
    (p : pool) (id quantity : Z) :
  committed (fst (productService_DecreaseStock f now p id quantity)) = committed p /\
  (s_begin f = None ->
   exists tx,
     in_flight (fst (productService_DecreaseStock f now p id quantity)) =
     in_flight p ++ [tx]) /\
  (forall r,
     committed p !! id = Some r ->
     quantity <= stock_quantity r -> deleted_at r = None ->
     stock_quantity r - quantity <= max_int4 ->
     productService_DecreaseStock no_faults now p id quantity =
     (mkPool (committed p)
        (in_flight p ++
         [<[id := set_stock now (stock_quantity r - quantity) r]> (committed p)]),
      ("success", None)) /\
     discard_in_flight (fst (productService_DecreaseStock no_faults now p id quantity)) =
     mkPool (committed p) [] /\
     committed (discard_in_flight
                  (fst (productService_DecreaseStock no_faults now p id quantity))) !! id
     = Some r).
Proof.
  split; [|split].
  - unfold productService_DecreaseStock. destruct (s_begin f); [done|].
    by destruct (productRepo_DecreaseStock _ _ _ _ _) as [tx [pr|err]].
  - intros Hb. unfold productService_DecreaseStock. rewrite Hb.
    destruct (productRepo_DecreaseStock _ _ _ _ _) as [tx [pr|err]]; by exists tx.
  - intros r Hr Hq Hd Hmax.
    pose proof (DecreaseStock_updates now (committed p) id quantity r Hr Hq Hd Hmax) as Hok.
    unfold productService_DecreaseStock. simpl.
    change (mkRepoFaults None None) with no_repo_faults. rewrite Hok.
    by repeat split.
Qed.

Lemma productService_DecreaseStock_never_commits_witness :
  productService_DecreaseStock no_faults 20 (mkPool one_product []) 1 1 =
    (mkPool one_product
       [<[1 := mkProductRow "Kuronami No Yaiba" "Blade" 5350 2 "" "Skins" 10 20 None]> one_product],
     ("success", None)) /\
  committed (discard_in_flight
               (fst (productService_DecreaseStock no_faults 20 (mkPool one_product []) 1 1))) !! 1
  = Some (mkProductRow "Kuronami No Yaiba" "Blade" 5350 3 "" "Skins" 10 10 None).
Proof.
  destruct (productService_DecreaseStock_never_commits no_faults 20
              (mkPool one_product []) 1 1) as (_ & _ & H).
  destruct (H (mkProductRow "Kuronami No Yaiba" "Blade" 5350 3 "" "Skins" 10 10 None))
    as (H1 & _ & H3);
    [reflexivity|simpl; lia|reflexivity|unfold max_int4; simpl; lia|].
  split; [exact H1|exact H3].
Defined.

(** *** The cache decorator *)

Lemma cache_key_example : cache_key 1 = "product:1".
Proof. reflexivity. Qed.

(** The two mutations do drop the key (when they succeed and Redis
    answers), and the decorator is built with a 10-minute TTL. *)
Lemma cached_mutations_invalidate (f : faults) (now : Z)
    (cache : gmap string (string * Z)) (p : pool) (id quantity : Z) :
  cacheTTL NewCachedProductService = 10 * Minute /\
  (forall p', productService_Delete f now p id = (p', None) ->
     cached_Delete f now true cache p id = (delete (cache_key id) cache, p', None)) /\
  (forall p' res, productService_DecreaseStock f now p id quantity = (p', (res, None)) ->
     cached_DecreaseStock f now true cache p id quantity =
     (delete (cache_key id) cache, p', (res, None))).
Proof.
  split; [reflexivity|]. split.
  - intros p' H. unfold cached_Delete. by rewrite H.
  - intros p' res H. unfold cached_DecreaseStock. by rewrite H.
Qed.

Section CacheFacts.

Variable Marshal : Product -> string + error.
Variable Unmarshal : string -> Product * option error.

(** C9, as the code has it: both tests in [cachedProductService.FindByID]
    are [err != nil].  After a miss and a successful repository read of a
    product that marshals, nothing is stored: the cache is as it was.  On a
    hit whose value decodes, the cached product is discarded, the
    repository is read, and its answer is returned.  The only write of the
    key happens when marshalling fails, and the only read served from the
    cache is a value that failed to decode. *)
Theorem cached_FindByID_never_populates (s : cachedProductService) (f : faults)
    (now : Z) (up : bool) (cache : gmap string (string * Z)) (p : pool) (id : Z) :
  (forall product data,
     redis_Get now up cache (cache_key id) = None ->
     productService_FindByID f p id = inl product ->
     Marshal product = inl data ->
     cached_FindByID Marshal Unmarshal s f now up cache p id =
     mkFindResult cache (Some product) None 1) /\
  (forall val cached,
     redis_Get now up cache (cache_key id) = Some val ->
     Unmarshal val = (cached, None) ->
     fr_repo_reads (cached_FindByID Marshal Unmarshal s f now up cache p id) = 1%nat /\
     (forall product data,
        productService_FindByID f p id = inl product ->
        Marshal product = inl data ->
        cached_FindByID Marshal Unmarshal s f now up cache p id =
        mkFindResult cache (Some product) None 1)) /\
  (forall val partial err,
     redis_Get now up cache (cache_key id) = Some val ->
     Unmarshal val = (partial, Some err) ->
     cached_FindByID Marshal Unmarshal s f now up cache p id =
     mkFindResult cache (Some partial) None 0) /\
  (forall product err,
     redis_Get now up cache (cache_key id) = None ->
     productService_FindByID f p id = inl product ->
     Marshal product = inr err ->
     cached_FindByID Marshal Unmarshal s f now up cache p id =
     mkFindResult (redis_Set now up cache (cache_key id) "" (cacheTTL s))
       (Some product) None 1).
Proof.
  unfold cached_FindByID. repeat split.
  - intros product data -> -> ->. reflexivity.
  - rewrite H, H0. by destruct (productService_FindByID f p id) as [pr|e];
      [destruct (Marshal pr)|].
  - intros product data Hp Hm. by rewrite H, H0, Hp, Hm.
  - intros val partial err -> ->. reflexivity.
  - intros product err -> -> ->. reflexivity.
Qed.

End CacheFacts.

Lemma cached_FindByID_never_populates_witness :
  redis_Get 30 true ∅ (cache_key 1) = None /\
  productService_FindByID no_faults (mkPool one_product []) 1 =
    inl (mkProduct 1 "Kuronami No Yaiba" "Blade" 5350 3 "" "Skins" 10 10) /\
  name_Marshal (mkProduct 1 "Kuronami No Yaiba" "Blade" 5350 3 "" "Skins" 10 10) =
    inl "Kuronami No Yaiba" /\
  cached_FindByID name_Marshal name_Unmarshal NewCachedProductService no_faults 30
    true ∅ (mkPool one_product []) 1 =
  mkFindResult ∅ (Some (mkProduct 1 "Kuronami No Yaiba" "Blade" 5350 3 "" "Skins" 10 10))
    None 1.
Proof.
  split; [reflexivity|]. split; [reflexivity|]. split; [reflexivity|].
  apply (proj1 (cached_FindByID_never_populates name_Marshal name_Unmarshal
                  NewCachedProductService no_faults 30 true ∅
                  (mkPool one_product []) 1)
           (mkProduct 1 "Kuronami No Yaiba" "Blade" 5350 3 "" "Skins" 10 10)
           "Kuronami No Yaiba"); reflexivity.
Defined.

(** With ["product:1"] cached and decodable, the read still goes to the
    repository. *)
Example cached_FindByID_hit_reads_repository :
  fr_repo_reads
    (cached_FindByID name_Marshal name_Unmarshal NewCachedProductService no_faults 30
       true {[ "product:1" := ("Kuronami No Yaiba", 600) ]} (mkPool one_product []) 1)
  = 1%nat.
Proof. reflexivity. Qed.

End ProductFacts.

(** ** The relay: one tick *)

Module RelayFacts.
Import Outbox.

Lemma sublist_map {A C : Type} (f : A -> C) (l1 l2 : list A) :
  l1 `sublist_of` l2 -> map f l1 `sublist_of` map f l2.
Proof. induction 1; simpl; by constructor. Qed.

Lemma StronglySorted_sublist {A : Type} (R : relation A) (l1 l2 : list A) :
  l1 `sublist_of` l2 -> StronglySorted R l2 -> StronglySorted R l1.
Proof.
  induction 1 as [|x l1 l2 Hs IH|x l1 l2 Hs IH]; intros Hsorted; [done| |].
  - apply StronglySorted_cons in Hsorted as [Hall Hsorted].
    apply StronglySorted_cons. split; [|by apply IH].
    rewrite Forall_forall in *. intros y Hy. apply Hall. by eapply elem_of_sublist.
  - apply StronglySorted_cons in Hsorted as [_ Hsorted]. by apply IH.
Qed.

Lemma message_of_object (s : OutboxEvent) (fields : list (string * json)) :
  Payload s = JObj fields ->
  mkSent (Id s) (Topic s)
    (JObj (obj_set "event_id" (JNum (Id s))
             (map (fun '(k, v) => (k, decode_any v)) fields))) = message_of s.
Proof. intros H. unfold message_of. by rewrite H. Qed.

(** The acknowledged messages of the loop are those of a subsequence of
    its events, appended in order. *)
Lemma process_events_sent_sublist {B : Type}
    (ProduceMessage : B -> string -> json -> B * option error)
    (wf : worker_faults) (now : Z) (sel : list OutboxEvent) :
  forall (tx : table) (b : B) (sent : list sent_message),
  exists pub : list OutboxEvent,
    pub `sublist_of` sel /\
    Forall (fun e => exists fields, Payload e = JObj fields) pub /\
    snd (fst (process_events ProduceMessage wf now (map scan_event sel) tx b sent)) =
    sent ++ map message_of pub.
Proof.
  induction sel as [|s sel IH]; intros tx b sent.
  - exists []. simpl. by rewrite app_nil_r.
  - simpl.
    destruct (Payload s) as [| | | | | |fields] eqn:Hp; simpl;
      try (destruct (IH (fst (MarkEventFailed (w_mark_failed wf (Id s)) tx (Id s)
                      "json: cannot unmarshal into Go value of type map[string]interface {}"))
                      b sent) as (pub & Hsub & Hobj & Heq);
           exists pub; split; [by constructor|done]).
    + exists []. split; [apply sublist_nil_l|]. split; [done|]. by rewrite app_nil_r.
    + rewrite (message_of_object s fields Hp).
      destruct (ProduceMessage b (Topic s) _) as [b' [err|]].
      * destruct (IH (fst (MarkEventFailed (w_mark_failed wf (Id s)) tx (Id s) (Error err)))
                    b' sent) as (pub & Hsub & Hobj & Heq).
        exists pub. split; [by constructor|done].
      * destruct (MarkEventPublished _ now tx (Id s)) as [tx' [dbErr|]].
        -- exists [s]. split; [apply sublist_skip, sublist_nil_l|].
           split; [|done]. apply Forall_singleton. by exists fields.
        -- destruct (IH tx' b' (sent ++ [message_of s])) as (pub & Hsub & Hobj & Heq).
           exists (s :: pub). split; [by constructor|]. split.
           ++ constructor; [by exists fields|done].
           ++ rewrite Heq. simpl. by rewrite <- app_assoc.
Qed.

Lemma select_unpublished_ids_NoDup (locked : Z -> bool) (t : table) (batch : Z) :
  NoDup (map Id (rows t)) -> NoDup (map Id (select_unpublished locked t batch)).
Proof.
  intros Hnd.
  destruct (submseteq_Permutation _ _
              (OutboxFacts.select_unpublished_submseteq locked t batch)) as [k Hk].
  apply (Permutation_map Id) in Hk. rewrite map_app in Hk.
  rewrite Hk in Hnd. by apply NoDup_app in Hnd as [? _].
Qed.

(** X1: in one tick, whatever the broker and the faults, the acknowledged
    messages are the messages of a subsequence of the selected rows, in the
    order of the selection: they go out ordered by created timestamp, at
    most the batch size of them, every one built from a row whose payload
    is a JSON object, and, ids being unique, no row twice. *)
Theorem processBatch_sends_in_creation_order {B : Type}
    (ProduceMessage : B -> string -> json -> B * option error)
    (p : OutboxProcessor) (wf : worker_faults) (now : Z) (locked : Z -> bool)
    (t : table) (b : B) :
  exists pub : list OutboxEvent,
    pub `sublist_of` select_unpublished locked t (batchSize p) /\
    br_sent (processBatch ProduceMessage p wf now locked t b) = map message_of pub /\
    Forall (fun e => exists fields, Payload e = JObj fields) pub /\
    StronglySorted created_le pub /\
    (length (br_sent (processBatch ProduceMessage p wf now locked t b))
     <= Z.to_nat (batchSize p))%nat /\
    (NoDup (map Id (rows t)) ->
     NoDup (map sent_row (br_sent (processBatch ProduceMessage p wf now locked t b)))).
Proof.
  set (sel := select_unpublished locked t (batchSize p)).
  assert (exists pub, pub `sublist_of` sel /\
            Forall (fun e => exists fields, Payload e = JObj fields) pub /\
            br_sent (processBatch ProduceMessage p wf now locked t b) = map message_of pub)
    as (pub & Hsub & Hobj & Heq).
  { unfold processBatch, GetUnpublishedEvents.
    destruct (w_begin wf); [exists []; split; [apply sublist_nil_l|done]|].
    destruct (w_query wf); [exists []; split; [apply sublist_nil_l|done]|].
    destruct (batchSize p <? 0); [exists []; split; [apply sublist_nil_l|done]|].
    fold sel.
    destruct (process_events_sent_sublist ProduceMessage wf now sel t b [])
      as (pub & Hsub & Hobj & Heq).
    destruct (map scan_event sel) as [|ev evs] eqn:Hevs.
    { exists []. split; [apply sublist_nil_l|done]. }
    exists pub. split; [done|]. split; [done|].
    destruct (process_events _ _ _ _ _ _ _) as [[[tx b'] sent] [out|]];
      simpl in *; [done|]. by destruct (w_commit wf). }
  exists pub. split; [done|]. split; [done|]. split; [done|].
  split; [|split].
  - eapply StronglySorted_sublist; [done|].
    apply OutboxFacts.select_unpublished_sorted.
  - rewrite Heq, length_map.
    etrans; [by apply sublist_length|].
    unfold sel. rewrite OutboxFacts.select_unpublished_length. lia.
  - intros Hnd. rewrite Heq, map_map. simpl.
    eapply sublist_NoDup; [|by apply (sublist_map Id)].
    by apply select_unpublished_ids_NoDup.
Qed.

Lemma processBatch_sends_in_creation_order_witness :
  NoDup (map Id (rows example_table)) /\
  NoDup (map sent_row
           (br_sent (processBatch always_ack NewOutboxProcessor no_worker_faults 200
                       (fun _ => false) example_table tt))).
Proof.
  assert (NoDup (map Id (rows example_table))) as Hnd.
  { apply (bool_decide_unpack _). vm_compute. exact I. }
  split; [exact Hnd|].
  destruct (processBatch_sends_in_creation_order always_ack NewOutboxProcessor
              no_worker_faults 200 (fun _ => false) example_table tt)
    as (pub & _ & _ & _ & _ & _ & H).
  exact (H Hnd).
Defined.

(** *** Bookkeeping of a tick *)

Lemma NoDup_ids_eq (l : list OutboxEvent) (e s : OutboxEvent) :
  NoDup (map Id l) -> In e l -> In s l -> Id e = Id s -> e = s.
Proof.
  induction l as [|x l IH]; simpl; [done|].
  intros [Hx Hnd]%NoDup_cons [->|He] [->|Hs] Hid; auto.
  - exfalso. apply Hx. rewrite Hid. by apply list_elem_of_In, in_map.
  - exfalso. apply Hx. rewrite <- Hid. by apply list_elem_of_In, in_map.
Qed.

Lemma row_after_Id (now : Z) (acked : list Z) (e e' : OutboxEvent) :
  row_after now acked e e' -> Id e' = Id e.
Proof. by destruct 1. Qed.

Lemma row_after_mono (now : Z) (acked acked' : list Z) (e e' : OutboxEvent) :
  (forall x, In x acked -> In x acked') ->
  row_after now acked e e' -> row_after now acked' e e'.
Proof. intros Hsub. destruct 1; econstructor; eauto. Qed.

Lemma Forall2_map_r {A C D : Type} (P : A -> C -> Prop) (Q : A -> D -> Prop)
    (g : C -> D) (l1 : list A) (l2 : list C) :
  Forall2 P l1 l2 -> (forall x y, P x y -> Q x (g y)) -> Forall2 Q l1 (map g l2).
Proof. induction 1; simpl; constructor; auto. Qed.

Lemma MarkEventFailed_cases (fault : option error) (tx : table) (id : Z) (msg : string) :
  fst (MarkEventFailed fault tx id msg) = tx \/
  fst (MarkEventFailed fault tx id msg) = update_row id (failed_row msg) tx.
Proof.
  unfold MarkEventFailed. destruct fault; [by left|].
  destruct (existsb _ _); [by left|by right].
Qed.

Lemma MarkEventPublished_cases (fault : option error) (now : Z) (tx : table) (id : Z) :
  (exists e, MarkEventPublished fault now tx id = (tx, Some e)) \/
  MarkEventPublished fault now tx id = (update_row id (published_row now) tx, None).
Proof. unfold MarkEventPublished. destruct fault; [left; by eexists|by right]. Qed.

(** The invariant of the loop: every row of the table the tick started
    from stands as [row_after] says, and the rows whose id the loop has not
    reached are as they were. *)
Local Abbreviation tick_inv rows0 now acked done :=
  (Forall2 (fun e e' => In e rows0 /\ row_after now acked e e' /\
                        (~ In (Id e) done -> e' = e)) rows0).

Lemma tick_inv_skip (rows0 : list OutboxEvent) (now : Z) (acked acked' : list Z)
    (done : list Z) (id : Z) (rs : list OutboxEvent) :
  (forall x, In x acked -> In x acked') ->
  tick_inv rows0 now acked done rs -> tick_inv rows0 now acked' (id :: done) rs.
Proof.
  intros Hsub H. eapply Forall2_impl; [exact H|].
  intros e e' (Hin & Hafter & Hsame). split; [done|]. split.
  - by eapply row_after_mono.
  - intros Hn. apply Hsame. intros Hd. apply Hn. by right.
Qed.

Lemma tick_inv_update (rows0 : list OutboxEvent) (now : Z) (acked acked' : list Z)
    (done : list Z) (s : OutboxEvent) (f : OutboxEvent -> OutboxEvent) (tx : table) :
  NoDup (map Id rows0) -> In s rows0 -> ~ In (Id s) done ->
  (forall x, In x acked -> In x acked') ->
  row_after now acked' s (f s) ->
  tick_inv rows0 now acked done (rows tx) ->
  tick_inv rows0 now acked' (Id s :: done) (rows (update_row (Id s) f tx)).
Proof.
  intros Hnd Hs Hdone Hsub Hf H. simpl.
  eapply Forall2_map_r; [exact H|].
  intros e e' (Hin & Hafter & Hsame). simpl.
  pose proof (row_after_Id _ _ _ _ Hafter) as Hid.
  split; [done|].
  destruct (decide (Id e' = Id s)) as [Heq|Hne].
  - assert (e = s) as -> by (eapply NoDup_ids_eq; eauto; congruence).
    rewrite (Hsame Hdone). split; [done|]. intros Hn. exfalso. apply Hn. by left.
  - split; [by eapply row_after_mono|].
    intros Hn. apply Hsame. intros Hd. apply Hn. by right.
Qed.

Lemma process_events_rows {B : Type}
    (ProduceMessage : B -> string -> json -> B * option error)
    (wf : worker_faults) (now : Z) (rows0 : list OutboxEvent) (sel : list OutboxEvent) :
  NoDup (map Id rows0) ->
  NoDup (map Id sel) ->
  (forall s, In s sel -> In s rows0 /\ PublishedAt s = None /\ Attempts s < 10) ->
  forall (tx : table) (b : B) (sent : list sent_message) (done : list Z),
    (forall s, In s sel -> ~ In (Id s) done) ->
    tick_inv rows0 now (map sent_row sent) done (rows tx) ->
    Forall2 (row_after now
               (map sent_row
                  (snd (fst (process_events ProduceMessage wf now
                               (map scan_event sel) tx b sent)))))
      rows0
      (rows (fst (fst (fst (process_events ProduceMessage wf now
                              (map scan_event sel) tx b sent))))) /\
    next_id (fst (fst (fst (process_events ProduceMessage wf now
                              (map scan_event sel) tx b sent)))) = next_id tx.
Proof.
  intros Hnd0. induction sel as [|s sel IH]; intros Hnd Hsel tx b sent done Hdone Hinv.
  - simpl. split; [|done]. eapply Forall2_impl; [exact Hinv|]. by intros e e' (_ & H & _).
  - simpl in Hnd. apply NoDup_cons in Hnd as [Hs Hnd].
    destruct (Hsel s (or_introl eq_refl)) as (Hin & Hpub & Hatt).
    assert (Hsel' : forall s', In s' sel ->
                      In s' rows0 /\ PublishedAt s' = None /\ Attempts s' < 10)
      by (intros s' Hs'; apply Hsel; by right).
    assert (Hdone' : forall s', In s' sel -> ~ In (Id s') (Id s :: done)).
    { intros s' Hs' [Heq|Hd].
      - apply Hs. rewrite Heq. by apply list_elem_of_In, in_map.
      - by apply (Hdone s' (or_intror Hs')). }
    assert (Hs_done : ~ In (Id s) done) by (apply Hdone; by left).
    assert (Hfailed : forall (msg : string) (b' : B),
              Forall2 (row_after now
                 (map sent_row
                    (snd (fst (process_events ProduceMessage wf now (map scan_event sel)
                                 (fst (MarkEventFailed (w_mark_failed wf (Id s)) tx (Id s) msg))
                                 b' sent)))))
                rows0
                (rows (fst (fst (fst (process_events ProduceMessage wf now (map scan_event sel)
                                 (fst (MarkEventFailed (w_mark_failed wf (Id s)) tx (Id s) msg))
                                 b' sent))))) /\
              next_id (fst (fst (fst (process_events ProduceMessage wf now (map scan_event sel)
                                 (fst (MarkEventFailed (w_mark_failed wf (Id s)) tx (Id s) msg))
                                 b' sent)))) = next_id tx).
    { intros msg b'.
      destruct (MarkEventFailed_cases (w_mark_failed wf (Id s)) tx (Id s) msg)
        as [Heq | Heq]; rewrite Heq.
      - apply (IH Hnd Hsel' tx b' sent (Id s :: done) Hdone').
        by apply (tick_inv_skip rows0 now (map sent_row sent) (map sent_row sent)).
      - destruct (IH Hnd Hsel' (update_row (Id s) (failed_row msg) tx) b' sent
                    (Id s :: done) Hdone') as [H1 H2]; [|by split].
        apply (tick_inv_update rows0 now (map sent_row sent) (map sent_row sent));
          auto. by constructor. }
    simpl.
    destruct (Payload s) as [| | | | | |fields] eqn:Hp; simpl; try apply Hfailed.
    + split; [|done]. eapply Forall2_impl; [exact Hinv|]. by intros e e' (_ & H & _).
    + destruct (ProduceMessage b (Topic s) _) as [b' [err|]]; [apply Hfailed|].
      set (m := mkSent (Id s) (Topic s) _).
      assert (Hsub : forall x, In x (map sent_row sent) -> In x (map sent_row (sent ++ [m]))).
      { intros x Hx. rewrite map_app. apply in_or_app. by left. }
      destruct (MarkEventPublished_cases (w_mark_published wf (Id s)) now tx (Id s))
        as [[e Heq] | Heq]; rewrite Heq.
      * simpl. split; [|done]. eapply Forall2_impl; [exact Hinv|].
        intros e0 e' (_ & H & _). by eapply row_after_mono.
      * destruct (IH Hnd Hsel' (update_row (Id s) (published_row now) tx) b'
                    (sent ++ [m]) (Id s :: done) Hdone') as [H1 H2]; [|by split].
        apply (tick_inv_update rows0 now (map sent_row sent) (map sent_row (sent ++ [m])));
          auto.
        constructor; auto. rewrite map_app. apply in_or_app. right. by left.
Qed.

(** X2: a tick is pure bookkeeping.  On a table with unique ids, whatever
    the broker and the faults, the table after [processBatch] has the same
    rows in the same places and the same sequence, and every row is
    untouched, or was unpublished with attempts left and is now marked
    published at the tick's time with its attempts unchanged, its message
    being among the acknowledged ones, or was unpublished with attempts
    left and has exactly one more attempt and an error recorded.  A tick
    that does not return nil leaves the table as it was. *)
Theorem processBatch_marks_rows {B : Type}
    (ProduceMessage : B -> string -> json -> B * option error)
    (p : OutboxProcessor) (wf : worker_faults) (now : Z) (locked : Z -> bool)
    (t : table) (b : B) :
  NoDup (map Id (rows t)) ->
  Forall2 (row_after now
             (map sent_row (br_sent (processBatch ProduceMessage p wf now locked t b))))
    (rows t)
    (rows (br_table (processBatch ProduceMessage p wf now locked t b))) /\
  next_id (br_table (processBatch ProduceMessage p wf now locked t b)) = next_id t /\
  (br_outcome (processBatch ProduceMessage p wf now locked t b) <> Returned None ->
   br_table (processBatch ProduceMessage p wf now locked t b) = t).
Proof.
  intros Hnd.
  assert (Hrefl : forall acked, Forall2 (row_after now acked) (rows t) (rows t)).
  { intros acked. apply Forall2_same_length_lookup_2; [done|].
    intros i x y Hx Hy. assert (x = y) as -> by congruence. constructor. }
  unfold processBatch, GetUnpublishedEvents.
  destruct (w_begin wf); [done|].
  destruct (w_query wf); [done|].
  destruct (batchSize p <? 0); [done|].
  set (sel := select_unpublished locked t (batchSize p)).
  assert (Hinit : tick_inv (rows t) now (map sent_row (@nil sent_message)) [] (rows t)).
  { apply Forall2_same_length_lookup_2; [done|].
    intros i x y Hx Hy. assert (x = y) as -> by congruence.
    split; [by eapply list_elem_of_In, list_elem_of_lookup_2|]. split; [constructor|done]. }
  pose proof (process_events_rows ProduceMessage wf now (rows t) sel Hnd
                (select_unpublished_ids_NoDup locked t (batchSize p) Hnd)) as Hrows.
  assert (Hsel : forall s, In s sel ->
                   In s (rows t) /\ PublishedAt s = None /\ Attempts s < 10).
  { intros s Hs. apply list_elem_of_In, OutboxFacts.select_unpublished_elem in Hs as [Hs Hc].
    apply OutboxFacts.candidate_spec in Hc. split; [by apply list_elem_of_In|tauto]. }
  specialize (Hrows Hsel t b [] [] (fun _ _ H => H) Hinit).
  destruct (map scan_event sel) as [|ev evs] eqn:Hevs; [done|].
  destruct (process_events _ _ _ _ _ _ _) as [[[tx b'] sent] [out|]]; simpl in *.
  - split; [apply Hrefl|]. by split.
  - destruct (w_commit wf); simpl; [split; [apply Hrefl|by split]|].
    destruct Hrows as [H1 H2]. by split; [|split].
Qed.

Lemma processBatch_marks_rows_witness :
  NoDup (map Id (rows example_table)) /\
  Forall2 (row_after 200
             (map sent_row (br_sent (processBatch never_ack NewOutboxProcessor
                                       no_worker_faults 200 (fun _ => false)
                                       example_table tt))))
    (rows example_table)
    (rows (br_table (processBatch never_ack NewOutboxProcessor no_worker_faults 200
                       (fun _ => false) example_table tt))).
Proof.
  assert (NoDup (map Id (rows example_table))) as Hnd.
  { apply (bool_decide_unpack _). vm_compute. exact I. }
  split; [exact Hnd|].
  exact (proj1 (processBatch_marks_rows never_ack NewOutboxProcessor no_worker_faults
                  200 (fun _ => false) example_table tt Hnd)).
Defined.

(** *** A tick with a healthy broker *)

Lemma process_events_all_acked {B : Type}
    (ProduceMessage : B -> string -> json -> B * option error)
    (now : Z) (sel : list OutboxEvent) :
  (forall b topic m, snd (ProduceMessage b topic m) = None) ->
  Forall (fun e => exists fields, Payload e = JObj fields) sel ->
  forall (tx : table) (b : B) (sent : list sent_message),
  exists b' : B,
    process_events ProduceMessage no_worker_faults now (map scan_event sel) tx b sent =
    (mkTable
       (map (fun e => if bool_decide (Id e ∈ map Id sel)
                      then published_row now e else e) (rows tx))
       (next_id tx),
     b', sent ++ map message_of sel, None).
Proof.
  intros Hack. induction sel as [|s sel IH]; intros Hobj tx b sent.
  - exists b. simpl. rewrite app_nil_r. f_equal. f_equal. f_equal.
    destruct tx as [rs n]. simpl. f_equal.
    rewrite <- (map_id rs) at 1. by apply map_ext.
  - apply Forall_cons in Hobj as [[fields Hp] Hobj].
    simpl. rewrite Hp. simpl.
    match goal with
    | |- context [ProduceMessage b (Topic s) ?m] =>
        pose proof (Hack b (Topic s) m) as Hb;
        destruct (ProduceMessage b (Topic s) m) as [b1 r1]
    end.
    simpl in Hb. subst r1. rewrite (message_of_object s fields Hp).
    destruct (IH Hobj (update_row (Id s) (published_row now) tx) b1
                (sent ++ [message_of s])) as [b' Heq].
    exists b'. unfold published_row in Heq |- *. rewrite Heq.
    rewrite <- app_assoc. cbn [app]. do 3 f_equal.
    destruct tx as [rs n]. cbn [update_row rows next_id]. f_equal.
    rewrite map_map. apply map_ext. intros e.
    destruct (decide (Id e = Id s)) as [Heq'|Hne].
    + rewrite (bool_decide_eq_true_2 (Id e ∈ Id s :: map Id sel))
        by (rewrite Heq'; apply list_elem_of_here).
      by destruct (bool_decide _).
    + destruct (decide (Id e ∈ map Id sel)) as [Hin|Hnin].
      * rewrite !bool_decide_eq_true_2; [done| |done]. by apply list_elem_of_further.
      * rewrite !bool_decide_eq_false_2; [done| |done].
        intros [?|?]%elem_of_cons; done.
Qed.

(** X3: with a broker that acknowledges everything, no fault and a batch
    size that is not negative, a tick whose selected rows all hold JSON
    objects returns nil, sends exactly the messages of the selection in its
    order, and commits a table in which the selected rows, and only they,
    are marked published at the tick's time.  If all the candidates fitted
    in the batch, the next selection (under the same foreign locks) is
    empty: the outbox is drained. *)
Theorem processBatch_drains {B : Type}
    (ProduceMessage : B -> string -> json -> B * option error)
    (p : OutboxProcessor) (now : Z) (locked : Z -> bool) (t : table) (b : B) :
  (forall b topic m, snd (ProduceMessage b topic m) = None) ->
  0 <= batchSize p ->
  Forall (fun e => exists fields, Payload e = JObj fields)
    (select_unpublished locked t (batchSize p)) ->
  br_outcome (processBatch ProduceMessage p no_worker_faults now locked t b) = Returned None /\
  br_sent (processBatch ProduceMessage p no_worker_faults now locked t b) =
    map message_of (select_unpublished locked t (batchSize p)) /\
  rows (br_table (processBatch ProduceMessage p no_worker_faults now locked t b)) =
    map (fun e => if bool_decide (Id e ∈ map Id (select_unpublished locked t (batchSize p)))
                  then published_row now e else e) (rows t) /\
  (Z.of_nat (length (filter (fun e => candidate locked e = true) (rows t))) <= batchSize p ->
   forall batch',
     select_unpublished locked
       (br_table (processBatch ProduceMessage p no_worker_faults now locked t b)) batch' = []).
Proof.
  intros Hack Hb Hobj.
  set (sel := select_unpublished locked t (batchSize p)) in *.
  assert (Hres : br_outcome (processBatch ProduceMessage p no_worker_faults now locked t b)
                   = Returned None /\
                 br_sent (processBatch ProduceMessage p no_worker_faults now locked t b)
                   = map message_of sel /\
                 rows (br_table (processBatch ProduceMessage p no_worker_faults now locked t b))
                   = map (fun e => if bool_decide (Id e ∈ map Id sel)
                                   then published_row now e else e) (rows t)).
  { unfold processBatch, GetUnpublishedEvents. simpl.
    destruct (batchSize p <? 0) eqn:E; [apply Z.ltb_lt in E; lia|]. fold sel.
    destruct (process_events_all_acked ProduceMessage now sel Hack Hobj t b []) as [b' Heq].
    destruct sel as [|s sel'] eqn:Hsel.
    - simpl. split; [done|]. split; [done|].
      rewrite <- (map_id (rows t)) at 1. by apply map_ext.
    - change (map scan_event (s :: sel')) with (scan_event s :: map scan_event sel') in Heq.
      cbn [map]. rewrite Heq. done. }
  destruct Hres as (H1 & H2 & H3). split; [done|]. split; [done|]. split; [done|].
  intros Hfit batch'.
  destruct (select_unpublished locked _ batch') as [|e' rest] eqn:Hsel'; [done|].
  exfalso.
  assert (He' : e' ∈ select_unpublished locked
                  (br_table (processBatch ProduceMessage p no_worker_faults now locked t b))
                  batch') by (rewrite Hsel'; apply list_elem_of_here).
  apply OutboxFacts.select_unpublished_elem in He' as [Hin Hc].
  rewrite H3 in Hin. apply list_elem_of_In, in_map_iff in Hin as (e & Hee' & Hin).
  apply list_elem_of_In in Hin.
  destruct (decide (Id e ∈ map Id sel)) as [Hsel|Hnsel].
  - rewrite bool_decide_eq_true_2 in Hee' by done. subst e'.
    apply OutboxFacts.candidate_spec in Hc as (Hpub & _). done.
  - rewrite bool_decide_eq_false_2 in Hee' by done. subst e'.
    apply Hnsel. apply list_elem_of_In, in_map, list_elem_of_In.
    by apply OutboxFacts.select_unpublished_all.
Qed.

Lemma processBatch_drains_witness :
  (forall b topic m, snd (always_ack b topic m) = None) /\
  0 <= batchSize NewOutboxProcessor /\
  br_sent (processBatch always_ack NewOutboxProcessor no_worker_faults 200
             (fun _ => false) example_table tt) =
    map message_of (select_unpublished (fun _ => false) example_table 50) /\
  select_unpublished (fun _ => false)
    (br_table (processBatch always_ack NewOutboxProcessor no_worker_faults 200
                 (fun _ => false) example_table tt)) 50 = [].
Proof.
  split; [reflexivity|]. split; [vm_compute; discriminate|].
  destruct (processBatch_drains always_ack NewOutboxProcessor 200 (fun _ => false)
              example_table tt) as (_ & H2 & _ & H4).
  - reflexivity.
  - vm_compute; discriminate.
  - vm_compute. repeat constructor; by eexists.
  - split; [exact H2|]. apply H4. vm_compute. discriminate.
Defined.

(** *** Saving and reading back *)

(** X4: a saved event gets the next id of the sequence, which no row of
    the table had (the primary key is kept), and, unless another
    transaction holds its lock, the next [GetUnpublishedEvents] whose batch
    has room for one more candidate returns it exactly as it was saved:
    empty headers, the insertion time, no attempts, no error. *)
Theorem SaveOutboxEvent_then_GetUnpublishedEvents (now : Z) (ev : NewEvent)
    (t : table) (locked : Z -> bool) (batch : Z) :
  wf_table t ->
  locked (next_id t) = false ->
  Z.of_nat (length (filter (fun e => candidate locked e = true) (rows t))) < batch ->
  wf_table (fst (SaveOutboxEvent None now ev t)) /\
  (forall e, e ∈ rows t -> Id e <> next_id t) /\
  exists evs,
    GetUnpublishedEvents None locked (fst (SaveOutboxEvent None now ev t)) batch = inl evs /\
    mkOutboxEvent (next_id t) (nAggregateType ev) (nAggregateID ev) (nEventType ev)
      (nPayload ev) (JObj []) now None 0 None (nTopic ev) ∈ evs.
Proof.
  intros [Hnd Hlt] Hlock Hroom.
  assert (Hfresh : forall e, e ∈ rows t -> Id e <> next_id t).
  { intros e He. rewrite Forall_forall in Hlt. specialize (Hlt e He). lia. }
  split; [|split; [exact Hfresh|]].
  - split; cbn [SaveOutboxEvent fst rows next_id].
    + rewrite map_app. apply NoDup_app. split; [done|]. split.
      * intros i Hi Hi'. apply list_elem_of_In, in_map_iff in Hi as (e & <- & He).
        apply list_elem_of_In in He. apply (Hfresh e He).
        cbn in Hi'. apply list_elem_of_singleton in Hi'. done.
      * cbn. apply NoDup_singleton.
    + apply Forall_app. split.
      * eapply Forall_impl; [exact Hlt|]. cbn. intros; lia.
      * apply Forall_singleton. cbn. lia.
  - unfold GetUnpublishedEvents.
    destruct (batch <? 0) eqn:E; [apply Z.ltb_lt in E; lia|].
    eexists. split; [reflexivity|].
    set (e := mkOutboxEvent _ _ _ _ _ _ _ _ _ _ _).
    change e with (scan_event e) at 1.
    apply list_elem_of_In, in_map, list_elem_of_In.
    assert (Hc : candidate locked e = true).
    { apply OutboxFacts.candidate_spec. cbn. split; [done|]. split; [lia|done]. }
    apply OutboxFacts.select_unpublished_all; cbn [SaveOutboxEvent fst rows].
    + rewrite filter_app, length_app.
      rewrite (filter_cons_True _ e []) by exact Hc. cbn [filter length].
      rewrite filter_nil. cbn [length]. lia.
    + apply elem_of_app. right. apply list_elem_of_here.
    + exact Hc.
Qed.

Lemma SaveOutboxEvent_then_GetUnpublishedEvents_witness :
  wf_table example_table /\
  exists evs,
    GetUnpublishedEvents None (fun _ => false)
      (fst (SaveOutboxEvent None 50 (mkNewEvent "Order" "5" "OrderCreated" (JObj []) "order_events")
              example_table)) 50 = inl evs /\
    mkOutboxEvent 5 "Order" "5" "OrderCreated" (JObj []) (JObj []) 50 None 0 None
      "order_events" ∈ evs.
Proof.
  assert (Hwf : wf_table example_table).
  { split.
    - apply (bool_decide_unpack _). vm_compute. exact I.
    - cbn. repeat constructor. }
  split; [exact Hwf|].
  destruct (SaveOutboxEvent_then_GetUnpublishedEvents 50
              (mkNewEvent "Order" "5" "OrderCreated" (JObj []) "order_events")
              example_table (fun _ => false) 50 Hwf) as (_ & _ & H).
  - reflexivity.
  - vm_compute. reflexivity.
  - exact H.
Defined.

End RelayFacts.

(** ** The order service: creation, payment, users *)

Module OrderServiceFacts.
Import Order OrderUsers.

(** *** [int64] arithmetic *)

Lemma wrap64_mod (z : Z) : wrap64 z mod 2 ^ 64 = z mod 2 ^ 64.
Proof.
  unfold wrap64. rewrite Zminus_mod_idemp_l. f_equal. lia.
Qed.

Lemma wrap64_congr (a b : Z) : a mod 2 ^ 64 = b mod 2 ^ 64 -> wrap64 a = wrap64 b.
Proof.
  intros H. unfold wrap64. f_equal.
  rewrite (Zplus_mod a), (Zplus_mod b), H. reflexivity.
Qed.

Lemma wrap64_small (z : Z) : - 2 ^ 63 <= z < 2 ^ 63 -> wrap64 z = z.
Proof. intros H. unfold wrap64. rewrite Z.mod_small; lia. Qed.

Lemma wrap64_range (z : Z) : - 2 ^ 63 <= wrap64 z < 2 ^ 63.
Proof.
  unfold wrap64. pose proof (Z.mod_pos_bound (z + 2 ^ 63) (2 ^ 64)). lia.
Qed.

Lemma CalculateTotal_from (items : list PbOrderItem) (acc : Z) :
  fold_left (fun total item => wrap64 (total + wrap64 (pbPrice item * pbQuantity item)))
    items (wrap64 acc) =
  wrap64 (acc + foldr Z.add 0 (map (fun it => pbPrice it * pbQuantity it) items)).
Proof.
  revert acc. induction items as [|it items IH]; intros acc; cbn [fold_left map foldr].
  - f_equal. lia.
  - assert (Hstep : wrap64 (wrap64 acc + wrap64 (pbPrice it * pbQuantity it)) =
                    wrap64 (acc + pbPrice it * pbQuantity it)).
    { apply wrap64_congr.
      rewrite Zplus_mod, !wrap64_mod, <- Zplus_mod. reflexivity. }
    rewrite Hstep, IH. f_equal. lia.
Qed.

(** X5: the total of an order is the sum of price times quantity over its
    items, reduced to [int64] once: overflow in between does not matter,
    and the total is the exact sum whenever that sum fits in [int64].
    Nothing keeps it from being negative. *)
Theorem CalculateTotal_is_sum (items : list PbOrderItem) :
  CalculateTotal items =
    wrap64 (foldr Z.add 0 (map (fun it => pbPrice it * pbQuantity it) items)) /\
  - 2 ^ 63 <= CalculateTotal items < 2 ^ 63 /\
  (- 2 ^ 63 <= foldr Z.add 0 (map (fun it => pbPrice it * pbQuantity it) items) < 2 ^ 63 ->
   CalculateTotal items =
     foldr Z.add 0 (map (fun it => pbPrice it * pbQuantity it) items)).
Proof.
  assert (H : CalculateTotal items =
              wrap64 (foldr Z.add 0 (map (fun it => pbPrice it * pbQuantity it) items))).
  { unfold CalculateTotal. change 0 with (wrap64 0) at 1.
    rewrite CalculateTotal_from. f_equal. }
  split; [exact H|]. split.
  - rewrite H. apply wrap64_range.
  - intros Hfit. rewrite H. by apply wrap64_small.
Qed.

Lemma CalculateTotal_is_sum_witness :
  CalculateTotal [mkPbOrderItem 1 "a" (2 ^ 62) 3; mkPbOrderItem 2 "b" (- 2 ^ 62) 2;
                  mkPbOrderItem 3 "c" 5350 2] = 2 ^ 62 + 10700.
Proof.
  destruct (CalculateTotal_is_sum
              [mkPbOrderItem 1 "a" (2 ^ 62) 3; mkPbOrderItem 2 "b" (- 2 ^ 62) 2;
               mkPbOrderItem 3 "c" 5350 2]) as (_ & _ & H).
  rewrite H; [reflexivity|]. vm_compute. split; [discriminate|reflexivity].
Defined.

(** *** [CreateOrder] *)

Lemma insert_items_spec (orderID : Z) (items : list PbOrderItem) (seq : Z) :
  (insert_items orderID items seq).2 = seq + Z.of_nat (length items) /\
  map item_id (insert_items orderID items seq).1 = seqZ seq (Z.of_nat (length items)) /\
  Forall2 (fun it r => item_order_id r = orderID /\
                       item_product_id r = pbProductId it /\ item_name r = pbName it /\
                       item_price r = pbPrice it /\ item_quantity r = pbQuantity it)
    items (insert_items orderID items seq).1.
Proof.
  revert seq. induction items as [|it items IH]; intros seq.
  - cbn. split; [lia|]. split; [reflexivity|constructor].
  - cbn [insert_items]. destruct (IH (seq + 1)) as (H1 & H2 & H3).
    destruct (insert_items orderID items (seq + 1)) as [rs seq'].
    cbn [fst snd] in *. split; [cbn [length]; lia|]. split.
    + cbn [map item_id length]. rewrite H2.
      rewrite (seqZ_cons seq) by lia. f_equal. f_equal; lia.
    + constructor; [by cbn|exact H3].
Qed.

(** X6: [CreateOrder] is all or nothing.  On every error the committed
    database is the one it was given.  When it returns an order id, that id
    is the next value of the orders sequence, the user is a row of [users],
    and the commit added exactly: the order row, in status [new], with the
    computed total; one item row per requested item, in order, with
    consecutive ids; and one outbox row for topic [order_events] carrying
    the [OrderCreated] envelope of this order. *)
Theorem orderService_CreateOrder_all_or_nothing (f : faults) (now : Z) (d : db)
    (req : CreateOrderRequest) :
  match orderService_CreateOrder f now d req with
  | (d', inr _) => d' = d
  | (d', inl id) =>
      id = orders_seq d /\
      is_Some (users d !! UserId req) /\
      users d' = users d /\
      orders d' = <[id := mkOrderRow (UserId req) "new" (CalculateTotal (Items req)) now now]>
                    (orders d) /\
      orders_seq d' = id + 1 /\
      (exists rs,
         order_items d' = order_items d ++ rs /\
         map item_id rs = seqZ (items_seq d) (Z.of_nat (length (Items req))) /\
         Forall2 (fun it r => item_order_id r = id /\
                              item_product_id r = pbProductId it /\
                              item_name r = pbName it /\
                              item_price r = pbPrice it /\
                              item_quantity r = pbQuantity it) (Items req) rs) /\
      items_seq d' = items_seq d + Z.of_nat (length (Items req)) /\
      outbox d' =
        Outbox.mkTable
          (Outbox.rows (outbox d) ++
           [Outbox.mkOutboxEvent (Outbox.next_id (outbox d)) "Order" (pretty id)
              "OrderCreated" (OrderCreated_envelope id (UserId req) (Items req))
              (JObj []) now None 0 None "order_events"])
          (Outbox.next_id (outbox d) + 1)
  end.
Proof.
  unfold orderService_CreateOrder.
  destruct (f_begin f); [done|].
  unfold orderRepo_CreateOrder.
  destruct (f_insert_order f); [done|].
  destruct (users d !! UserId req) as [email|] eqn:Hu; [|done].
  pose proof (insert_items_spec (orders_seq d) (Items req) (items_seq d)) as (H1 & H2 & H3).
  assert (Hgoal : forall r,
    r = (let '(rs, seq') := insert_items (orders_seq d) (Items req) (items_seq d) in
         (mkDb (users d)
            (<[orders_seq d := mkOrderRow (UserId req) OrderStatusNew
                                 (CalculateTotal (Items req)) now now]> (orders d))
            (orders_seq d + 1) (order_items d ++ rs) seq' (outbox d),
          @inl Z error (orders_seq d))) ->
    match
      match r with
      | (_, inr err) => (d, @inr Z error (Errorf ("failed to create order: " +:+ Error err)))
      | (tx1, inl orderID) =>
          match Outbox.SaveOutboxEvent (f_outbox f) now
                  (Outbox.mkNewEvent "Order" (pretty orderID) "OrderCreated"
                     (OrderCreated_envelope orderID (UserId req) (Items req))
                     "order_events") (outbox tx1) with
          | (_, Some err) =>
              (d, inr (Errorf ("failed to save outbox event: " +:+ Error err)))
          | (t, None) =>
              match f_commit f with
              | Some e => (d, inr (Errorf ("failed to commit transaction: " +:+ Error e)))
              | None => (with_outbox tx1 t, inl orderID)
              end
          end
      end
    with
    | (d', inr _) => d' = d
    | (d', inl id) =>
        id = orders_seq d /\
        is_Some (Some email) /\
        users d' = users d /\
        orders d' = <[id := mkOrderRow (UserId req) "new" (CalculateTotal (Items req)) now now]>
                      (orders d) /\
        orders_seq d' = id + 1 /\
        (exists rs,
           order_items d' = order_items d ++ rs /\
           map item_id rs = seqZ (items_seq d) (Z.of_nat (length (Items req))) /\
           Forall2 (fun it r => item_order_id r = id /\
                                item_product_id r = pbProductId it /\
                                item_name r = pbName it /\
                                item_price r = pbPrice it /\
                                item_quantity r = pbQuantity it) (Items req) rs) /\
        items_seq d' = items_seq d + Z.of_nat (length (Items req)) /\
        outbox d' =
          Outbox.mkTable
            (Outbox.rows (outbox d) ++
             [Outbox.mkOutboxEvent (Outbox.next_id (outbox d)) "Order" (pretty id)
                "OrderCreated" (OrderCreated_envelope id (UserId req) (Items req))
                (JObj []) now None 0 None "order_events"])
            (Outbox.next_id (outbox d) + 1)
    end).
  { intros r ->.
    destruct (insert_items (orders_seq d) (Items req) (items_seq d)) as [rs seq'].
    cbn [fst snd] in *. cbn [outbox].
    unfold Outbox.SaveOutboxEvent.
    destruct (f_outbox f); [done|].
    destruct (f_commit f); [done|].
    cbn. repeat split; try done. by exists rs. }
  destruct (f_insert_item f) as [e|]; [destruct (Items req) as [|it its] eqn:Hit|].
  - rewrite <- Hit in *. apply Hgoal. rewrite Hit. reflexivity.
  - done.
  - apply Hgoal. reflexivity.
Qed.


(** *** [HandleUserRegistered] *)

Lemma SaveUserDuplication_no_fault (d : db) (event : UserRegisteredEvent) :
  orderRepo_SaveUserDuplication None d event =
  if bool_decide (is_Some (users d !! UserID event))
     || bool_decide (map_Exists (fun _ email => email = Email event) (users d))
  then (d, None)
  else (with_users d (<[UserID event := Email event]> (users d)), None).
Proof.
  unfold orderRepo_SaveUserDuplication.
  by destruct (bool_decide (is_Some _) || bool_decide (map_Exists _ _)).
Qed.

(** X7: when the INSERT itself does not fail for another reason,
    [HandleUserRegistered] always returns nil, it writes the user exactly
    when neither the id nor the e-mail is in the table, it touches nothing
    but [users], and it keeps e-mails unique.  Delivering the same event
    again returns nil and changes nothing. *)
Theorem HandleUserRegistered_is_idempotent (d : db) (event : UserRegisteredEvent) :
  (forall i j email, users d !! i = Some email -> users d !! j = Some email -> i = j) ->
  (orderService_HandleUserRegistered None d event).2 = None /\
  (users (orderService_HandleUserRegistered None d event).1 !! UserID event = Some (Email event)
   <-> users d !! UserID event = Some (Email event) \/
       (users d !! UserID event = None /\
        forall j, users d !! j <> Some (Email event))) /\
  (forall i, i <> UserID event ->
     users (orderService_HandleUserRegistered None d event).1 !! i = users d !! i) /\
  (forall i j email,
     users (orderService_HandleUserRegistered None d event).1 !! i = Some email ->
     users (orderService_HandleUserRegistered None d event).1 !! j = Some email -> i = j) /\
  with_users (orderService_HandleUserRegistered None d event).1 (users d) = d /\
  orderService_HandleUserRegistered None (orderService_HandleUserRegistered None d event).1 event =
    ((orderService_HandleUserRegistered None d event).1, None).
Proof.
  intros Huniq. unfold orderService_HandleUserRegistered.
  rewrite !SaveUserDuplication_no_fault.
  destruct (bool_decide (is_Some (users d !! UserID event))
            || bool_decide (map_Exists (fun _ email => email = Email event) (users d)))
    eqn:E.
  - cbn [fst snd]. rewrite E.
    apply orb_true_iff in E.
    split; [done|]. split; [|split; [done|split; [exact Huniq|split; [by destruct d|done]]]].
    split; [by left|]. intros [H|[Hn Hfree]]; [done|].
    destruct E as [E|E].
    + apply bool_decide_eq_true in E. rewrite Hn in E. by destruct E.
    + apply bool_decide_eq_true in E. destruct E as (j & email & Hj & ->).
      by destruct (Hfree j).
  - cbn [fst snd]. apply orb_false_iff in E as [E1 E2].
    apply bool_decide_eq_false in E1, E2.
    assert (Hn : users d !! UserID event = None).
    { destruct (users d !! UserID event) eqn:Hu; [|done]. by destruct E1. }
    assert (Hfree : forall j, users d !! j <> Some (Email event)).
    { intros j Hj. apply E2. by exists j, (Email event). }
    split; [done|]. cbn [with_users users].
    split; [|split; [|split; [|split]]].
    + rewrite lookup_insert_eq. split; [by right|done].
    + intros i Hi. by rewrite lookup_insert_ne.
    + intros i j email Hi Hj.
      destruct (decide (i = UserID event)) as [->|Hi'];
        destruct (decide (j = UserID event)) as [->|Hj']; [done| | |].
      * rewrite lookup_insert_eq in Hi. rewrite lookup_insert_ne in Hj by done.
        inversion Hi; subst. by destruct (Hfree j).
      * rewrite lookup_insert_eq in Hj. rewrite lookup_insert_ne in Hi by done.
        inversion Hj; subst. by destruct (Hfree i).
      * rewrite lookup_insert_ne in Hi, Hj by done. by apply (Huniq i j email).
    + by destruct d.
    + rewrite bool_decide_eq_true_2; [done|].
      cbn [with_users users]. rewrite lookup_insert_eq. by eexists.
Qed.

Lemma HandleUserRegistered_is_idempotent_witness :
  (orderService_HandleUserRegistered None seeded_db (mkUserRegisteredEvent 7 "a@b.c")).2 = None /\
  users (orderService_HandleUserRegistered None seeded_db (mkUserRegisteredEvent 7 "a@b.c")).1
    !! 7 = Some "a@b.c".
Proof.
  assert (Huniq : forall i j email,
            users seeded_db !! i = Some email -> users seeded_db !! j = Some email -> i = j).
  { intros i j email Hi Hj. cbn in Hi, Hj.
    apply lookup_singleton_Some in Hi as [<- _].
    apply lookup_singleton_Some in Hj as [<- _]. reflexivity. }
  destruct (HandleUserRegistered_is_idempotent seeded_db (mkUserRegisteredEvent 7 "a@b.c") Huniq)
    as (H1 & H2 & _).
  split; [exact H1|]. apply H2. right. split.
  - reflexivity.
  - intros j Hj. cbn in Hj. apply lookup_singleton_Some in Hj as [_ Hj]. discriminate.
Defined.

(** X8: a registration whose e-mail another id already holds is dropped
    without an error: [HandleUserRegistered] returns nil and the table is
    unchanged.  The user stays unknown to the order service, so every
    [CreateOrder] for that user fails and leaves the database as it was. *)
Theorem HandleUserRegistered_drops_clashing_email (d : db) (event : UserRegisteredEvent)
    (other : Z) (f : faults) (now : Z) (items : list PbOrderItem) :
  users d !! UserID event = None ->
  users d !! other = Some (Email event) ->
  orderService_HandleUserRegistered None d event = (d, None) /\
  exists err,
    orderService_CreateOrder f now
      (orderService_HandleUserRegistered None d event).1
      (mkCreateOrderRequest (UserID event) items) = (d, inr err).
Proof.
  intros Hn Hother.
  assert (H : orderService_HandleUserRegistered None d event = (d, None)).
  { unfold orderService_HandleUserRegistered. rewrite SaveUserDuplication_no_fault.
    rewrite (bool_decide_eq_true_2 (map_Exists _ _)); [by rewrite orb_true_r|].
    by exists other, (Email event). }
  split; [exact H|]. rewrite H. cbn [fst].
  unfold orderService_CreateOrder, orderRepo_CreateOrder. cbn [UserId Items].
  destruct (f_begin f); [by eexists|].
  destruct (f_insert_order f); [by eexists|].
  rewrite Hn. by eexists.
Qed.

Lemma HandleUserRegistered_drops_clashing_email_witness :
  orderService_HandleUserRegistered None seeded_db clashing_user = (seeded_db, None) /\
  exists err,
    orderService_CreateOrder no_faults 100
      (orderService_HandleUserRegistered None seeded_db clashing_user).1
      (mkCreateOrderRequest 1000 (Items create_request)) = (seeded_db, inr err).
Proof.
  apply (HandleUserRegistered_drops_clashing_email seeded_db clashing_user 999 no_faults 100
           (Items create_request)); reflexivity.
Defined.

(** *** [ChangeOrderStatus] and orders that do not exist *)

(** X9: a call of the [PaymentSucceeded] handler that returns an error
    leaves the database as it was.  When no driver call fails and the order
    exists, it returns nil and sets the status of that order to [paid],
    changing nothing else: no other column of the row, no other order, no
    outbox row.  The status the order had plays no part, so a cancelled
    order becomes paid. *)
Theorem orderService_ChangeOrderStatus_marks_paid (f : faults) (d : db)
    (event : PaymentSucceededEvent) :
  (forall d' err, orderService_ChangeOrderStatus f d event = (d', Some err) -> d' = d) /\
  (forall r,
     orders d !! psOrderID event = Some r ->
     f_begin f = None -> f_update f = None -> f_commit f = None ->
     orderService_ChangeOrderStatus f d event =
       (with_orders d
          (<[psOrderID event := mkOrderRow (user_id r) "paid" (total_sum r)
                                  (created_at r) (updated_at r)]> (orders d)),
        None)).
Proof.
  unfold orderService_ChangeOrderStatus, orderRepo_ChangeOrderStatus. split.
  - intros d' err.
    destruct (f_begin f); [by intros [= <- _]|].
    destruct (f_update f).
    { cbn. destruct (errors_Is _ _); by intros [= <- _]. }
    destruct (orders d !! psOrderID event).
    + destruct (f_commit f); [by intros [= <- _]|done].
    + cbn. by intros [= <- _].
  - intros r Hr Hb Hu Hc. by rewrite Hb, Hu, Hr, Hc.
Qed.

Lemma orderService_ChangeOrderStatus_marks_paid_witness :
  option_map status
    (orders (orderService_ChangeOrderStatus no_faults cancelled_db
               (mkPaymentSucceededEvent 2 1 5350 200)).1 !! 2) = Some "paid".
Proof.
  destruct (orderService_ChangeOrderStatus_marks_paid no_faults cancelled_db
              (mkPaymentSucceededEvent 2 1 5350 200)) as [_ H].
  rewrite (H (mkOrderRow 999 "cancelled" 5350 100 100)); reflexivity.
Defined.

(** X10: for an order id that is not in the table, both saga handlers
    return the error [order <id> not found] and leave the database as it
    was.  The error is built without [%w]: it no longer matches
    [ErrOrderNotFound] under [errors.Is]. *)
Theorem saga_handlers_on_unknown_order (f : faults) (now : Z) (d : db) (orderID : Z)
    (failed : PaymentFailedEvent) (succeeded : PaymentSucceededEvent) :
  orders d !! orderID = None ->
  pfOrderID failed = orderID -> psOrderID succeeded = orderID ->
  f_begin f = None -> f_update f = None ->
  orderService_CancelOrder f now d failed =
    (d, Some (Errorf ("order " +:+ pretty orderID +:+ " not found"))) /\
  orderService_ChangeOrderStatus f d succeeded =
    (d, Some (Errorf ("order " +:+ pretty orderID +:+ " not found"))) /\
  errors_Is (Errorf ("order " +:+ pretty orderID +:+ " not found")) ErrOrderNotFound = false.
Proof.
  intros Hn <- Hs Hb Hu.
  unfold orderService_CancelOrder, orderService_ChangeOrderStatus,
    orderRepo_ChangeOrderStatus.
  rewrite Hb, Hu, Hs, Hn. done.
Qed.

Lemma saga_handlers_on_unknown_order_witness :
  orderService_CancelOrder no_faults 150 new_db (payment_failed 42) =
    (new_db, Some (Errorf "order 42 not found")).
Proof.
  destruct (saga_handlers_on_unknown_order no_faults 150 new_db 42 (payment_failed 42)
              (mkPaymentSucceededEvent 42 1 1 1)) as (H & _);
    [reflexivity .. | exact H].
Defined.


End OrderServiceFacts.

(** ** The inbox and the notification handlers *)

Module InboxFacts.
Import Dedup Notification.

Section Facts.

Context {W : Type}.
Variable action : W -> W * option error.

(** A nil return that was not a swallowed failure of the INSERT leaves the
    event id in [processed_events]. *)
Lemma ProcessWithDeduplication_nil_recorded (f : faults) (now : Z)
    (processed : gmap Z Z) (w : W) (eventID : Z) :
  d_insert f = None ->
  r_err (ProcessWithDeduplication action f now processed w eventID) = None ->
  is_Some (r_processed (ProcessWithDeduplication action f now processed w eventID)
             !! eventID).
Proof.
  intros Hi. unfold ProcessWithDeduplication.
  destruct (d_begin f); [done|].
  destruct (processed !! eventID) as [v|] eqn:Hp.
  - change (is_unique_violation (PgError "23505")) with true.
    cbn -[lookup]. intros _. rewrite Hp. by eexists.
  - rewrite Hi.
    destruct (retry action [0; 1; 2] w [] None) as [[[w' tr] err] sent].
    destruct sent; cbn -[lookup insert]; [|done].
    destruct (d_commit f); cbn -[lookup insert]; [done|].
    intros _. rewrite lookup_insert_eq. by eexists.
Qed.




End Facts.


(** X12: the two deduplicated handlers of the notification service share
    one [processed_events] table.  Once [HandleUserRegistered] has returned
    nil for an event id, [HandleUserForgotPassword] for an event with the
    same id sends nothing and returns nil, and the other way round. *)
Theorem handlers_share_processed_events {W : Type} `{Sender W} (f f' : faults)
    (now now' : Z) (processed : gmap Z Z) (w : W)
    (registered : UserRegisteredEvent) (forgot : UserForgotPasswordEvent) :
  d_insert f = None -> d_begin f' = None ->
  urEventID registered = ufEventID forgot ->
  (r_err (HandleUserRegistered f now processed w registered) = None ->
   HandleUserForgotPassword f' now'
     (r_processed (HandleUserRegistered f now processed w registered))
     (r_world (HandleUserRegistered f now processed w registered)) forgot =
   mkResult (r_processed (HandleUserRegistered f now processed w registered))
     (r_world (HandleUserRegistered f now processed w registered)) [] None) /\
  (r_err (HandleUserForgotPassword f now processed w forgot) = None ->
   HandleUserRegistered f' now'
     (r_processed (HandleUserForgotPassword f now processed w forgot))
     (r_world (HandleUserForgotPassword f now processed w forgot)) registered =
   mkResult (r_processed (HandleUserForgotPassword f now processed w forgot))
     (r_world (HandleUserForgotPassword f now processed w forgot)) [] None).
Proof.
  intros Hi Hb Hid. split; intros Hnil.
  - unfold HandleUserForgotPassword at 1.
    apply DedupFacts.ProcessWithDeduplication_duplicate; [exact Hb|].
    rewrite <- Hid. by apply ProcessWithDeduplication_nil_recorded.
  - unfold HandleUserRegistered at 1.
    apply DedupFacts.ProcessWithDeduplication_duplicate; [exact Hb|].
    rewrite Hid. by apply ProcessWithDeduplication_nil_recorded.
Qed.

Lemma handlers_share_processed_events_witness :
  r_world (HandleUserForgotPassword no_faults 20
             (r_processed (HandleUserRegistered no_faults 10 ∅ []
                             (mkUserRegisteredEvent 5 "a@b.c" "tok" "UserRegistered" 5)))
             (r_world (HandleUserRegistered no_faults 10 ∅ []
                         (mkUserRegisteredEvent 5 "a@b.c" "tok" "UserRegistered" 5)))
             (mkUserForgotPasswordEvent "x@y.z" "tok2" "UserForgotPassword" 5)) = ["a@b.c"].
Proof.
  destruct (handlers_share_processed_events no_faults no_faults 10 20 ∅ []
              (mkUserRegisteredEvent 5 "a@b.c" "tok" "UserRegistered" 5)
              (mkUserForgotPasswordEvent "x@y.z" "tok2" "UserForgotPassword" 5))
    as [H1 _]; [reflexivity..|].
  rewrite H1; reflexivity.
Defined.

End InboxFacts.

(** ** The payment service over many deliveries *)

Module PaymentRunsFacts.
Import Payment PaymentRuns.

Lemma ProcessPayment_step (f : faults) (now : Z) (uuid : string) (d : db)
    (event : InventoryReservedEvent) :
  (ProcessPayment f now uuid d event).1 = d \/
  ((forall p, p ∈ payments d -> OrderID p <> evOrderID event) /\
   exists eventType payload,
     (ProcessPayment f now uuid d event).1 =
     payment_written now uuid d event (decide_payment (evOrderID event)).1
       eventType payload).
Proof.
  unfold ProcessPayment, paymentRepo_GetOrderByID.
  destruct (p_get f); [by left|].
  destruct (find _ _) as [q|] eqn:E; [by left|]. cbn [option_map].
  destruct (PaymentFacts.ProcessPayment_tx_atomic f now uuid d event) as [[H _]|H];
    [by left|].
  right. split.
  - intros p Hp Heq. apply list_elem_of_In in Hp.
    pose proof (find_none _ _ E p Hp) as Hf. cbn in Hf.
    by rewrite bool_decide_eq_false in Hf.
  - rewrite H, PaymentFacts.ProcessPayment_tx_no_faults.
    unfold decide_payment. rewrite PaymentFacts.rem2_even.
    destruct (Z.even (evOrderID event)); cbn [fst]; by eexists _, _.
Qed.

(** X13: when the deliveries are handled one after another, whatever fails
    in between, the payments table keeps at most one row per order: rows
    are only appended, each together with exactly one outbox row, and a
    new row has status FAIL for an even order id and PAID for an odd
    one. *)
Theorem handle_all_one_payment_per_order (deliveries : list delivery) (d : db) :
  NoDup (map OrderID (payments d)) ->
  NoDup (map OrderID (payments (handle_all deliveries d))) /\
  payments d `prefix_of` payments (handle_all deliveries d) /\
  (length (payments (handle_all deliveries d)) + length (Outbox.rows (outbox d)) =
   length (payments d) + length (Outbox.rows (outbox (handle_all deliveries d))))%nat /\
  (forall p, p ∈ payments (handle_all deliveries d) -> p ∉ payments d ->
     Status p = if Z.even (OrderID p) then "FAIL" else "PAID").
Proof.
  revert d. induction deliveries as [|c cs IH]; intros d Hnd.
  - cbn. split; [done|]. split; [done|]. split; [done|]. by intros p Hp Hn.
  - cbn [handle_all foldl].
    set (d1 := (ProcessPayment (dl_faults c) (dl_now c) (dl_uuid c) d (dl_event c)).1).
    assert (Hstep : NoDup (map OrderID (payments d1)) /\
                    payments d `prefix_of` payments d1 /\
                    (length (payments d1) + length (Outbox.rows (outbox d)) =
                     length (payments d) + length (Outbox.rows (outbox d1)))%nat /\
                    (forall p, p ∈ payments d1 -> p ∉ payments d ->
                       Status p = if Z.even (OrderID p) then "FAIL" else "PAID")).
    { destruct (ProcessPayment_step (dl_faults c) (dl_now c) (dl_uuid c) d (dl_event c))
        as [H|(Hnew & ty & payload & H)]; fold d1 in H; rewrite H.
      - split; [done|]. split; [done|]. split; [done|]. by intros p Hp Hn.
      - cbn [payment_written payments outbox Outbox.rows].
        split; [|split; [|split]].
        + rewrite map_app. apply NoDup_app. split; [done|]. split; [|apply NoDup_singleton].
          intros i Hi Hi'. cbn in Hi'. apply list_elem_of_singleton in Hi'. subst i.
          apply list_elem_of_In, in_map_iff in Hi as (p & Hp & Hin).
          by apply (Hnew p); [apply list_elem_of_In|].
        + by apply prefix_app_r.
        + rewrite !length_app. cbn. lia.
        + intros p [Hp|Hp]%elem_of_app Hn; [done|].
          apply list_elem_of_singleton in Hp. subst p. cbn [Status OrderID].
          unfold decide_payment. rewrite PaymentFacts.rem2_even.
          by destruct (Z.even (evOrderID (dl_event c))). }
    destruct Hstep as (H1 & H2 & H3 & H4).
    destruct (IH d1 H1) as (I1 & I2 & I3 & I4).
    change (foldl _ d1 cs) with (handle_all cs d1).
    split; [done|]. split; [by etrans|]. split; [lia|].
    intros p Hp Hn. destruct (decide (p ∈ payments d1)) as [Hd1|Hd1].
    + by apply H4.
    + by apply I4.
Qed.

Lemma handle_all_one_payment_per_order_witness :
  map OrderID
    (payments (handle_all
                 [mkDelivery no_faults 60 "u1" (reserved 3);
                  mkDelivery (mkFaults None None None None (Some (ErrIO "conn closed")))
                    61 "u2" (reserved 4);
                  mkDelivery no_faults 62 "u3" (reserved 3);
                  mkDelivery no_faults 63 "u4" (reserved 4)] empty_db)) = [3; 4] /\
  NoDup (map OrderID
    (payments (handle_all
                 [mkDelivery no_faults 60 "u1" (reserved 3);
                  mkDelivery (mkFaults None None None None (Some (ErrIO "conn closed")))
                    61 "u2" (reserved 4);
                  mkDelivery no_faults 62 "u3" (reserved 3);
                  mkDelivery no_faults 63 "u4" (reserved 4)] empty_db))).
Proof.
  split; [reflexivity|].
  apply (handle_all_one_payment_per_order
           [mkDelivery no_faults 60 "u1" (reserved 3);
            mkDelivery (mkFaults None None None None (Some (ErrIO "conn closed")))
              61 "u2" (reserved 4);
            mkDelivery no_faults 62 "u3" (reserved 3);
            mkDelivery no_faults 63 "u4" (reserved 4)] empty_db).
  cbn. apply NoDup_nil_2.
Defined.

End PaymentRunsFacts.

(** ** The product service: reserving and returning stock *)

Module InventoryFacts.
Import Product Inventory.

Lemma restocked_set_stock (now s : Z) (r : ProductRow) : restocked s r (set_stock now s r).
Proof. by exists now. Qed.

Lemma restocked_same (s : Z) (r : ProductRow) : s = stock_quantity r -> restocked s r r.
Proof. intros ->. exists (updated_at r). by destruct r. Qed.

Lemma restocked_trans (s1 s2 : Z) (r r1 r2 : ProductRow) :
  restocked s1 r r1 -> restocked s2 r1 r2 -> restocked s2 r r2.
Proof. intros [u ->] [u' ->]. by exists u'. Qed.

Lemma restocked_fields (s : Z) (r r' : ProductRow) :
  restocked s r r' ->
  stock_quantity r' = s /\ price r' = price r /\ deleted_at r' = deleted_at r.
Proof. by intros [u ->]. Qed.

Lemma quantity_of_nonneg (pairs : list (Z * Z)) (id : Z) :
  Forall (fun p => 0 <= p.2) pairs -> 0 <= quantity_of pairs id.
Proof.
  unfold quantity_of. induction 1 as [|p pairs Hp _ IH]; cbn [foldr]; [lia|].
  destruct (decide (p.1 = id)); lia.
Qed.

Lemma DecreaseStock_inl (f : repo_faults) (now : Z) (tx tx1 : gmap Z ProductRow)
    (id q p : Z) :
  productRepo_DecreaseStock f now tx id q = (tx1, inl p) ->
  exists r,
    tx !! id = Some r /\ deleted_at r = None /\
    0 <= stock_quantity r - q <= max_int4 /\
    p = price r /\ tx1 = <[id := set_stock now (stock_quantity r - q) r]> tx.
Proof.
  unfold productRepo_DecreaseStock.
  destruct (r_select f); [done|].
  destruct (tx !! id) as [r|]; [|done].
  destruct (r_update f); [done|].
  destruct ((q <=? stock_quantity r) && bool_decide (deleted_at r = None)) eqn:E1; [|done].
  destruct ((0 <=? stock_quantity r - q) && (stock_quantity r - q <=? max_int4)) eqn:E2;
    [|done].
  intros [= <- <-]. exists r.
  apply andb_true_iff in E1 as [_ Hd]. apply bool_decide_eq_true in Hd.
  apply andb_true_iff in E2 as [H0 H1]. apply Z.leb_le in H0, H1.
  by repeat split.
Qed.

Lemma IncreaseStock_None (fault : option error) (now : Z) (tx tx1 : gmap Z ProductRow)
    (id q : Z) :
  productRepo_IncreaseStock fault now tx id q = (tx1, None) ->
  exists r,
    tx !! id = Some r /\ 0 <= stock_quantity r + q <= max_int4 /\
    tx1 = <[id := set_stock now (stock_quantity r + q) r]> tx.
Proof.
  unfold productRepo_IncreaseStock.
  destruct fault; [done|].
  destruct (tx !! id) as [r|]; [|done].
  destruct (max_int4 <? stock_quantity r + q) eqn:E1; [done|].
  destruct (stock_quantity r + q <? 0) eqn:E2; [done|].
  intros [= <-]. exists r. apply Z.ltb_ge in E1, E2. by repeat split.
Qed.

(** One UPDATE of the stock of [id0], seen from any product [id]. *)
Lemma restock_step (tx : gmap Z ProductRow) (now : Z) (id0 : Z) (r0 : ProductRow)
    (s : Z) (id : Z) :
  tx !! id0 = Some r0 ->
  option_Forall2
    (fun r r' => restocked (if decide (id0 = id) then s else stock_quantity r) r r')
    (tx !! id) (<[id0 := set_stock now s r0]> tx !! id).
Proof.
  intros H0. destruct (decide (id0 = id)) as [<-|Hne].
  - rewrite lookup_insert_eq, H0. constructor. apply restocked_set_stock.
  - rewrite lookup_insert_ne by done. destruct (tx !! id); constructor.
    by apply restocked_same.
Qed.

Lemma option_Forall2_restocked_trans (f g : ProductRow -> Z)
    (m1 m2 m3 : option ProductRow) (h : ProductRow -> Z) :
  option_Forall2 (fun r r' => restocked (f r) r r') m1 m2 ->
  option_Forall2 (fun r r' => restocked (g r) r r') m2 m3 ->
  (forall r r1, m1 = Some r -> m2 = Some r1 -> g r1 = h r) ->
  option_Forall2 (fun r r' => restocked (h r) r r') m1 m3.
Proof.
  intros H12 H23 Hh. destruct H12 as [r r1 H1|]; inversion H23 as [? r2 H2|]; subst;
    constructor.
  rewrite <- (Hh r r1 eq_refl eq_refl). by eapply restocked_trans.
Qed.

Lemma price_of_restocked (tx tx' : gmap Z ProductRow) (f : ProductRow -> Z) (id : Z) :
  option_Forall2 (fun r r' => restocked (f r) r r') (tx !! id) (tx' !! id) ->
  price_of tx' id = price_of tx id.
Proof.
  unfold price_of. intros H. destruct H as [r r' [u ->]|]; reflexivity.
Qed.

(** What a completed loop of [ReserveProduct] has done. *)
Lemma decrease_all_inv (fd : nat -> repo_faults) (now : Z) (items : list OrderItemEvent) :
  forall (i : nat) (tx : gmap Z ProductRow) (a : Z) (tx' : gmap Z ProductRow) (total : Z),
    decrease_all fd now i items tx (wrap64 a) = (tx', inl total) ->
    total = wrap64 (a + foldr Z.add 0
                          (map (fun it => price_of tx (ieProductID it) * ieQuantity it)
                             items)) /\
    (forall id,
       option_Forall2
         (fun r r' => restocked (stock_quantity r - quantity_of (created_pairs items) id) r r')
         (tx !! id) (tx' !! id)) /\
    Forall (fun it => exists r, tx !! ieProductID it = Some r /\ deleted_at r = None) items /\
    ((forall id r, tx !! id = Some r -> 0 <= stock_quantity r) ->
     forall id r, tx' !! id = Some r -> 0 <= stock_quantity r).
Proof.
  induction items as [|it rest IH]; intros i tx a tx' total; cbn [decrease_all].
  - intros [= <- <-]. split; [f_equal; cbn; lia|]. split; [|split; [constructor|done]].
    intros id. cbn. destruct (tx !! id); constructor. apply restocked_same. lia.
  - destruct (productRepo_DecreaseStock (fd i) now tx (ieProductID it) (ieQuantity it))
      as [tx1 [p|err]] eqn:E; [|done].
    pose proof (ProductFacts.DecreaseStock_stock_nonneg (fd i) now tx
                  (ieProductID it) (ieQuantity it)) as Hnn.
    rewrite E in Hnn. cbn [fst] in Hnn.
    apply DecreaseStock_inl in E as (r0 & Hr0 & Hd0 & Hrange & -> & ->).
    assert (Hacc : wrap64 (wrap64 a + wrap64 (price r0 * ieQuantity it)) =
                   wrap64 (a + price r0 * ieQuantity it)).
    { apply OrderServiceFacts.wrap64_congr.
      rewrite Zplus_mod, !OrderServiceFacts.wrap64_mod, <- Zplus_mod. reflexivity. }
    rewrite Hacc. intros Hrun.
    apply IH in Hrun as (Htotal & Hrows & Hlive & Hnn').
    assert (Hstep : forall id,
              option_Forall2
                (fun r r' => restocked (if decide (ieProductID it = id)
                                        then stock_quantity r0 - ieQuantity it
                                        else stock_quantity r) r r')
                (tx !! id)
                (<[ieProductID it := set_stock now (stock_quantity r0 - ieQuantity it) r0]> tx
                   !! id))
      by (intros id; by apply restock_step).
    split; [|split; [|split]].
    + rewrite Htotal. f_equal. cbn [map foldr].
      assert (Hprice : price_of tx (ieProductID it) = price r0)
        by (unfold price_of; by rewrite Hr0).
      rewrite Hprice.
      assert (Hsame :
        map (fun it0 => price_of
                          (<[ieProductID it := set_stock now (stock_quantity r0 - ieQuantity it) r0]> tx)
                          (ieProductID it0) * ieQuantity it0) rest =
        map (fun it0 => price_of tx (ieProductID it0) * ieQuantity it0) rest).
      { apply map_ext. intros it0. f_equal. eapply price_of_restocked. apply Hstep. }
      rewrite Hsame. lia.
    + intros id. eapply option_Forall2_restocked_trans; [apply Hstep|apply Hrows|].
      intros r r1 Hr Hr1. cbn [created_pairs map quantity_of foldr fst snd].
      fold (created_pairs rest). fold (quantity_of (created_pairs rest) id).
      specialize (Hstep id). rewrite Hr, Hr1 in Hstep.
      inversion Hstep as [? ? Hre|]; subst.
      apply restocked_fields in Hre as (Hs & _).
      destruct (decide (ieProductID it = id)) as [Heq|Hne].
      * rewrite Heq in Hr0. rewrite Hr0 in Hr. inversion Hr; subst. lia.
      * lia.
    + constructor; [by exists r0|].
      eapply Forall_impl; [exact Hlive|]. cbn. intros it0 (r1 & Hr1 & Hd1).
      specialize (Hstep (ieProductID it0)). rewrite Hr1 in Hstep.
      inversion Hstep as [r ? Hre Hr|]; subst.
      apply restocked_fields in Hre as (_ & _ & Hd). exists r. split; [done|congruence].
    + intros Hinv. apply Hnn'. apply Hnn. exact Hinv.
Qed.

(** What a completed loop of [ReturnStock] has done. *)
Lemma increase_all_inv (fi : nat -> option error) (now : Z) (items : list Order.OrderItem) :
  forall (i : nat) (tx tx' : gmap Z ProductRow),
    increase_all fi now i items tx = (tx', None) ->
    (forall id,
       option_Forall2
         (fun r r' => restocked (stock_quantity r + quantity_of (cancelled_pairs items) id) r r')
         (tx !! id) (tx' !! id)) /\
    Forall (fun it => is_Some (tx !! Order.ProductID it)) items.
Proof.
  induction items as [|it rest IH]; intros i tx tx'; cbn [increase_all].
  - intros [= <-]. split; [|constructor].
    intros id. cbn. destruct (tx !! id); constructor. apply restocked_same. lia.
  - destruct (productRepo_IncreaseStock (fi i) now tx (Order.ProductID it) (Order.Quantity it))
      as [tx1 [err|]] eqn:E; [done|].
    apply IncreaseStock_None in E as (r0 & Hr0 & Hrange & ->).
    intros Hrun. apply IH in Hrun as (Hrows & Hknown).
    assert (Hstep : forall id,
              option_Forall2
                (fun r r' => restocked (if decide (Order.ProductID it = id)
                                        then stock_quantity r0 + Order.Quantity it
                                        else stock_quantity r) r r')
                (tx !! id)
                (<[Order.ProductID it :=
                     set_stock now (stock_quantity r0 + Order.Quantity it) r0]> tx !! id))
      by (intros id; by apply restock_step).
    split.
    + intros id. eapply option_Forall2_restocked_trans; [apply Hstep|apply Hrows|].
      intros r r1 Hr Hr1. cbn [cancelled_pairs map quantity_of foldr fst snd].
      fold (cancelled_pairs rest). fold (quantity_of (cancelled_pairs rest) id).
      specialize (Hstep id). rewrite Hr, Hr1 in Hstep.
      inversion Hstep as [? ? Hre|]; subst.
      apply restocked_fields in Hre as (Hs & _).
      destruct (decide (Order.ProductID it = id)) as [Heq|Hne].
      * rewrite Heq in Hr0. rewrite Hr0 in Hr. inversion Hr; subst. lia.
      * lia.
    + constructor; [by exists r0|].
      eapply Forall_impl; [exact Hknown|]. cbn. intros it0 [r1 Hr1].
      specialize (Hstep (Order.ProductID it0)). rewrite Hr1 in Hstep.
      inversion Hstep; subst. by eexists.
Qed.

(** X14: [ReserveProduct] is all or nothing.  On every error the database
    is the one it was given: no stock is taken and no event is written.
    When it returns nil, every item named a live product; the stock of
    each product went down by the units the order holds of it (items that
    repeat a product add up) and no other column but [updated_at]
    changed; and the outbox got one row for [payment_events] with the
    [InventoryReserved] envelope, whose amount is the sum of price times
    quantity at the prices of the table, in [int64]. *)
Theorem ReserveProduct_all_or_nothing (f : faults) (now : Z) (d : db)
    (event : OrderCreatedEvent) :
  match productService_ReserveProduct f now d event with
  | (d', Some _) => d' = d
  | (d', None) =>
      Forall (fun it => exists r, products d !! ieProductID it = Some r /\ deleted_at r = None)
        (ocItems event) /\
      (forall id,
         option_Forall2
           (fun r r' =>
              restocked (stock_quantity r - quantity_of (created_pairs (ocItems event)) id) r r')
           (products d !! id) (products d' !! id)) /\
      outbox d' =
        Outbox.mkTable
          (Outbox.rows (outbox d) ++
           [Outbox.mkOutboxEvent (Outbox.next_id (outbox d)) "Inventory"
              (pretty (ocOrderID event)) "InventoryReserved"
              (InventoryReserved_envelope (ocOrderID event) (ocUserID event)
                 (wrap64 (foldr Z.add 0
                            (map (fun it => price_of (products d) (ieProductID it) * ieQuantity it)
                               (ocItems event))))
                 now)
              (JObj []) now None 0 None "payment_events"])
          (Outbox.next_id (outbox d) + 1)
  end.
Proof.
  unfold productService_ReserveProduct.
  destruct (i_begin f); [done|].
  destruct (decrease_all (i_decrease f) now 0 (ocItems event) (products d) 0)
    as [tx [total|err]] eqn:E; [|done].
  change 0 with (wrap64 0) in E at 1.
  apply decrease_all_inv in E as (-> & Hrows & Hlive & _).
  unfold Outbox.SaveOutboxEvent.
  destruct (i_outbox f); [done|].
  destruct (i_commit f); [done|].
  cbn [products outbox]. split; [exact Hlive|]. split; [exact Hrows|]. reflexivity.
Qed.

Lemma ReserveProduct_all_or_nothing_witness :
  Outbox.rows (outbox (productService_ReserveProduct no_faults 20 shop order_of_two).1) =
    [Outbox.mkOutboxEvent 1 "Inventory" "7" "InventoryReserved"
       (InventoryReserved_envelope 7 999 10700 20) (JObj []) 20 None 0 None "payment_events"] /\
  (productService_ReserveProduct no_faults 20 shop
     (mkOrderCreatedEvent 8 999 [mkOrderItemEvent 1 2; mkOrderItemEvent 1 2])).1 = shop.
Proof.
  split.
  - pose proof (ReserveProduct_all_or_nothing no_faults 20 shop order_of_two) as H.
    assert (Hnil : (productService_ReserveProduct no_faults 20 shop order_of_two).2 = None)
      by reflexivity.
    destruct (productService_ReserveProduct no_faults 20 shop order_of_two) as [d' [e|]];
      [discriminate|].
    destruct H as (_ & _ & H). cbn [fst]. rewrite H. reflexivity.
  - pose proof (ReserveProduct_all_or_nothing no_faults 20 shop
                  (mkOrderCreatedEvent 8 999 [mkOrderItemEvent 1 2; mkOrderItemEvent 1 2]))
      as H.
    assert (Herr : (productService_ReserveProduct no_faults 20 shop
                      (mkOrderCreatedEvent 8 999 [mkOrderItemEvent 1 2; mkOrderItemEvent 1 2])).2
                   = Some ErrInsufficientStock) by reflexivity.
    destruct (productService_ReserveProduct no_faults 20 shop _) as [d' [e|]];
      [exact H|discriminate].
Defined.

(** X15: [ReturnStock] is all or nothing and keeps no record of what it
    returned.  On every error the database is the one it was given.  When
    it returns nil, every item named a row of [products], deleted or not,
    and the stock of each product went up by the units the event holds of
    it; nothing but [updated_at] changed otherwise, and no event was
    written.  A second delivery of the same event adds the units again. *)
Theorem ReturnStock_adds_units (f : faults) (now : Z) (d : db)
    (event : OrderCancelledEvent) :
  match productService_ReturnStock f now d event with
  | (d', Some _) => d' = d
  | (d', None) =>
      Forall (fun it => is_Some (products d !! Order.ProductID it)) (cnItems event) /\
      (forall id,
         option_Forall2
           (fun r r' =>
              restocked (stock_quantity r + quantity_of (cancelled_pairs (cnItems event)) id)
                r r')
           (products d !! id) (products d' !! id)) /\
      outbox d' = outbox d /\
      forall f' now' d'',
        productService_ReturnStock f' now' d' event = (d'', None) ->
        forall id,
          option_Forall2
            (fun r r'' =>
               restocked (stock_quantity r
                          + 2 * quantity_of (cancelled_pairs (cnItems event)) id) r r'')
            (products d !! id) (products d'' !! id)
  end.
Proof.
  assert (Hone : forall f now d d',
            productService_ReturnStock f now d event = (d', None) ->
            Forall (fun it => is_Some (products d !! Order.ProductID it)) (cnItems event) /\
            (forall id,
               option_Forall2
                 (fun r r' =>
                    restocked (stock_quantity r
                               + quantity_of (cancelled_pairs (cnItems event)) id) r r')
                 (products d !! id) (products d' !! id)) /\
            outbox d' = outbox d).
  { clear. intros f now d d'. unfold productService_ReturnStock.
    destruct (i_begin f); [done|].
    destruct (increase_all _ _ _ _ _) as [tx [err|]] eqn:E; [done|].
    destruct (i_commit f); [done|].
    intros [= <-]. apply increase_all_inv in E as [Hrows Hknown]. by repeat split. }
  destruct (productService_ReturnStock f now d event) as [d' [err|]] eqn:E.
  - revert E. unfold productService_ReturnStock.
    destruct (i_begin f); [by intros [= <- _]|].
    destruct (increase_all _ _ _ _ _) as [tx [err'|]]; [by intros [= <- _]|].
    destruct (i_commit f); [by intros [= <- _]|done].
  - destruct (Hone _ _ _ _ E) as (Hknown & Hrows & Hout).
    split; [exact Hknown|]. split; [exact Hrows|]. split; [exact Hout|].
    intros f' now' d'' E' id.
    destruct (Hone _ _ _ _ E') as (_ & Hrows' & _).
    eapply InventoryFacts.option_Forall2_restocked_trans; [apply Hrows|apply Hrows'|].
    intros r r1 Hr Hr1. cbn beta.
    specialize (Hrows id). rewrite Hr, Hr1 in Hrows.
    inversion Hrows as [? ? Hre|]; subst.
    apply restocked_fields in Hre as (Hs & _). lia.
Qed.

Lemma ReturnStock_adds_units_witness :
  option_map stock_quantity
    (products (productService_ReturnStock no_faults 30 closed_shop cancelled_two).1 !! 1)
  = Some 5.
Proof.
  pose proof (ReturnStock_adds_units no_faults 30 closed_shop cancelled_two) as H.
  assert (Hnil : (productService_ReturnStock no_faults 30 closed_shop cancelled_two).2 = None)
    by reflexivity.
  destruct (productService_ReturnStock no_faults 30 closed_shop cancelled_two) as [d' [e|]];
    [discriminate|].
  destruct H as (_ & H & _). specialize (H 1).
  assert (Hrow : products closed_shop !! 1 =
                 Some (mkProductRow "Kuronami No Yaiba" "Blade" 5350 3 "" "Skins" 10 10
                         (Some 15))) by reflexivity.
  rewrite Hrow in H. cbn [fst]. inversion H as [r r' Hre|]; subst.
  apply restocked_fields in Hre as (Hs & _). cbn [option_map]. by rewrite Hs.
Defined.

(** With non-negative quantities, known products and room in the INT
    column, the loop of [ReturnStock] goes through. *)
Lemma increase_all_ok (now : Z) (items : list Order.OrderItem) :
  forall (i : nat) (tx : gmap Z ProductRow),
    Forall (fun it => 0 <= Order.Quantity it /\ is_Some (tx !! Order.ProductID it)) items ->
    (forall id r, tx !! id = Some r ->
       0 <= stock_quantity r /\
       stock_quantity r + quantity_of (cancelled_pairs items) id <= max_int4) ->
    exists tx', increase_all (fun _ => None) now i items tx = (tx', None).
Proof.
  induction items as [|it rest IH]; intros i tx Hitems Hroom; cbn [increase_all].
  - by eexists.
  - apply Forall_cons in Hitems as [[Hq [r0 Hr0]] Hitems].
    assert (Hrest : Forall (fun p : Z * Z => 0 <= p.2) (cancelled_pairs rest)).
    { apply Forall_map. eapply Forall_impl; [exact Hitems|]. by intros it0 [H _]. }
    destruct (Hroom _ _ Hr0) as [Hnn Hmax].
    cbn [cancelled_pairs map quantity_of foldr fst snd] in Hmax.
    fold (cancelled_pairs rest) in Hmax.
    fold (quantity_of (cancelled_pairs rest) (Order.ProductID it)) in Hmax.
    rewrite decide_True in Hmax by done.
    pose proof (quantity_of_nonneg _ (Order.ProductID it) Hrest) as Hq0.
    unfold productRepo_IncreaseStock. rewrite Hr0.
    destruct (max_int4 <? stock_quantity r0 + Order.Quantity it) eqn:E1;
      [apply Z.ltb_lt in E1; lia|].
    destruct (stock_quantity r0 + Order.Quantity it <? 0) eqn:E2;
      [apply Z.ltb_lt in E2; lia|].
    apply IH.
    + eapply Forall_impl; [exact Hitems|]. cbn. intros it0 [H0 [r1 Hr1]].
      split; [done|].
      destruct (decide (Order.ProductID it = Order.ProductID it0)) as [<-|Hne].
      * rewrite lookup_insert_eq. by eexists.
      * rewrite lookup_insert_ne by done. by eexists.
    + intros id r Hr.
      destruct (decide (Order.ProductID it = id)) as [<-|Hne].
      * rewrite lookup_insert_eq in Hr. inversion Hr; subst. cbn [set_stock stock_quantity].
        lia.
      * rewrite lookup_insert_ne in Hr by done.
        destruct (Hroom _ _ Hr) as [Hnn' Hmax'].
        cbn [cancelled_pairs map quantity_of foldr fst snd] in Hmax'.
        fold (cancelled_pairs rest) in Hmax'.
        fold (quantity_of (cancelled_pairs rest) id) in Hmax'.
        rewrite decide_False in Hmax' by done. done.
Qed.

(** X16: the compensation undoes the reservation.  On a table whose
    stocks fit the INT column, after [ReserveProduct] has returned nil for
    an order with non-negative quantities, [ReturnStock] for the items of
    that order returns nil when nothing fails and puts the stock of every
    product back to what it was before the reservation; the reservation's
    outbox row stays. *)
Theorem ReserveProduct_then_ReturnStock (f : faults) (now now' : Z) (d d' : db)
    (event : OrderCreatedEvent) :
  (forall id r, products d !! id = Some r -> 0 <= stock_quantity r <= max_int4) ->
  Forall (fun it => 0 <= ieQuantity it) (ocItems event) ->
  productService_ReserveProduct f now d event = (d', None) ->
  exists d'',
    productService_ReturnStock no_faults now' d'
      (mkOrderCancelledEvent (ocOrderID event) (cancelled_items (ocItems event))) =
      (d'', None) /\
    outbox d'' = outbox d' /\
    forall id,
      option_Forall2 (fun r r'' => restocked (stock_quantity r) r r'')
        (products d !! id) (products d'' !! id).
Proof.
  intros Hfit Hq Hres.
  assert (Hpairs : cancelled_pairs (cancelled_items (ocItems event)) =
                   created_pairs (ocItems event)).
  { unfold cancelled_pairs, cancelled_items, created_pairs. rewrite map_map.
    by apply map_ext. }
  revert Hres. unfold productService_ReserveProduct.
  destruct (i_begin f); [done|].
  destruct (decrease_all (i_decrease f) now 0 (ocItems event) (products d) 0)
    as [tx [total|err]] eqn:E; [|done].
  change 0 with (wrap64 0) in E at 1.
  apply decrease_all_inv in E as (_ & Hrows & Hlive & Hnn).
  unfold Outbox.SaveOutboxEvent.
  destruct (i_outbox f); [done|].
  destruct (i_commit f); [done|].
  intros [= <-].
  destruct (increase_all_ok now' (cancelled_items (ocItems event)) 0%nat tx) as [tx'' Hinc].
  - unfold cancelled_items. apply Forall_map.
    rewrite Forall_forall in Hq, Hlive. apply Forall_forall. intros it Hit.
    cbn. split; [by apply Hq|].
    destruct (Hlive it Hit) as (r & Hr & _).
    specialize (Hrows (ieProductID it)). rewrite Hr in Hrows.
    inversion Hrows; subst. by eexists.
  - intros id r' Hr'. split.
    + apply (Hnn (fun id r Hr => proj1 (Hfit id r Hr)) id r' Hr').
    + rewrite Hpairs. specialize (Hrows id). rewrite Hr' in Hrows.
      inversion Hrows as [r ? Hre Hr|]; subst.
      apply restocked_fields in Hre as (Hs & _).
      symmetry in Hr. pose proof (Hfit id r Hr). lia.
  - exists (mkDb tx'' (Outbox.mkTable
              (Outbox.rows (outbox d) ++
               [Outbox.mkOutboxEvent (Outbox.next_id (outbox d)) "Inventory"
                  (pretty (ocOrderID event)) "InventoryReserved"
                  (InventoryReserved_envelope (ocOrderID event) (ocUserID event) total now)
                  (JObj []) now None 0 None "payment_events"])
              (Outbox.next_id (outbox d) + 1))).
    unfold productService_ReturnStock.
    cbn [i_begin i_increase i_commit no_faults cnItems products outbox].
    rewrite Hinc. split; [reflexivity|]. split; [reflexivity|].
    apply increase_all_inv in Hinc as [Hrows' _].
    intros id.
    eapply option_Forall2_restocked_trans; [apply Hrows|apply Hrows'|].
    intros r r1 Hr Hr1. cbn beta. rewrite Hpairs.
    specialize (Hrows id). rewrite Hr, Hr1 in Hrows.
    inversion Hrows as [? ? Hre|]; subst.
    apply restocked_fields in Hre as (Hs & _). lia.
Qed.

Lemma ReserveProduct_then_ReturnStock_witness :
  exists d'',
    productService_ReturnStock no_faults 30
      (productService_ReserveProduct no_faults 20 shop order_of_two).1
      (mkOrderCancelledEvent 7 (cancelled_items (ocItems order_of_two))) = (d'', None) /\
    option_map stock_quantity
      (products (productService_ReserveProduct no_faults 20 shop order_of_two).1 !! 1) = Some 1 /\
    option_map stock_quantity (products d'' !! 1) = Some 3.
Proof.
  destruct (ReserveProduct_then_ReturnStock no_faults 20 30 shop
              (productService_ReserveProduct no_faults 20 shop order_of_two).1
              order_of_two) as (d'' & H1 & _ & H3).
  - intros id r Hr. unfold shop, one_product in Hr. cbn [products] in Hr.
    apply lookup_singleton_Some in Hr as [_ <-].
    cbn. unfold max_int4. lia.
  - repeat constructor; cbn; lia.
  - reflexivity.
  - exists d''. split; [exact H1|]. split; [reflexivity|].
    specialize (H3 1).
    assert (Hrow : products shop !! 1 =
                   Some (mkProductRow "Kuronami No Yaiba" "Blade" 5350 3 "" "Skins" 10 10 None))
      by reflexivity.
    rewrite Hrow in H3. inversion H3 as [r r'' Hre|]; subst.
    apply restocked_fields in Hre as (Hs & _). cbn [option_map]. by rewrite Hs.
Defined.


End InventoryFacts.

(** ** The catalogue: deleting a product *)

Module CatalogFacts.
Import Product.

(** What a successful [Delete] found and wrote. *)
Lemma Delete_nil (f : faults) (now : Z) (p p' : pool) (id : Z) :
  productService_Delete f now p id = (p', None) ->
  exists r,
    committed p !! id = Some r /\ deleted_at r = None /\
    p' = mkPool (<[id := set_deleted now r]> (committed p)) (in_flight p).
Proof.
  unfold productService_Delete, productRepo_DeleteByID.
  destruct (s_delete f); [done|].
  destruct (committed p !! id) as [r|] eqn:Hr; [|done].
  destruct (deleted_at r) eqn:Hd; [done|].
  intros [= <-]. by exists r.
Qed.

(** X17: after [Delete] has returned nil for a product, the row is still
    in the table with [deleted_at] set, and the rest of the service sees
    it as follows: [FindByID] answers [ErrProductNotFound]; a second
    [Delete] answers [ErrProductNotFound] and changes nothing;
    [DecreaseStock] answers [ErrInsufficientStock] for every quantity and
    changes nothing; [IncreaseStock] still adds to the stock of the deleted
    row. *)
Theorem Delete_hides_product (f : faults) (now : Z) (p p' : pool) (id : Z) :
  productService_Delete f now p id = (p', None) ->
  exists r,
    committed p !! id = Some r /\ deleted_at r = None /\
    committed p' = <[id := set_deleted now r]> (committed p) /\
    in_flight p' = in_flight p /\
    productService_FindByID no_faults p' id = inr ErrProductNotFound /\
    (forall now', productService_Delete no_faults now' p' id = (p', Some ErrProductNotFound)) /\
    (forall now' q,
       productRepo_DecreaseStock no_repo_faults now' (committed p') id q =
       (committed p', inr ErrInsufficientStock)) /\
    (forall now' q,
       0 <= stock_quantity r + q <= max_int4 ->
       Inventory.productRepo_IncreaseStock None now' (committed p') id q =
       (<[id := set_stock now' (stock_quantity r + q) (set_deleted now r)]> (committed p'),
        None)).
Proof.
  intros Hdel. apply Delete_nil in Hdel as (r & Hr & Hd & ->).
  exists r. cbn [committed in_flight].
  split; [done|]. split; [done|]. split; [done|]. split; [done|].
  split; [|split; [|split]].
  - unfold productService_FindByID, productRepo_GetByID. cbn [s_read no_faults committed].
    by rewrite lookup_insert_eq.
  - intros now'. unfold productService_Delete, productRepo_DeleteByID.
    cbn [s_delete no_faults committed in_flight]. by rewrite lookup_insert_eq.
  - intros now' q. unfold productRepo_DecreaseStock. cbn [r_select r_update no_repo_faults].
    rewrite lookup_insert_eq. cbn [set_deleted deleted_at stock_quantity].
    rewrite (bool_decide_eq_false_2 (Some now = None)) by done.
    by rewrite andb_false_r.
  - intros now' q Hq. unfold Inventory.productRepo_IncreaseStock.
    rewrite lookup_insert_eq. cbn [set_deleted stock_quantity].
    destruct (max_int4 <? stock_quantity r + q) eqn:E1; [apply Z.ltb_lt in E1; lia|].
    destruct (stock_quantity r + q <? 0) eqn:E2; [apply Z.ltb_lt in E2; lia|].
    reflexivity.
Qed.

Lemma Delete_hides_product_witness :
  productService_FindByID no_faults
    (productService_Delete no_faults 15 (mkPool one_product []) 1).1 1 =
  inr ErrProductNotFound.
Proof.
  destruct (Delete_hides_product no_faults 15 (mkPool one_product [])
              (productService_Delete no_faults 15 (mkPool one_product []) 1).1 1)
    as (r & _ & _ & _ & _ & H & _); [reflexivity|exact H].
Defined.

(** X19: [Create] is all or nothing.  On every error the tables are as
    they were.  When it returns an id, the id is new and is the next value
    of the sequence; the price is not negative, the stock lies in the
    range of a non-negative INT, and no row of the table, deleted or not,
    had the name; the table gained exactly the row of the product, live,
    and the outbox one [ProductCreated] row for [product_events]; and
    [FindByID] of the new id reads the product back as it was given. *)
Theorem productService_Create_all_or_nothing (f : Catalog.faults) (now : Z)
    (d : Catalog.db) (product : Product) :
  (forall i r, Catalog.products d !! i = Some r -> i < Catalog.products_seq d) ->
  match Catalog.productService_Create f now d product with
  | (d', inr _) => d' = d
  | (d', inl id) =>
      id = Catalog.products_seq d /\
      Catalog.products d !! id = None /\
      0 <= Price product /\ 0 <= StockQuantity product <= max_int4 /\
      (forall i r, Catalog.products d !! i = Some r -> name r <> Name product) /\
      Catalog.products d' =
        <[id := mkProductRow (Name product) (Description product) (Price product)
                  (StockQuantity product) (ImageUrl product) (Category product)
                  now now None]> (Catalog.products d) /\
      Catalog.products_seq d' = id + 1 /\
      Catalog.outbox d' =
        Outbox.mkTable
          (Outbox.rows (Catalog.outbox d) ++
           [Outbox.mkOutboxEvent (Outbox.next_id (Catalog.outbox d)) "Product" (pretty id)
              "ProductCreated" (Catalog.ProductCreated_json id) (JObj []) now None 0 None
              "product_events"])
          (Outbox.next_id (Catalog.outbox d) + 1) /\
      forall fl,
        productService_FindByID no_faults (mkPool (Catalog.products d') fl) id =
        inl (mkProduct id (Name product) (Description product) (Price product)
               (StockQuantity product) (ImageUrl product) (Category product) now now)
  end.
Proof.
  intros Hseq.
  unfold Catalog.productService_Create, Catalog.productRepo_Create.
  destruct (Catalog.c_begin f); [done|].
  destruct (Catalog.c_insert f); [done|].
  destruct ((StockQuantity product <? - max_int4 - 1) || (max_int4 <? StockQuantity product))
    eqn:E1; [done|].
  destruct ((Price product <? 0) || (StockQuantity product <? 0)) eqn:E2; [done|].
  destruct (bool_decide (map_Exists _ _)) eqn:E3; [done|].
  unfold Outbox.SaveOutboxEvent. cbn [Catalog.outbox].
  destruct (Catalog.c_outbox f); [done|].
  destruct (Catalog.c_commit f); [done|].
  cbn [Catalog.products Catalog.products_seq Catalog.outbox].
  apply orb_false_iff in E1 as [_ E1]. apply Z.ltb_ge in E1.
  apply orb_false_iff in E2 as [E2 E2']. apply Z.ltb_ge in E2, E2'.
  apply bool_decide_eq_false in E3.
  split; [done|]. split.
  { destruct (Catalog.products d !! Catalog.products_seq d) as [r|] eqn:Hr; [|done].
    specialize (Hseq _ _ Hr). lia. }
  split; [done|]. split; [done|]. split.
  { intros i r Hr Hname. apply E3. by exists i, r. }
  split; [done|]. split; [done|]. split; [done|].
  intros fl. unfold productService_FindByID, productRepo_GetByID.
  cbn [s_read no_faults committed]. by rewrite lookup_insert_eq.
Qed.

Lemma productService_Create_all_or_nothing_witness :
  (Catalog.productService_Create Catalog.no_faults 40 Catalog.catalog Catalog.new_blade).2
    = inl 2 /\
  productService_FindByID no_faults
    (mkPool (Catalog.products
               (Catalog.productService_Create Catalog.no_faults 40 Catalog.catalog
                  Catalog.new_blade).1) []) 2 =
  inl (mkProduct 2 "Reaver" "Blade" 4350 10 "" "Skins" 40 40).
Proof.
  split; [reflexivity|].
  pose proof (productService_Create_all_or_nothing Catalog.no_faults 40 Catalog.catalog
                Catalog.new_blade) as H.
  assert (Hid : (Catalog.productService_Create Catalog.no_faults 40 Catalog.catalog
                   Catalog.new_blade).2 = inl 2) by reflexivity.
  destruct (Catalog.productService_Create Catalog.no_faults 40 Catalog.catalog
              Catalog.new_blade) as [d' [id|e]]; [|discriminate].
  cbn [snd] in Hid. injection Hid as ->. cbn [fst].
  destruct H as (_ & _ & _ & _ & _ & _ & _ & _ & H).
  - intros i r Hr. unfold Catalog.catalog, one_product in Hr. cbn [Catalog.products] in Hr.
    apply lookup_singleton_Some in Hr as [<- _]. cbn. lia.
  - apply H.
Defined.

(** X20: the name of a deleted product stays taken.  After [Delete] has
    returned nil for a product, every [Create] of a product with that name
    fails and leaves the tables as they were. *)
Theorem Create_after_Delete_same_name (f : faults) (now : Z) (d : Catalog.db)
    (fl : list (gmap Z ProductRow)) (p' : pool) (id : Z) (r : ProductRow)
    (f' : Catalog.faults) (now' : Z) (product : Product) :
  Catalog.products d !! id = Some r ->
  Name product = name r ->
  productService_Delete f now (mkPool (Catalog.products d) fl) id = (p', None) ->
  exists err,
    Catalog.productService_Create f' now'
      (Catalog.mkDb (committed p') (Catalog.products_seq d) (Catalog.outbox d)) product =
    (Catalog.mkDb (committed p') (Catalog.products_seq d) (Catalog.outbox d), inr err).
Proof.
  intros Hr Hname Hdel.
  apply Delete_nil in Hdel as (r0 & Hr0 & _ & ->).
  cbn [committed] in Hr0 |- *. rewrite Hr in Hr0. inversion Hr0; subst r0.
  unfold Catalog.productService_Create, Catalog.productRepo_Create.
  destruct (Catalog.c_begin f'); [by eexists|].
  destruct (Catalog.c_insert f'); [by eexists|].
  destruct (_ || _); [by eexists|].
  destruct (_ || _); [by eexists|].
  cbn [Catalog.products].
  rewrite bool_decide_eq_true_2; [by eexists|].
  exists id, (set_deleted now r). split; [|by rewrite Hname].
  by rewrite lookup_insert_eq.
Qed.

Lemma Create_after_Delete_same_name_witness :
  exists err,
    Catalog.productService_Create Catalog.no_faults 50
      (Catalog.mkDb
         (committed (productService_Delete no_faults 15 (mkPool one_product []) 1).1)
         2 (Outbox.mkTable [] 1))
      (mkProduct 0 "Kuronami No Yaiba" "Blade" 5350 3 "" "Skins" 0 0) =
    (Catalog.mkDb
       (committed (productService_Delete no_faults 15 (mkPool one_product []) 1).1)
       2 (Outbox.mkTable [] 1), inr err).
Proof.
  apply (Create_after_Delete_same_name no_faults 15 Catalog.catalog [] _ 1
           (mkProductRow "Kuronami No Yaiba" "Blade" 5350 3 "" "Skins" 10 10 None)
           Catalog.no_faults 50); reflexivity.
Defined.


End CatalogFacts.

(** ** Errors on their way to the client *)

Module TransportFacts.
Import Transport.




End TransportFacts.
